(** * Trusted-proxy-aware client IP resolution (package [common]), the
    persistent secrets (package [model]) and the text of bodies in log
    lines (package [relay])

    A shallow embedding of the client IP resolver of the repository
    ([RealClientIP], [RealClientIPFromRequest], [TrustedProxies],
    [parseRemoteIP], [pickForwardedIP], [isTrustedProxyIP],
    [loadTrustedProxies], [splitProxyList], [parseProxyCIDRs]) together with
    the parts of the Go standard library the resolver calls ([strings],
    [net], [net/http]); of the secrets kept in the option table
    ([EnsurePersistentSecrets], [resolveSessionSecret],
    [resolveCryptoSecret], [getOptionValue], [upsertOption],
    [storeSessionSecretIfAbsent], [generateSecretHex]); and of
    [truncateForLog].

    Go strings are byte sequences and are modelled as [string] (one [ascii]
    per byte); a [net.IP] is a byte slice and is modelled as a list of
    integers in [0, 255]; Go's [nil] IP is [None]. *)

From Stdlib Require Import ZArith Ascii String List Bool Lia.
From stdpp Require Import base tactics option list gmap strings.

Local Open Scope Z_scope.

(** ** Bytes and characters *)

Definition byteOf (c : ascii) : Z := Z.of_N (N_of_ascii c).

Definition isDigit (c : ascii) : bool := (48 <=? byteOf c) && (byteOf c <=? 57).

Definition hexVal (c : ascii) : option Z :=
  let n := byteOf c in
  if (48 <=? n) && (n <=? 57) then Some (n - 48)
  else if (97 <=? n) && (n <=? 102) then Some (n - 97 + 10)
  else if (65 <=? n) && (n <=? 70) then Some (n - 65 + 10)
  else None.

Definition chr (n : Z) : ascii := ascii_of_N (Z.to_N n).

Fixpoint revOnto (s acc : string) : string :=
  match s with
  | EmptyString => acc
  | String c s' => revOnto s' (String c acc)
  end.

Definition revString (s : string) : string := revOnto s EmptyString.

(** ** Package [strings] *)

Module GoStrings.

(** The [asciiSpace] table of [strings.TrimSpace]: tab, line feed,
    vertical tab, form feed, carriage return and space. *)
Definition asciiSpace (c : ascii) : bool :=
  let n := byteOf c in ((9 <=? n) && (n <=? 13)) || (n =? 32).

(** [unicode.IsSpace] on the runes encoded by two bytes: U+0085 and U+00A0. *)
Definition space2 (c1 c2 : ascii) : bool :=
  (byteOf c1 =? 194) && ((byteOf c2 =? 133) || (byteOf c2 =? 160)).

(** [unicode.IsSpace] on the runes encoded by three bytes: U+1680,
    U+2000..U+200A, U+2028, U+2029, U+202F, U+205F and U+3000. *)
Definition space3 (c1 c2 c3 : ascii) : bool :=
  let a := byteOf c1 in let b := byteOf c2 in let c := byteOf c3 in
  ((a =? 225) && (b =? 154) && (c =? 128))
  || ((a =? 226) && (b =? 128)
      && (((128 <=? c) && (c <=? 138)) || (c =? 168) || (c =? 169) || (c =? 175)))
  || ((a =? 226) && (b =? 129) && (c =? 159))
  || ((a =? 227) && (b =? 128) && (c =? 128)).

(** Drops the leading white-space runes of [s]. *)
Fixpoint trimLeft (s : string) : string :=
  match s with
  | EmptyString => s
  | String c1 s1 =>
      if asciiSpace c1 then trimLeft s1
      else match s1 with
           | EmptyString => s
           | String c2 s2 =>
               if space2 c1 c2 then trimLeft s2
               else match s2 with
                    | EmptyString => s
                    | String c3 s3 => if space3 c1 c2 c3 then trimLeft s3 else s
                    end
           end
  end.

(** The same scan from the end of the string, on the reversed bytes: a
    white-space rune is recognised by the bytes of its encoding read
    backwards. *)
Fixpoint trimLeftRev (s : string) : string :=
  match s with
  | EmptyString => s
  | String c1 s1 =>
      if asciiSpace c1 then trimLeftRev s1
      else match s1 with
           | EmptyString => s
           | String c2 s2 =>
               if space2 c2 c1 then trimLeftRev s2
               else match s2 with
                    | EmptyString => s
                    | String c3 s3 => if space3 c3 c2 c1 then trimLeftRev s3 else s
                    end
           end
  end.

Definition trimRight (s : string) : string := revString (trimLeftRev (revString s)).

(** [strings.TrimSpace]: [s] without its leading and trailing white space,
    as defined by Unicode. *)
Definition TrimSpace (s : string) : string := trimRight (trimLeft s).

(** [strings.Split(s, sep)] for a separator of one byte: the substrings
    between the separators, the empty ones included; never the empty list. *)
Fixpoint Split (s : string) (sep : ascii) : list string :=
  match s with
  | EmptyString => [EmptyString]
  | String c s' =>
      if Ascii.eqb c sep then EmptyString :: Split s' sep
      else match Split s' sep with
           | h :: t => String c h :: t
           | [] => [String c EmptyString]
           end
  end.

(** [strings.FieldsFunc(s, f)] for a predicate [f] that holds of ASCII
    bytes only: the maximal non-empty runs of bytes on which [f] is false. *)
Fixpoint FieldsFunc (s : string) (f : ascii -> bool) : list string :=
  match s with
  | EmptyString => []
  | String c s' =>
      if f c then FieldsFunc s' f
      else match s' with
           | EmptyString => [String c EmptyString]
           | String c' _ =>
               if f c' then String c EmptyString :: FieldsFunc s' f
               else match FieldsFunc s' f with
                    | h :: t => String c h :: t
                    | [] => [String c EmptyString]
                    end
           end
  end.

(** [strings.Contains(s, substr)]. *)
Fixpoint Contains (s substr : string) : bool :=
  String.prefix substr s
  || match s with
     | EmptyString => false
     | String _ s' => Contains s' substr
     end.

(** [strings.IndexByte] and [strings.LastIndexByte]; [None] is Go's [-1]. *)
Fixpoint IndexByte (s : string) (c : ascii) : option nat :=
  match s with
  | EmptyString => None
  | String c' s' => if Ascii.eqb c' c then Some O else option_map S (IndexByte s' c)
  end.

Fixpoint LastIndexByte (s : string) (c : ascii) : option nat :=
  match s with
  | EmptyString => None
  | String c' s' =>
      match LastIndexByte s' c with
      | Some i => Some (S i)
      | None => if Ascii.eqb c' c then Some O else None
      end
  end.

(** [s[n:]] and [s[:n]]. *)
Fixpoint dropS (n : nat) (s : string) : string :=
  match n, s with
  | O, _ => s
  | S n', String _ s' => dropS n' s'
  | S _, EmptyString => EmptyString
  end.

Fixpoint takeS (n : nat) (s : string) : string :=
  match n, s with
  | O, _ => EmptyString
  | S n', String c s' => String c (takeS n' s')
  | S _, EmptyString => EmptyString
  end.

End GoStrings.

(** ** Package [net] (with the address parser of [net/netip]) *)

Module GoNet.
Import GoStrings.

(** [net.IP] and [net.IPMask] are byte slices. *)
Definition IP := list Z.
Definition IPMask := list Z.

Record IPNet := mkIPNet { ipnIP : IP; ipnMask : IPMask }.

Definition IPv4len : nat := 4.
Definition IPv6len : nat := 16.

(** [netip.Addr]: the sixteen bytes of [As16], whether the address was
    written as IPv4, and the IPv6 zone. *)
Record Addr := mkAddr { as16 : list Z; is4 : bool; zone : string }.

Definition v4InV6Prefix : list Z := [0;0;0;0;0;0;0;0;0;0;255;255].

Definition BitLen (a : Addr) : Z := if is4 a then 32 else 128.

(** [parseIPv4Fields]: the loop over the bytes of a dotted quad, with the
    value and the digit count of the current octet and the octets read so
    far. [first] is [i == 0] and [prevDot] is [s[i-1] == '.']. *)
Fixpoint parseIPv4Loop (s : string) (first prevDot : bool) (val digLen : Z)
    (fields : list Z) : option (list Z) :=
  match s with
  | EmptyString =>
      if (length fields <? 3)%nat then None else Some (fields ++ [val])
  | String c rest =>
      if isDigit c then
        if (digLen =? 1) && (val =? 0) then None
        else
          let val' := val * 10 + (byteOf c - 48) in
          if 255 <? val' then None
          else parseIPv4Loop rest false false val' (digLen + 1) fields
      else if Ascii.eqb c "." then
        if first || (match rest with EmptyString => true | _ => false end) || prevDot
        then None
        else if (length fields =? 3)%nat then None
        else parseIPv4Loop rest false true 0 0 (fields ++ [val])
      else None
  end.

Definition parseIPv4Fields (s : string) : option (list Z) :=
  parseIPv4Loop s true false 0 0 [].

Definition parseIPv4 (s : string) : option Addr :=
  match parseIPv4Fields s with
  | Some f => Some (mkAddr (v4InV6Prefix ++ f) true EmptyString)
  | None => None
  end.

(** The longest prefix of hexadecimal digits, as digit values, and the
    rest of the string. *)
Fixpoint spanHex (s : string) : list Z * string :=
  match s with
  | EmptyString => ([], s)
  | String c s' =>
      match hexVal c with
      | Some v => let '(ds, r) := spanHex s' in (v :: ds, r)
      | None => ([], s)
      end
  end.

Definition hexAcc (ds : list Z) : Z := fold_left (fun acc d => acc * 16 + d) ds 0.

(** The loop of [parseIPv6] that reads groups of hexadecimal digits
    followed by a colon. [ip] holds the bytes written so far (the index [i]
    of the source is its length) and [ellipsis] the position of [::].
    Every iteration writes two bytes, so nine rounds of fuel reach
    [i = 16]. The result is the unread rest of the string, the bytes and
    the ellipsis. *)
Fixpoint parseIPv6Loop (fuel : nat) (s : string) (ip : list Z) (ellipsis : option nat)
    : option (string * list Z * option nat) :=
  match fuel with
  | O => Some (s, ip, ellipsis)
  | S fuel' =>
      if (16 <=? length ip)%nat then Some (s, ip, ellipsis)
      else
        let '(ds, rest) := spanHex s in
        if (4 <? length ds)%nat then None
        else if (length ds =? 0)%nat then None
        else
          let dot := match rest with
                     | String c _ => Ascii.eqb c "."
                     | EmptyString => false
                     end in
          if dot then
            if (match ellipsis with None => true | Some _ => false end)
               && negb (length ip =? 12)%nat then None
            else if (16 <? length ip + 4)%nat then None
            else match parseIPv4Fields s with
                 | None => None
                 | Some f => Some (EmptyString, ip ++ f, ellipsis)
                 end
          else
            let acc := hexAcc ds in
            let ip' := ip ++ [acc / 256; acc mod 256] in
            match rest with
            | EmptyString => Some (EmptyString, ip', ellipsis)
            | String c r1 =>
                if negb (Ascii.eqb c ":") then None
                else match r1 with
                     | EmptyString => None
                     | String c1 r2 =>
                         if Ascii.eqb c1 ":" then
                           match ellipsis with
                           | Some _ => None
                           | None =>
                               match r2 with
                               | EmptyString =>
                                   Some (EmptyString, ip', Some (length ip'))
                               | _ => parseIPv6Loop fuel' r2 ip' (Some (length ip'))
                               end
                           end
                         else parseIPv6Loop fuel' r1 ip' ellipsis
                     end
            end
  end.

Definition parseIPv6 (input : string) : option Addr :=
  let split :=
    match IndexByte input "%" with
    | Some i =>
        let z := dropS (S i) input in
        if (String.length z =? 0)%nat then None else Some (takeS i input, z)
    | None => Some (input, EmptyString)
    end in
  match split with
  | None => None
  | Some (s, zone) =>
      let lead := String.prefix "::" s in
      let s1 := if lead then dropS 2 s else s in
      let ellipsis := if lead then Some O else None in
      if lead && (String.length s1 =? 0)%nat then Some (mkAddr (replicate 16 0) false zone)
      else
        match parseIPv6Loop 9 s1 [] ellipsis with
        | None => None
        | Some (rest, ip, ell) =>
            if negb (String.length rest =? 0)%nat then None
            else if (length ip <? 16)%nat then
              match ell with
              | None => None
              | Some e =>
                  Some (mkAddr (take e ip ++ replicate (16 - length ip) 0 ++ drop e ip)
                               false zone)
              end
            else match ell with
                 | Some _ => None
                 | None => Some (mkAddr ip false zone)
                 end
        end
  end.

(** [netip.ParseAddr]: the first of ['.'], [':'] and ['%'] in the string
    decides the parser. *)
Fixpoint parseAddrScan (whole s : string) : option Addr :=
  match s with
  | EmptyString => None
  | String c s' =>
      if Ascii.eqb c "." then parseIPv4 whole
      else if Ascii.eqb c ":" then parseIPv6 whole
      else if Ascii.eqb c "%" then None
      else parseAddrScan whole s'
  end.

Definition ParseAddr (s : string) : option Addr := parseAddrScan s s.

(** [net.ParseIP]: the sixteen-byte form of the address, or [nil] when the
    text is no address or carries a zone. *)
Definition ParseIP (s : string) : option IP :=
  match ParseAddr s with
  | Some a => if (String.length (zone a) =? 0)%nat then Some (as16 a) else None
  | None => None
  end.

Definition isZeros (p : list Z) : bool := forallb (fun b => b =? 0) p.
Definition allFF (p : list Z) : bool := forallb (fun b => b =? 255) p.

(** [IP.To4]. *)
Definition To4 (ip : IP) : option IP :=
  if (length ip =? IPv4len)%nat then Some ip
  else if (length ip =? IPv6len)%nat && isZeros (take 10 ip)
          && (nth 10 ip 0 =? 255) && (nth 11 ip 0 =? 255)
       then Some (drop 12 ip)
       else None.

Fixpoint andBytes (a b : list Z) : list Z :=
  match a, b with
  | x :: a', y :: b' => Z.land x y :: andBytes a' b'
  | _, _ => []
  end.

Definition eqBytes (a b : list Z) : bool :=
  (length a =? length b)%nat && forallb (fun p => fst p =? snd p) (combine a b).

(** [IP.Mask]. *)
Definition Mask (ip : IP) (mask : IPMask) : option IP :=
  let mask1 := if (length mask =? IPv6len)%nat && (length ip =? IPv4len)%nat
                  && allFF (take 12 mask)
               then drop 12 mask else mask in
  let ip1 := if (length mask1 =? IPv4len)%nat && (length ip =? IPv6len)%nat
                && eqBytes (take 12 ip) v4InV6Prefix
             then drop 12 ip else ip in
  if negb (length ip1 =? length mask1)%nat then None
  else Some (andBytes ip1 mask1).

(** The loop of [net.CIDRMask] over the [l] bytes of the mask, [n] being
    the number of ones still to write. *)
Fixpoint cidrMaskLoop (l : nat) (n : Z) : list Z :=
  match l with
  | O => []
  | S l' =>
      if 8 <=? n then 255 :: cidrMaskLoop l' (n - 8)
      else (255 - Z.shiftr 255 n) :: cidrMaskLoop l' 0
  end.

Definition CIDRMask (ones bits : Z) : option IPMask :=
  if negb (bits =? 32) && negb (bits =? 128) then None
  else if (ones <? 0) || (bits <? ones) then None
  else Some (cidrMaskLoop (Z.to_nat (bits / 8)) ones).

(** [dtoi]: the decimal number at the start of [s], the count of its
    digits, and whether there was one below [0xFFFFFF]. *)
Fixpoint dtoiLoop (s : string) (n : Z) (i : nat) : Z * nat * bool :=
  match s with
  | String c s' =>
      if isDigit c then
        let n' := n * 10 + (byteOf c - 48) in
        if 16777215 <=? n' then (16777215, i, false)
        else dtoiLoop s' n' (S i)
      else if (i =? 0)%nat then (0, O, false) else (n, i, true)
  | EmptyString => if (i =? 0)%nat then (0, O, false) else (n, i, true)
  end.

Definition dtoi (s : string) : Z * nat * bool := dtoiLoop s 0 O.

(** [net.ParseCIDR], reduced to the network it returns. *)
Definition ParseCIDR (s : string) : option IPNet :=
  match IndexByte s "/" with
  | None => None
  | Some k =>
      let addr := takeS k s in
      let mask := dropS (S k) s in
      match ParseAddr addr with
      | None => None
      | Some a =>
          if negb (String.length (zone a) =? 0)%nat then None
          else
            let '(n, i, ok) := dtoi mask in
            if negb ok || negb (i =? String.length mask)%nat || (n <? 0) || (BitLen a <? n)
            then None
            else match CIDRMask n (BitLen a) with
                 | None => None
                 | Some m =>
                     match Mask (as16 a) m with
                     | None => None
                     | Some net => Some (mkIPNet net m)
                     end
                 end
      end
  end.

(** [networkNumberAndMask]; [None] is the pair of [nil]s. *)
Definition networkNumberAndMask (n : IPNet) : option (IP * IPMask) :=
  let ipo := match To4 (ipnIP n) with
             | Some ip => Some ip
             | None => if negb (length (ipnIP n) =? IPv6len)%nat then None
                       else Some (ipnIP n)
             end in
  match ipo with
  | None => None
  | Some ip =>
      let m := ipnMask n in
      if (length m =? IPv4len)%nat then
        if negb (length ip =? IPv4len)%nat then None else Some (ip, m)
      else if (length m =? IPv6len)%nat then
        if (length ip =? IPv4len)%nat then Some (ip, drop 12 m) else Some (ip, m)
      else None
  end.

(** The method [Contains] of [IPNet]. *)
Definition Contains (n : IPNet) (ip : IP) : bool :=
  let ip1 := match To4 ip with Some x => x | None => ip end in
  match networkNumberAndMask n with
  | None => (length ip1 =? 0)%nat
  | Some (nn, m) =>
      if negb (length ip1 =? length nn)%nat then false
      else eqBytes (andBytes nn m) (andBytes ip1 m)
  end.

(** Decimal text of a byte and lower-case hexadecimal text of a 16-bit
    group, both without leading zeros. *)
Definition digitChar (d : Z) : ascii := chr (48 + d).
Definition hexChar (d : Z) : ascii := if d <? 10 then chr (48 + d) else chr (87 + d).

Definition str1 (c : ascii) : string := String c EmptyString.

Definition decByte (n : Z) : string :=
  if n <? 10 then str1 (digitChar n)
  else if n <? 100 then String (digitChar (n / 10)) (str1 (digitChar (n mod 10)))
  else String (digitChar (n / 100))
         (String (digitChar ((n / 10) mod 10)) (str1 (digitChar (n mod 10)))).

Definition appendHex (x : Z) : string :=
  if x <? 16 then str1 (hexChar x)
  else if x <? 256 then String (hexChar (x / 16)) (str1 (hexChar (x mod 16)))
  else if x <? 4096 then
    String (hexChar (x / 256))
      (String (hexChar ((x / 16) mod 16)) (str1 (hexChar (x mod 16))))
  else
    String (hexChar (x / 4096))
      (String (hexChar ((x / 256) mod 16))
         (String (hexChar ((x / 16) mod 16)) (str1 (hexChar (x mod 16))))).

Definition string4 (p4 : list Z) : string :=
  decByte (nth 0 p4 0) +:+ "." +:+ decByte (nth 1 p4 0) +:+ "."
  +:+ decByte (nth 2 p4 0) +:+ "." +:+ decByte (nth 3 p4 0).

(** The eight 16-bit groups of a sixteen-byte address. *)
Fixpoint v6u16 (ip : list Z) : list Z :=
  match ip with
  | hi :: lo :: rest => (hi * 256 + lo) :: v6u16 rest
  | _ => []
  end.

Fixpoint zeroRun (g : list Z) : nat :=
  match g with
  | x :: t => if x =? 0 then S (zeroRun t) else O
  | [] => O
  end.

(** The first loop of [appendTo6]: the start and the length of the first
    longest run of at least two zero groups; [(255, 0)] when there is none. *)
Fixpoint longestZeroRun (g : list Z) (i : nat) (best : nat * nat) : nat * nat :=
  match g with
  | [] => best
  | _ :: t =>
      let l := zeroRun g in
      let best' := if (2 <=? l)%nat && (snd best <? l)%nat then (i, l) else best in
      longestZeroRun t (S i) best'
  end.

(** The second loop of [appendTo6], from group [i] on. *)
Fixpoint appendGroups (fuel : nat) (g : list Z) (i zeroStart zeroEnd : nat) : string :=
  match fuel with
  | O => EmptyString
  | S fuel' =>
      if (8 <=? i)%nat then EmptyString
      else if (i =? zeroStart)%nat then
        "::" +:+ (if (8 <=? zeroEnd)%nat then EmptyString
                  else appendHex (nth zeroEnd g 0)
                       +:+ appendGroups fuel' g (S zeroEnd) zeroStart zeroEnd)
      else
        (if (0 <? i)%nat then ":" else EmptyString)
        +:+ appendHex (nth i g 0) +:+ appendGroups fuel' g (S i) zeroStart zeroEnd
  end.

Definition string6 (ip : list Z) : string :=
  let g := v6u16 ip in
  let '(zs, l) := longestZeroRun g O (255%nat, O) in
  appendGroups 8 g O zs (zs + l)%nat.

Definition hexString (b : list Z) : string :=
  fold_right (fun x acc => String (hexChar (x / 16)) (String (hexChar (x mod 16)) acc))
    EmptyString b.

(** The method [String] of [net.IP]. *)
Definition String (ip : IP) : string :=
  if (length ip =? 0)%nat then "<nil>"
  else if negb (length ip =? IPv4len)%nat && negb (length ip =? IPv6len)%nat
       then "?" +:+ hexString ip
       else match To4 ip with
            | Some p4 => string4 p4
            | None => string6 ip
            end.

(** [net.SplitHostPort], reduced to the host and the port; [None] is an
    error. *)
Definition SplitHostPort (hostport : string) : option (string * string) :=
  match LastIndexByte hostport ":" with
  | None => None
  | Some i =>
      if String.prefix "[" hostport then
        match IndexByte hostport "]" with
        | None => None
        | Some e =>
            if (S e =? String.length hostport)%nat then None
            else if (S e =? i)%nat then
              let host := takeS (e - 1) (dropS 1 hostport) in
              if bool_decide (is_Some (IndexByte (dropS 1 hostport) "[")) then None
              else if bool_decide (is_Some (IndexByte (dropS (S e) hostport) "]")) then None
              else Some (host, dropS (S i) hostport)
            else None
        end
      else
        let host := takeS i hostport in
        if bool_decide (is_Some (IndexByte host ":")) then None
        else if bool_decide (is_Some (IndexByte hostport "[")) then None
        else if bool_decide (is_Some (IndexByte hostport "]")) then None
        else Some (host, dropS (S i) hostport)
  end.

End GoNet.

(** ** Package [net/http]: request headers *)

Module GoHttp.

(** [http.Header] is a [map[string][]string]. *)
Record Request := mkRequest {
  RemoteAddr : string;
  Header : gmap string (list string)
}.

Definition isAlpha (n : Z) : bool :=
  ((65 <=? n) && (n <=? 90)) || ((97 <=? n) && (n <=? 122)).

(** [validHeaderFieldByte]: the token characters of RFC 7230. *)
Definition validHeaderFieldByte (c : ascii) : bool :=
  let n := byteOf c in
  isAlpha n || ((48 <=? n) && (n <=? 57))
  || existsb (Z.eqb n) [33; 35; 36; 37; 38; 39; 42; 43; 45; 46; 94; 95; 96; 124; 126].

Fixpoint allValid (s : string) : bool :=
  match s with
  | EmptyString => true
  | String c s' => validHeaderFieldByte c && allValid s'
  end.

Fixpoint canonicalLoop (s : string) (upper : bool) : string :=
  match s with
  | EmptyString => EmptyString
  | String c s' =>
      let n := byteOf c in
      let c' := if upper && (97 <=? n) && (n <=? 122) then chr (n - 32)
                else if negb upper && (65 <=? n) && (n <=? 90) then chr (n + 32)
                else c in
      String c' (canonicalLoop s' (Ascii.eqb c' "-"))
  end.

(** [textproto.CanonicalMIMEHeaderKey]: a key with a byte that is no token
    character is returned unchanged. *)
Definition CanonicalMIMEHeaderKey (s : string) : string :=
  if allValid s then canonicalLoop s true else s.

(** The method [Get] of [http.Header]: the first value of the canonical
    key, or the empty string. *)
Definition Get (h : gmap string (list string)) (key : string) : string :=
  match h !! CanonicalMIMEHeaderKey key with
  | Some (v :: _) => v
  | _ => EmptyString
  end.

End GoHttp.

(** ** Memory: string slices, the process-wide variables, the environment *)

(** A [[]string] is a reference to a backing array on the heap together with
    its length; two slices with the same array share its elements. *)
Definition loc := nat.

Inductive Slice :=
| NilSlice
| SliceAt (ptr : loc) (len : nat).

Definition sliceLen (s : Slice) : nat :=
  match s with
  | NilSlice => O
  | SliceAt _ n => n
  end.

Definition readSlice (h : gmap loc (list string)) (s : Slice) : list string :=
  match s with
  | NilSlice => []
  | SliceAt p n => take n (default [] (h !! p))
  end.

(** Allocation of a new backing array holding [elems]; the slice covers
    all of it. *)
Definition allocSlice (h : gmap loc (list string)) (elems : list string)
    : Slice * gmap loc (list string) :=
  let p := fresh (dom h) in (SliceAt p (length elems), <[p := elems]> h).

(** A write through slice [s]: the caller may replace the elements of the
    backing array of [s] by any others. A write through the [nil] slice
    changes nothing. *)
Definition writeThrough (h : gmap loc (list string)) (s : Slice) (elems : list string)
    : gmap loc (list string) :=
  match s with
  | NilSlice => h
  | SliceAt p _ => <[p := elems]> h
  end.

(** The package-level variables [trustedProxyCIDRs], [trustedProxyOnce]
    (whether the [sync.Once] has run) and [trustedProxyList], with the heap
    of string arrays and the lines handed to [SysLog]. The [*net.IPNet]
    values are reachable from [trustedProxyCIDRs] only and are kept by value. *)
Record Proc := mkProc {
  heap : gmap loc (list string);
  trustedProxyCIDRs : list GoNet.IPNet;
  trustedProxyOnce : bool;
  trustedProxyList : Slice;
  sysLog : list string
}.

Definition initialProc : Proc := mkProc ∅ [] false NilSlice [].

(** [os.Getenv]. *)
Definition Getenv (env : gmap string string) (key : string) : string :=
  default EmptyString (env !! key).

(** ** Package [gin]: the request context *)

Module Gin.

(** A value of type [any] stored under a key: a string, or a value of
    another dynamic type. *)
Inductive any :=
| AnyString (s : string)
| AnyOther (tag : nat).

(** [gin.Context]: the request pointer (possibly [nil]) and the [Keys] map. *)
Record Context := mkContext {
  ctxRequest : option GoHttp.Request;
  Keys : gmap string any
}.

(** The methods [Get] and [Set] of [gin.Context]. *)
Definition Get (c : Context) (key : string) : option any := Keys c !! key.

Definition Set_ (c : Context) (key : string) (v : any) : Context :=
  mkContext (ctxRequest c) (<[key := v]> (Keys c)).

End Gin.

(** ** Package [common]: the resolver *)

Definition realClientIPKey : string := "real_client_ip".

Definition defaultProxies : list string := ["0.0.0.0/0"; "::/0"]%string.

(** The calls the body of [RealClientIP] makes, in order. *)
Inductive Call :=
| CallGet
| CallRealClientIPFromRequest
| CallSet (ip : string)
| CallClientIP.

(** The test [s == ""]. *)
Definition isEmpty (s : string) : bool := (String.length s =? 0)%nat.

Definition parseRemoteIP (remoteAddr : string) : option GoNet.IP :=
  let host := match GoNet.SplitHostPort (GoStrings.TrimSpace remoteAddr) with
              | Some (h, _) => h
              | None => GoStrings.TrimSpace remoteAddr
              end in
  if isEmpty host then None else GoNet.ParseIP host.

(** The loop of [splitProxyList] over the parts. *)
Fixpoint splitProxyLoop (parts : list string) : list string :=
  match parts with
  | [] => []
  | part :: rest =>
      let v := GoStrings.TrimSpace part in
      if negb (isEmpty v) then v :: splitProxyLoop rest else splitProxyLoop rest
  end.

Definition splitProxyList (raw : string) : list string :=
  let splitFunc := fun r : ascii => Ascii.eqb r "," || Ascii.eqb r ";" in
  let parts := GoStrings.FieldsFunc raw splitFunc in
  splitProxyLoop parts.

(** One round of the loop of [parseProxyCIDRs]: the network of [proxy], or
    the line logged for it. *)
Definition parseProxy (proxy : string) : GoNet.IPNet + string :=
  let po :=
    if negb (GoStrings.Contains proxy "/") then
      match GoNet.ParseIP proxy with
      | None => None
      | Some ip =>
          match GoNet.To4 ip with
          | Some _ => Some (proxy +:+ "/32")
          | None => Some (proxy +:+ "/128")
          end
      end
    else Some proxy in
  match po with
  | None => inr ("invalid trusted proxy ip: " +:+ proxy)
  | Some p =>
      match GoNet.ParseCIDR p with
      | None =>
          inr ("invalid trusted proxy cidr: " +:+ proxy +:+ ", err: "
               +:+ "invalid CIDR address: " +:+ p)
      | Some cidr => inl cidr
      end
  end.

(** [parseProxyCIDRs]: the networks, and the lines logged. *)
Fixpoint parseProxyCIDRs (l : list string) : list GoNet.IPNet * list string :=
  match l with
  | [] => ([], [])
  | proxy :: rest =>
      let '(cidrs, lg) := parseProxyCIDRs rest in
      match parseProxy proxy with
      | inl cidr => (cidr :: cidrs, lg)
      | inr line => (cidrs, line :: lg)
      end
  end.

(** [loadTrustedProxies]: the body runs once per process. The result of
    [splitProxyList] and each slice literal is a new array. *)
Definition loadTrustedProxies (env : gmap string string) (p : Proc) : Proc :=
  if trustedProxyOnce p then p
  else
    let proxiesEnv := Getenv env "TRUSTED_PROXIES" in
    let '(l1, h1) := allocSlice (heap p) (splitProxyList proxiesEnv) in
    let '(l2, h2) := if (sliceLen l1 =? 0)%nat then allocSlice h1 defaultProxies
                     else (l1, h1) in
    let '(c2, lg2) := parseProxyCIDRs (readSlice h2 l2) in
    if (length c2 =? 0)%nat then
      let '(l3, h3) := allocSlice h2 defaultProxies in
      let '(c3, lg3) := parseProxyCIDRs (readSlice h3 l3) in
      mkProc h3 c3 true l3 (sysLog p ++ lg2 ++ lg3)
    else mkProc h2 c2 true l2 (sysLog p ++ lg2).

Definition isTrustedProxyIP (env : gmap string string) (ip : GoNet.IP) (p : Proc)
    : bool * Proc :=
  let p' := loadTrustedProxies env p in
  (existsb (fun cidr => GoNet.Contains cidr ip) (trustedProxyCIDRs p'), p').

(** [TrustedProxies]: [append([]string(nil), trustedProxyList...)] copies
    the elements into a new array, and is [nil] when there are none. *)
Definition TrustedProxies (env : gmap string string) (p : Proc) : Slice * Proc :=
  let p1 := loadTrustedProxies env p in
  let elems := readSlice (heap p1) (trustedProxyList p1) in
  if (length elems =? 0)%nat then (NilSlice, p1)
  else
    let '(s, h) := allocSlice (heap p1) elems in
    (s, mkProc h (trustedProxyCIDRs p1) (trustedProxyOnce p1) (trustedProxyList p1)
          (sysLog p1)).

Definition forwardedHeaders : list string :=
  ["X-Forwarded-For"; "X-Real-IP"; "CF-Connecting-IP"]%string.

Section Resolver.

(** [IsPrivateIP] is defined elsewhere in package [common]; the resolver
    is parametric in it. *)
Variable IsPrivateIP : GoNet.IP -> bool.

(** [c.ClientIP()], the accessor of the framework. *)
Variable ClientIP : Gin.Context -> string.

(** The loop of [pickForwardedIP] over the parts of the header value. *)
Fixpoint pickLoop (parts : list string) (firstValid : string) : string :=
  match parts with
  | [] => firstValid
  | part :: rest =>
      let ipStr := GoStrings.TrimSpace part in
      if isEmpty ipStr then pickLoop rest firstValid
      else match GoNet.ParseIP ipStr with
           | None => pickLoop rest firstValid
           | Some ip =>
               let firstValid' := if isEmpty firstValid then ipStr else firstValid in
               if negb (IsPrivateIP ip) then ipStr
               else pickLoop rest firstValid'
           end
  end.

Definition pickForwardedIP (headerVal : string) : string :=
  if isEmpty headerVal then EmptyString
  else pickLoop (GoStrings.Split headerVal ",") EmptyString.

(** The loop of [RealClientIPFromRequest] over the header names: the first
    non-empty candidate, if any. *)
Fixpoint headerLoop (h : gmap string (list string)) (names : list string)
    : option string :=
  match names with
  | [] => None
  | header :: rest =>
      let ip := pickForwardedIP (GoHttp.Get h header) in
      if negb (isEmpty ip) then Some ip else headerLoop h rest
  end.

Definition RealClientIPFromRequest (env : gmap string string)
    (req : option GoHttp.Request) (p : Proc) : string * Proc :=
  match req with
  | None => (EmptyString, p)
  | Some r =>
      match parseRemoteIP (GoHttp.RemoteAddr r) with
      | Some remoteIP =>
          let '(trusted, p1) := isTrustedProxyIP env remoteIP p in
          if trusted then
            match headerLoop (GoHttp.Header r) forwardedHeaders with
            | Some ip => (ip, p1)
            | None => (GoNet.String remoteIP, p1)
            end
          else (GoNet.String remoteIP, p1)
      | None => (EmptyString, p)
      end
  end.

(** The result of [RealClientIP]: the string returned, the context and
    the process state after the call, and the calls made. *)
Record Outcome := mkOutcome {
  outIP : string;
  outCtx : Gin.Context;
  outProc : Proc;
  outCalls : list Call
}.

Definition RealClientIP (env : gmap string string) (c : Gin.Context) (p : Proc)
    : Outcome :=
  let cachedIP := match Gin.Get c realClientIPKey with
                  | Some (Gin.AnyString ip) => if negb (isEmpty ip) then Some ip else None
                  | _ => None
                  end in
  match cachedIP with
  | Some ip => mkOutcome ip c p [CallGet]
  | None =>
      let '(ip, p1) := RealClientIPFromRequest env (Gin.ctxRequest c) p in
      if negb (isEmpty ip) then
        mkOutcome ip (Gin.Set_ c realClientIPKey (Gin.AnyString ip)) p1
          [CallGet; CallRealClientIPFromRequest; CallSet ip]
      else mkOutcome (ClientIP c) c p1 [CallGet; CallRealClientIPFromRequest; CallClientIP]
  end.

End Resolver.

(** ** Instances used by the examples *)

(** Modelled from the spec: [IsPrivateIP] of package [common] is not among
    the sources. The spec calls an address private or reserved when it falls
    within a standard non-routable block: the RFC 1918 ranges, loopback and
    link-local. *)
Definition privateNets : list GoNet.IPNet :=
  [ GoNet.mkIPNet [10; 0; 0; 0] [255; 0; 0; 0];
    GoNet.mkIPNet [172; 16; 0; 0] [255; 240; 0; 0];
    GoNet.mkIPNet [192; 168; 0; 0] [255; 255; 0; 0];
    GoNet.mkIPNet [127; 0; 0; 0] [255; 0; 0; 0];
    GoNet.mkIPNet [169; 254; 0; 0] [255; 255; 0; 0];
    GoNet.mkIPNet [0;0;0;0;0;0;0;0;0;0;0;0;0;0;0;1] (replicate 16 255);
    GoNet.mkIPNet [254;128;0;0;0;0;0;0;0;0;0;0;0;0;0;0] ([255; 192] ++ replicate 14 0) ].

Definition IsPrivateIP_std (ip : GoNet.IP) : bool :=
  existsb (fun n => GoNet.Contains n ip) privateNets.

(** The accessor of the framework when it is set to ignore forwarded
    headers: the host of the remote address, if it is an IP. *)
Definition directClientIP (c : Gin.Context) : string :=
  match Gin.ctxRequest c with
  | None => EmptyString
  | Some r =>
      match GoNet.SplitHostPort (GoStrings.TrimSpace (GoHttp.RemoteAddr r)) with
      | None => EmptyString
      | Some (h, _) =>
          match GoNet.ParseIP h with
          | None => EmptyString
          | Some ip => GoNet.String ip
          end
      end
  end.

Definition envOf (v : string) : gmap string string := {[ "TRUSTED_PROXIES"%string := v ]}.

Definition headersOf (xff xri cf : string) : gmap string (list string) :=
  {[ "X-Forwarded-For"%string := [xff]; "X-Real-Ip"%string := [xri];
     "Cf-Connecting-Ip"%string := [cf] ]}.

(** ** Specification-level notions *)

(** The entries of a header value: the parts between commas, trimmed. *)
Definition entries (headerVal : string) : list string :=
  map GoStrings.TrimSpace (GoStrings.Split headerVal ",").

Definition parsesAsIP (e : string) : bool :=
  match GoNet.ParseIP e with
  | Some _ => true
  | None => false
  end.

Definition isPublicEntry (IsPrivateIP : GoNet.IP -> bool) (e : string) : bool :=
  match GoNet.ParseIP e with
  | Some ip => negb (IsPrivateIP ip)
  | None => false
  end.

(** The candidate as the specification words it: the first public entry,
    else the first entry that parses, else nothing. *)
Definition candidateSpec (IsPrivateIP : GoNet.IP -> bool) (headerVal : string) : string :=
  match List.find (isPublicEntry IsPrivateIP) (entries headerVal) with
  | Some e => e
  | None =>
      match List.find parsesAsIP (entries headerVal) with
      | Some e => e
      | None => EmptyString
      end
  end.

(** An address as the resolver meets it: four or sixteen bytes. *)
Definition validIP (ip : GoNet.IP) : Prop :=
  (length ip = 4%nat \/ length ip = 16%nat) /\ Forall (fun b => 0 <= b <= 255) ip.

(** The host part of a transport address, as [parseRemoteIP] takes it: the
    host of [host:port], or the whole trimmed address when it is not of
    that form. *)
Definition hostPart (remoteAddr : string) : string :=
  match GoNet.SplitHostPort (GoStrings.TrimSpace remoteAddr) with
  | Some (h, _) => h
  | None => GoStrings.TrimSpace remoteAddr
  end.

(** The trust set in force once the configuration has been loaded. *)
Definition trustSet (env : gmap string string) (p : Proc) : list GoNet.IPNet :=
  trustedProxyCIDRs (loadTrustedProxies env p).

(** A token that parses neither as an IP nor as a CIDR. *)
Definition unparseable (t : string) : Prop :=
  GoNet.ParseIP t = None /\ GoNet.ParseCIDR t = None.

Definition parseable (t : string) : Prop :=
  GoNet.ParseIP t <> None \/ GoNet.ParseCIDR t <> None.

(** The tokens of the configuration in the environment. *)
Definition configTokens (env : gmap string string) : list string :=
  splitProxyList (Getenv env "TRUSTED_PROXIES").

(** The process state is well formed when a loaded raw list lives on the
    heap. Every state reached from [initialProc] is. *)
Definition wfProc (p : Proc) : Prop :=
  trustedProxyOnce p = true ->
  match trustedProxyList p with
  | NilSlice => True
  | SliceAt l _ => l ∈ dom (heap p)
  end.

(** The caller of [TrustedProxies] writes [elems] through the slice [s] it
    was handed. *)
Definition callerWrites (p : Proc) (s : Slice) (elems : list string) : Proc :=
  mkProc (writeThrough (heap p) s elems) (trustedProxyCIDRs p) (trustedProxyOnce p)
    (trustedProxyList p) (sysLog p).

Definition byteRange (b : Z) : Prop := 0 <= b <= 255.

(** *** Address ranges, as numbers *)

(** The number a byte sequence denotes, most significant byte first. *)
Fixpoint beVal (bs : list Z) : Z :=
  match bs with
  | [] => 0
  | b :: rest => b * 256 ^ Z.of_nat (length rest) + beVal rest
  end.

(** The bytes of a parsed address in its own family: four for an address
    written as IPv4, sixteen otherwise. *)
Definition familyBytes (a : GoNet.Addr) : list Z :=
  if GoNet.is4 a then drop 12 (GoNet.as16 a) else GoNet.as16 a.

Definition familyLen (a : GoNet.Addr) : nat := if GoNet.is4 a then 4%nat else 16%nat.

(** A range of addresses of one family: all addresses from [rangeLo] to
    [rangeHi]. *)
Record Range := mkRange { rangeV4 : bool; rangeLo : Z; rangeHi : Z }.

(** The range of the CIDR with address [a] and prefix length [n]: the
    addresses that agree with [a] on the first [n] bits. *)
Definition cidrRange (a : GoNet.Addr) (n : Z) : Range :=
  let v := beVal (familyBytes a) in
  let size := 2 ^ (GoNet.BitLen a - n) in
  mkRange (GoNet.is4 a) (v - v mod size) (v - v mod size + size - 1).

(** The range a configuration token stands for, in the words of the
    specification: a CIDR when it contains a prefix-length separator,
    otherwise the single IP widened to /32 (IPv4) or /128 (IPv6). *)
Definition tokenRange (tok : string) : option Range :=
  if GoStrings.Contains tok "/" then
    match GoStrings.IndexByte tok "/" with
    | None => None
    | Some k =>
        match GoNet.ParseAddr (GoStrings.takeS k tok) with
        | None => None
        | Some a =>
            let mask := GoStrings.dropS (S k) tok in
            let '(n, i, ok) := GoNet.dtoi mask in
            if isEmpty (GoNet.zone a) && ok && (i =? String.length mask)%nat
               && (n <=? GoNet.BitLen a)
            then Some (cidrRange a n) else None
        end
    end
  else
    match GoNet.ParseIP tok with
    | None => None
    | Some ip =>
        match GoNet.To4 ip with
        | Some ip4 => Some (mkRange true (beVal ip4) (beVal ip4))
        | None => Some (mkRange false (beVal ip) (beVal ip))
        end
    end.

(** Whether an address is IPv4 for the library (four bytes, or sixteen
    with the IPv4-in-IPv6 prefix), and its number: of 32 bits when it is
    IPv4, of 128 bits as a sixteen-byte address. *)
Definition addrIsV4 (ip : GoNet.IP) : bool :=
  match GoNet.To4 ip with
  | Some _ => true
  | None => false
  end.

Definition val128 (ip : GoNet.IP) : Z :=
  if (length ip =? 4)%nat then beVal (GoNet.v4InV6Prefix ++ ip) else beVal ip.

(** An address lies inside a range: an IPv4 range holds IPv4 addresses by
    their 32-bit number, an IPv6 range holds addresses by their 128-bit
    number. *)
Definition inside (r : Range) (ip : GoNet.IP) : Prop :=
  if rangeV4 r then
    match GoNet.To4 ip with
    | Some x => rangeLo r <= beVal x <= rangeHi r
    | None => False
    end
  else rangeLo r <= val128 ip <= rangeHi r.

(** A token whose text has the family the library gives its address: every
    CIDR, and every single IP but an IPv4-mapped IPv6 literal. *)
Definition plainToken (tok : string) : Prop :=
  GoStrings.Contains tok "/" = true
  \/ forall a, GoNet.ParseAddr tok = Some a -> GoNet.is4 a = addrIsV4 (GoNet.as16 a).

Definition parseableb (t : string) : bool :=
  match GoNet.ParseIP t, GoNet.ParseCIDR t with
  | None, None => false
  | _, _ => true
  end.

(** The number of an address in its own family. *)
Definition addrVal (ip : GoNet.IP) : Z :=
  match GoNet.To4 ip with
  | Some x => beVal x
  | None => beVal ip
  end.

(** A request from 203.0.113.7 with the given X-Forwarded-For, and a fresh
    context for it. *)
Definition exampleRequest (xff : string) : GoHttp.Request :=
  GoHttp.mkRequest "203.0.113.7:4711" (headersOf xff "" "").

Definition exampleContext (xff : string) : Gin.Context :=
  Gin.mkContext (Some (exampleRequest xff)) ∅.

(** The text of octets each followed by a dot, and of octets separated by
    dots. *)
Fixpoint octetsText (fields : list Z) : string :=
  match fields with
  | [] => EmptyString
  | f :: rest => GoNet.decByte f +:+ "." +:+ octetsText rest
  end.

Fixpoint dottedText (fields : list Z) : string :=
  match fields with
  | [] => EmptyString
  | [f] => GoNet.decByte f
  | f :: rest => GoNet.decByte f +:+ "." +:+ dottedText rest
  end.

(** ** Package [encoding/hex] *)

Module GoHex.

Definition hextable : string := "0123456789abcdef".

(** [hextable[d]], for [d] below sixteen. *)
Definition hexDigit (d : Z) : ascii :=
  default "0"%char (String.get (Z.to_nat d) hextable).

(** [hex.EncodeToString]: two digits per byte, [hextable[v>>4]] and
    [hextable[v&0x0f]]. *)
Fixpoint EncodeToString (src : list Z) : string :=
  match src with
  | [] => EmptyString
  | v :: rest =>
      String (hexDigit (Z.shiftr v 4))
        (String (hexDigit (Z.land v 15)) (EncodeToString rest))
  end.

End GoHex.

(** ** Package [relay]: the text of a body in a log line *)

Module Relay.

(** [truncateForLog]: [len(s)] and [s[:max]] count bytes. *)
Definition truncateForLog (s : string) (max : Z) : string :=
  if max <=? 0 then EmptyString
  else if Z.of_nat (String.length s) <=? max then s
  else GoStrings.takeS (Z.to_nat max) s +:+ "...(truncated)".

End Relay.

(** ** Package [model]: the secrets kept in the option table *)

Module Model.

Definition optionKeySessionSecret : string := "SessionSecret".
Definition optionKeyCryptoSecret : string := "CryptoSecret".

(** An [error], by its message. *)
Definition error := string.

(** What a statement sent to the database meets: the writes other clients
    of the database have committed since the previous statement, and the
    error the database reports for it, if any. *)
Record Step := mkStep {
  others : gmap string string -> gmap string string;
  fault : option error
}.

(** The world of [EnsurePersistentSecrets]: the table [options] (the value
    of each key; [key] is the column the conflict clauses name), the steps
    the coming statements will meet (none left: no interference and no
    error), the bytes [rand.Read] will deliver ([random i mod 256] is byte
    [i]) from position [randomPos] on, the error [rand.Read] reports if it
    fails, the variables [common.SessionSecret] and [common.CryptoSecret],
    and the lines handed to [common.SysLog]. *)
Record World := mkWorld {
  options : gmap string string;
  schedule : list Step;
  random : nat -> Z;
  randomPos : nat;
  randErr : option error;
  SessionSecret : string;
  CryptoSecret : string;
  secretsLog : list string
}.

(** Computations over the world that may return an [error]. *)
Definition M (A : Type) : Type := World -> (A + error) * World.

Definition ret {A} (a : A) : M A := fun w => (inl a, w).

Definition throw {A} (e : error) : M A := fun w => (inr e, w).

Definition bind {A B} (m : M A) (f : A -> M B) : M B :=
  fun w =>
    match m w with
    | (inl a, w') => f a w'
    | (inr e, w') => (inr e, w')
    end.

Notation "x <- m ; k" := (bind m (fun x => k))
  (at level 20, m at level 100, k at level 200, only parsing).
Notation "' pat <- m ; k" := (bind m (fun x => let 'pat := x in k))
  (at level 20, pat pattern, m at level 100, k at level 200, only parsing).

Definition withOptions (t : gmap string string) (sch : list Step) (w : World) : World :=
  mkWorld t sch (random w) (randomPos w) (randErr w) (SessionSecret w) (CryptoSecret w)
    (secretsLog w).

(** A statement reaches the database. *)
Definition dbStatement : M unit :=
  fun w =>
    match schedule w with
    | [] => (inl tt, w)
    | st :: rest =>
        (match fault st with Some e => inr e | None => inl tt end,
         withOptions (others st (options w)) rest w)
    end.

Definition readOptions : M (gmap string string) := fun w => (inl (options w), w).

Definition writeOptions (t : gmap string string) : M unit :=
  fun w => (inl tt, withOptions t (schedule w) w).

Definition setSessionSecret (v : string) : M unit :=
  fun w => (inl tt, mkWorld (options w) (schedule w) (random w) (randomPos w) (randErr w)
                      v (CryptoSecret w) (secretsLog w)).

Definition setCryptoSecret (v : string) : M unit :=
  fun w => (inl tt, mkWorld (options w) (schedule w) (random w) (randomPos w) (randErr w)
                      (SessionSecret w) v (secretsLog w)).

(** [common.SysLog]. *)
Definition SysLog (line : string) : M unit :=
  fun w => (inl tt, mkWorld (options w) (schedule w) (random w) (randomPos w) (randErr w)
                      (SessionSecret w) (CryptoSecret w) (secretsLog w ++ [line])).

(** The bytes [rand.Read] delivers next. *)
Definition nextRandom (w : World) (n : nat) : list Z :=
  map (fun i => random w i mod 256) (seq (randomPos w) n).

(** [rand.Read] on a buffer of [n] bytes: it fills the whole buffer, or
    fails. *)
Definition randRead (n : nat) : M (list Z) :=
  fun w =>
    match randErr w with
    | Some e => (inr e, w)
    | None =>
        (inl (nextRandom w n),
         mkWorld (options w) (schedule w) (random w) (randomPos w + n)%nat (randErr w)
           (SessionSecret w) (CryptoSecret w) (secretsLog w))
    end.

(** [getOptionValue], for a key that is not empty: the row of the key, if
    there is one. The first component of the result is the value, the
    second is [found]. *)
Definition getOptionValue (key : string) : M (string * bool) :=
  'tt <- dbStatement;
  t <- readOptions;
  match t !! key with
  | Some v => ret (v, true)
  | None => ret (EmptyString, false)
  end.

(** [upsertOption]: insert, and on a conflict on [key] update the value. *)
Definition upsertOption (key value : string) : M unit :=
  'tt <- dbStatement;
  t <- readOptions;
  writeOptions (<[key := value]> t).

(** [storeSessionSecretIfAbsent]: insert, and on a conflict on [key] do
    nothing. *)
Definition storeSessionSecretIfAbsent (secret : string) : M unit :=
  'tt <- dbStatement;
  t <- readOptions;
  match t !! optionKeySessionSecret with
  | Some _ => ret tt
  | None => writeOptions (<[optionKeySessionSecret := secret]> t)
  end.

Definition generateSecretHex (byteLen : Z) : M string :=
  if byteLen <=? 0 then ret EmptyString
  else
    buf <- randRead (Z.to_nat byteLen);
    ret (GoHex.EncodeToString buf).

(** [resolveSessionSecret]: the value and its source. *)
Definition resolveSessionSecret (envValue : string) : M (string * string) :=
  if negb (isEmpty envValue) then ret (envValue, "env"%string)
  else
    '(optValue, found) <- getOptionValue optionKeySessionSecret;
    let optValue := GoStrings.TrimSpace optValue in
    if found && negb (isEmpty optValue) then ret (optValue, "db"%string)
    else
      generated <- generateSecretHex 32;
      ret (generated, "generated"%string).

Definition resolveCryptoSecret (envValue sessionSecret : string) : M string :=
  if negb (isEmpty envValue) then ret envValue
  else
    '(optValue, found) <- getOptionValue optionKeyCryptoSecret;
    let optValue := GoStrings.TrimSpace optValue in
    if found && negb (isEmpty optValue) then ret optValue
    else ret sessionSecret.

Definition EnsurePersistentSecrets (env : gmap string string) : M unit :=
  let sessionSecretFromEnv := GoStrings.TrimSpace (Getenv env "SESSION_SECRET") in
  let cryptoSecretFromEnv := GoStrings.TrimSpace (Getenv env "CRYPTO_SECRET") in
  '(sessionSecret, sessionSecretSource) <- resolveSessionSecret sessionSecretFromEnv;
  let generatedSessionSecret := String.eqb sessionSecretSource "generated" in
  '(sessionSecret, sessionSecretSource) <-
    (if generatedSessionSecret then
       'tt <- storeSessionSecretIfAbsent sessionSecret;
       '(storedValue, found) <- getOptionValue optionKeySessionSecret;
       let storedValue := GoStrings.TrimSpace storedValue in
       if found && negb (isEmpty storedValue) then ret (storedValue, "db"%string)
       else ret (sessionSecret, sessionSecretSource)
     else ret (sessionSecret, sessionSecretSource));
  'tt <- setSessionSecret sessionSecret;
  cryptoSecret <- resolveCryptoSecret cryptoSecretFromEnv sessionSecret;
  'tt <- setCryptoSecret cryptoSecret;
  'tt <- (if String.eqb sessionSecretSource "env"
          then upsertOption optionKeySessionSecret sessionSecret else ret tt);
  'tt <- (if negb (isEmpty cryptoSecretFromEnv)
          then upsertOption optionKeyCryptoSecret cryptoSecretFromEnv else ret tt);
  if String.eqb sessionSecretSource "env" then
    SysLog "SESSION_SECRET loaded from environment"
  else if String.eqb sessionSecretSource "db" then
    if generatedSessionSecret then
      SysLog "SESSION_SECRET was not set; generated and stored in database options"
    else SysLog "SESSION_SECRET loaded from database options"
  else if String.eqb sessionSecretSource "generated" then
    SysLog "SESSION_SECRET was not set; generated and stored in database options"
  else ret tt.

(** *** Notions used in the statements about the secrets *)

(** The value of an environment variable as [EnsurePersistentSecrets]
    takes it. *)
Definition envSecret (env : gmap string string) (name : string) : string :=
  GoStrings.TrimSpace (Getenv env name).

(** No statement to come meets an error of the database. *)
Definition faultFree (w : World) : Prop :=
  Forall (fun st => fault st = None) (schedule w).

(** The database is left to this process and reports no error, and the
    random source works. *)
Definition quiet (w : World) : Prop := schedule w = [] /\ randErr w = None.

(** The table as the next statement finds it. *)
Definition tableAtNextStatement (w : World) : gmap string string :=
  match schedule w with
  | [] => options w
  | st :: _ => others st (options w)
  end.

(** The world once the next statement has reached the database. *)
Definition afterStatement (w : World) : World :=
  withOptions (tableAtNextStatement w) (tail (schedule w)) w.

(** A stored value that counts as absent: no row, or a row of white space. *)
Definition blankRow (t : gmap string string) (key : string) : Prop :=
  match t !! key with
  | Some v => GoStrings.TrimSpace v = EmptyString
  | None => True
  end.

(** The process starts again: the database is as it was left, the
    variables hold what the program initialises them with, the log is
    new. *)
Definition restart (w : World) (session crypto : string) : World :=
  mkWorld (options w) (schedule w) (random w) (randomPos w) (randErr w) session crypto [].

End Model.

(** *** Bytes of a string *)

(** Every byte of [s] satisfies [f]. *)
Fixpoint allBytes (f : ascii -> bool) (s : string) : bool :=
  match s with
  | EmptyString => true
  | String c s' => f c && allBytes f s'
  end.

(** An ASCII byte that is not white space. *)
Definition plainByte (c : ascii) : bool :=
  (byteOf c <? 128) && negb (GoStrings.asciiSpace c).

(** The separators of the configuration string. *)
Definition isProxySeparator (r : ascii) : bool := Ascii.eqb r "," || Ascii.eqb r ";".

(** The line logged for a token that yields no network. *)
Definition rejectLine (t : string) : string :=
  if GoStrings.Contains t "/"
  then "invalid trusted proxy cidr: " +:+ t +:+ ", err: " +:+ "invalid CIDR address: " +:+ t
  else "invalid trusted proxy ip: " +:+ t.

(** A digit of lower-case hexadecimal text. *)
Definition lowerHexByte (c : ascii) : bool :=
  isDigit c || ((97 <=? byteOf c) && (byteOf c <=? 102)).

(** *** Worlds and environments used by the examples *)

Definition secretsEnv (session crypto : string) : gmap string string :=
  {[ "SESSION_SECRET"%string := session; "CRYPTO_SECRET"%string := crypto ]}.

(** A world with the table [t] and the steps [sch] to come, a working
    random source, and nothing logged yet. *)
Definition exampleWorld (t : gmap string string) (sch : list Model.Step) : Model.World :=
  Model.mkWorld t sch (fun i => Z.of_nat i * 37 + 11) 0 None EmptyString EmptyString [].

(** * Properties *)

(** ** Basic facts *)

Lemma isEmpty_true (s : string) : isEmpty s = true <-> s = EmptyString.
Proof.
  unfold isEmpty. destruct s; simpl; split; intros H; try done.
Qed.

Lemma isEmpty_false (s : string) : isEmpty s = false <-> s <> EmptyString.
Proof.
  rewrite <- isEmpty_true. destruct (isEmpty s); split; intros; congruence.
Qed.

Lemma loadTrustedProxies_once env p :
  trustedProxyOnce (loadTrustedProxies env p) = true.
Proof.
  unfold loadTrustedProxies.
  destruct (trustedProxyOnce p) eqn:E; [exact E|].
  repeat case_match; reflexivity.
Qed.

Lemma loadTrustedProxies_idem env env' p :
  loadTrustedProxies env' (loadTrustedProxies env p) = loadTrustedProxies env p.
Proof.
  unfold loadTrustedProxies at 1. by rewrite loadTrustedProxies_once.
Qed.

Lemma parseRemoteIP_hostPart (addr : string) :
  parseRemoteIP addr
  = if isEmpty (hostPart addr) then None else GoNet.ParseIP (hostPart addr).
Proof. reflexivity. Qed.

Lemma isTrustedProxyIP_false env ip p :
  fst (isTrustedProxyIP env ip p) = false
  <-> Forall (fun cidr => GoNet.Contains cidr ip = false) (trustSet env p).
Proof.
  unfold isTrustedProxyIP, trustSet. simpl.
  induction (trustedProxyCIDRs (loadTrustedProxies env p)) as [|c l IH]; simpl.
  - split; [constructor | done].
  - rewrite orb_false_iff, IH. split.
    + intros [? ?]. by constructor.
    + intros H. by inversion_clear H.
Qed.

Section ResolverProperties.

Variable IsPrivateIP : GoNet.IP -> bool.


(** The header loop returns the candidate of the first name, in the order
    of the list, whose header value yields one. *)
Lemma headerLoop_first h names i name :
  names !! i = Some name ->
  pickForwardedIP IsPrivateIP (GoHttp.Get h name) <> EmptyString ->
  (forall j name', (j < i)%nat -> names !! j = Some name' ->
     pickForwardedIP IsPrivateIP (GoHttp.Get h name') = EmptyString) ->
  headerLoop IsPrivateIP h names = Some (pickForwardedIP IsPrivateIP (GoHttp.Get h name)).
Proof.
  revert i. induction names as [|n names IH]; intros i Hi Hne Hbefore.
  - by rewrite lookup_nil in Hi.
  - destruct i as [|i]; simpl in *.
    + injection Hi as ->. apply isEmpty_false in Hne. by rewrite Hne.
    + rewrite (Hbefore O n); [|lia|done]. simpl.
      apply (IH i); [done..|].
      intros j name' Hj Hl. apply (Hbefore (S j)); [lia|done].
Qed.

Lemma headerLoop_none h names :
  (forall name, name ∈ names -> pickForwardedIP IsPrivateIP (GoHttp.Get h name) = EmptyString) ->
  headerLoop IsPrivateIP h names = None.
Proof.
  induction names as [|n names IH]; intros H; [done|]. simpl.
  rewrite (H n) by apply list_elem_of_here. simpl.
  apply IH. intros name Hin. apply H. by apply list_elem_of_further.
Qed.

(** A header value that is one address yields that address, whatever
    [IsPrivateIP] says of it. *)
Lemma pick_single_address : pickForwardedIP IsPrivateIP "198.51.100.9" = "198.51.100.9"%string.
Proof.
  vm_compute. by destruct (IsPrivateIP _).
Qed.

(** C10: [RealClientIPFromRequest] called with a nil request returns the
    empty string (and leaves the process state as it is); the request is
    never dereferenced. *)
Theorem nil_request_yields_empty env p :
  RealClientIPFromRequest IsPrivateIP env None p = (EmptyString, p).
Proof. reflexivity. Qed.

(** C7: when the host part of the transport address is empty or is no IP
    address, resolution yields no error: the remote IP is absent and
    [RealClientIPFromRequest] returns the empty string, whatever the
    headers and the trust configuration; the configuration is not even
    loaded. *)
Theorem malformed_remote_yields_empty env p addr h :
  hostPart addr = EmptyString \/ GoNet.ParseIP (hostPart addr) = None ->
  parseRemoteIP addr = None
  /\ RealClientIPFromRequest IsPrivateIP env (Some (GoHttp.mkRequest addr h)) p
     = (EmptyString, p).
Proof.
  intros H.
  assert (Hnone : parseRemoteIP addr = None).
  { rewrite parseRemoteIP_hostPart. destruct H as [-> | ->]; [done|].
    by destruct (isEmpty _). }
  split; [done|]. unfold RealClientIPFromRequest. simpl. by rewrite Hnone.
Qed.

(** C3: for a request with a trusted remote IP the headers are consulted
    in the order X-Forwarded-For, X-Real-IP, CF-Connecting-IP and the
    result is the candidate of the first of them that yields one (the
    remote IP when none does); with X-Forwarded-For empty and X-Real-IP
    set to 198.51.100.9 the result is 198.51.100.9. *)
Theorem trusted_remote_header_priority env p addr h ip :
  parseRemoteIP addr = Some ip ->
  fst (isTrustedProxyIP env ip p) = true ->
  let result :=
    fst (RealClientIPFromRequest IsPrivateIP env (Some (GoHttp.mkRequest addr h)) p) in
  forwardedHeaders = ["X-Forwarded-For"; "X-Real-IP"; "CF-Connecting-IP"]%string
  /\ (forall i name,
        forwardedHeaders !! i = Some name ->
        pickForwardedIP IsPrivateIP (GoHttp.Get h name) <> EmptyString ->
        (forall j name', (j < i)%nat -> forwardedHeaders !! j = Some name' ->
           pickForwardedIP IsPrivateIP (GoHttp.Get h name') = EmptyString) ->
        result = pickForwardedIP IsPrivateIP (GoHttp.Get h name))
  /\ ((forall name, name ∈ forwardedHeaders ->
         pickForwardedIP IsPrivateIP (GoHttp.Get h name) = EmptyString) ->
      result = GoNet.String ip)
  /\ (GoHttp.Get h "X-Forwarded-For" = EmptyString ->
      GoHttp.Get h "X-Real-IP" = "198.51.100.9"%string ->
      result = "198.51.100.9"%string).
Proof.
  intros Hip Htr result.
  assert (Hres : result = match headerLoop IsPrivateIP h forwardedHeaders with
                          | Some c => c
                          | None => GoNet.String ip
                          end).
  { unfold result, RealClientIPFromRequest. cbn [GoHttp.RemoteAddr GoHttp.Header].
    rewrite Hip. destruct (isTrustedProxyIP env ip p) as [t p1].
    simpl in Htr. subst t. by destruct (headerLoop _ _ _). }
  split; [reflexivity|]. split; [|split].
  - intros i name Hi Hne Hbefore.
    by rewrite Hres, (headerLoop_first h _ i name).
  - intros Hall. by rewrite Hres, headerLoop_none.
  - intros Hxff Hxri.
    rewrite Hres, (headerLoop_first h _ 1%nat "X-Real-IP"); rewrite ?Hxri.
    + apply pick_single_address.
    + reflexivity.
    + by rewrite pick_single_address.
    + intros j name' Hj Hl. assert (j = O) as -> by lia.
      injection Hl as <-. by rewrite Hxff.
Qed.

End ResolverProperties.

(** ** Candidate selection *)

Lemma find_first {A} (f : A -> bool) (pre : list A) (e : A) (post : list A) :
  Forall (fun x => f x = false) pre -> f e = true ->
  List.find f (pre ++ e :: post) = Some e.
Proof.
  induction 1 as [|x pre Hx _ IH]; intros He; simpl.
  - by rewrite He.
  - rewrite Hx. by apply IH.
Qed.

Lemma find_none_all {A} (f : A -> bool) (l : list A) :
  Forall (fun x => f x = false) l -> List.find f l = None.
Proof.
  induction 1 as [|x l Hx _ IH]; simpl; [done|]. by rewrite Hx.
Qed.

Section CandidateSelection.

Variable IsPrivateIP : GoNet.IP -> bool.


(** The loop, started with any fallback, against the two searches of the
    specification. *)
Lemma pickLoop_spec parts firstValid :
  pickLoop IsPrivateIP parts firstValid
  = match List.find (isPublicEntry IsPrivateIP) (map GoStrings.TrimSpace parts) with
    | Some e => e
    | None =>
        if isEmpty firstValid then
          match List.find parsesAsIP (map GoStrings.TrimSpace parts) with
          | Some e => e
          | None => EmptyString
          end
        else firstValid
    end.
Proof.
  revert firstValid. induction parts as [|part rest IH]; intros fv; simpl.
  - destruct (isEmpty fv) eqn:E; [|done]. by apply isEmpty_true in E.
  - unfold isPublicEntry at 1, parsesAsIP at 1.
    destruct (isEmpty (GoStrings.TrimSpace part)) eqn:Ee.
    + apply isEmpty_true in Ee. rewrite Ee. cbn. apply IH.
    + destruct (GoNet.ParseIP (GoStrings.TrimSpace part)) as [ip|]; [|apply IH].
      destruct (IsPrivateIP ip); simpl; [|done].
      rewrite IH. destruct (List.find (isPublicEntry IsPrivateIP) _); [done|].
      destruct (isEmpty fv) eqn:Ef; [by rewrite Ee | by rewrite Ef].
Qed.

(** [pickForwardedIP] computes the candidate of the specification. *)
Lemma pickForwardedIP_candidateSpec headerVal :
  pickForwardedIP IsPrivateIP headerVal = candidateSpec IsPrivateIP headerVal.
Proof.
  unfold pickForwardedIP, candidateSpec, entries.
  destruct (isEmpty headerVal) eqn:E.
  - apply isEmpty_true in E. by subst.
  - by rewrite pickLoop_spec.
Qed.

(** C2: candidate selection returns the first trimmed entry that parses as
    an IP and is not private, whatever follows that entry; when every
    entry that parses is private, the first entry that parses; when no
    entry parses, the empty string. *)
Theorem candidate_selection headerVal :
  (forall pre e post,
      entries headerVal = pre ++ e :: post ->
      isPublicEntry IsPrivateIP e = true ->
      Forall (fun x => isPublicEntry IsPrivateIP x = false) pre ->
      pickForwardedIP IsPrivateIP headerVal = e)
  /\ (Forall (fun x => isPublicEntry IsPrivateIP x = false) (entries headerVal) ->
      forall pre e post,
        entries headerVal = pre ++ e :: post ->
        parsesAsIP e = true ->
        Forall (fun x => parsesAsIP x = false) pre ->
        pickForwardedIP IsPrivateIP headerVal = e)
  /\ (Forall (fun x => parsesAsIP x = false) (entries headerVal) ->
      pickForwardedIP IsPrivateIP headerVal = EmptyString).
Proof.
  rewrite pickForwardedIP_candidateSpec. unfold candidateSpec.
  split; [|split].
  - intros pre e post -> He Hpre. by rewrite find_first.
  - intros Hall pre e post Heq He Hpre.
    rewrite find_none_all by done. rewrite Heq. by rewrite find_first.
  - intros Hall. rewrite (find_none_all parsesAsIP) by done.
    rewrite find_none_all; [done|].
    eapply Forall_impl; [exact Hall|]. intros x. unfold parsesAsIP, isPublicEntry.
    by destruct (GoNet.ParseIP x).
Qed.

End CandidateSelection.

(** ** The trust-set loader *)

Lemma readSlice_alloc h elems :
  readSlice (allocSlice h elems).2 (allocSlice h elems).1 = elems.
Proof.
  unfold allocSlice, readSlice. simpl. rewrite lookup_insert_eq. simpl.
  apply firstn_all.
Qed.

Lemma readSlice_alloc_other h elems s :
  match s with NilSlice => True | SliceAt l _ => l ∈ dom h end ->
  readSlice (allocSlice h elems).2 s = readSlice h s.
Proof.
  destruct s as [|l n]; [done|]. intros Hl. unfold allocSlice, readSlice. simpl.
  rewrite lookup_insert_ne; [done|].
  intros <-. by apply (is_fresh (dom h)).
Qed.

Lemma defaultProxies_parsed :
  parseProxyCIDRs defaultProxies
  = ([GoNet.mkIPNet [0; 0; 0; 0] [0; 0; 0; 0];
      GoNet.mkIPNet (replicate 16 0) (replicate 16 0)], []).
Proof. vm_compute. reflexivity. Qed.

(** What the first call of [loadTrustedProxies] leaves in the process
    variables: the tokens and their networks, or the permissive default when
    no token yields a network. *)
Lemma loadTrustedProxies_first env p :
  trustedProxyOnce p = false ->
  let p' := loadTrustedProxies env p in
  let raw := if (length (parseProxyCIDRs (configTokens env)).1 =? 0)%nat
             then defaultProxies else configTokens env in
  readSlice (heap p') (trustedProxyList p') = raw
  /\ trustedProxyCIDRs p' = (parseProxyCIDRs raw).1
  /\ wfProc p'.
Proof.
  intros Honce. unfold loadTrustedProxies, configTokens. rewrite Honce.
  set (tokens := splitProxyList _).
  pose proof (readSlice_alloc (heap p) tokens) as Hr1.
  destruct (allocSlice (heap p) tokens) as [l1 h1] eqn:E1. simpl in Hr1.
  assert (Hlen : sliceLen l1 = length tokens).
  { unfold allocSlice in E1. by injection E1 as <- _. }
  rewrite Hlen.
  assert (Hin : forall h e l' h', allocSlice h e = (l', h') ->
            match l' with NilSlice => True | SliceAt l _ => l ∈ dom h' end).
  { intros h e l' h' E. unfold allocSlice in E. injection E as <- <-.
    apply elem_of_dom. rewrite lookup_insert_eq. by eexists. }
  destruct tokens as [|t tokens'] eqn:Et.
  - cbn [length Nat.eqb]. pose proof (readSlice_alloc h1 defaultProxies) as Hr2.
    destruct (allocSlice h1 defaultProxies) as [l2 h2] eqn:E2. cbn [fst snd] in Hr2.
    rewrite Hr2, defaultProxies_parsed. cbn.
    split; [done|]. split; [done|]. intros _. cbn. by eapply Hin.
  - cbn [length Nat.eqb]. rewrite Hr1.
    destruct (parseProxyCIDRs (t :: tokens')) as [c2 lg2] eqn:Ep.
    cbn [fst]. destruct (length c2 =? 0)%nat eqn:Ec.
    + pose proof (readSlice_alloc h1 defaultProxies) as Hr3.
      destruct (allocSlice h1 defaultProxies) as [l3 h3] eqn:E3. cbn [fst snd] in Hr3.
      rewrite Hr3, defaultProxies_parsed. cbn.
      split; [done|]. split; [done|]. intros _. cbn. by eapply Hin.
    + cbn [heap trustedProxyList trustedProxyCIDRs]. rewrite Ep.
      split; [done|]. split; [done|]. intros _. cbn. by eapply Hin.
Qed.

Lemma loadTrustedProxies_wf env p : wfProc p -> wfProc (loadTrustedProxies env p).
Proof.
  intros Hwf. destruct (trustedProxyOnce p) eqn:E.
  - unfold loadTrustedProxies. by rewrite E.
  - by apply loadTrustedProxies_first.
Qed.

Lemma initialProc_wf : wfProc initialProc.
Proof. intros H. discriminate H. Qed.

(** [TrustedProxies] returns the elements of the raw list, in a slice of
    its own. *)
Lemma TrustedProxies_reads env p :
  wfProc p ->
  let p0 := loadTrustedProxies env p in
  let '(s, p1) := TrustedProxies env p in
  readSlice (heap p1) s = readSlice (heap p0) (trustedProxyList p0)
  /\ readSlice (heap p1) (trustedProxyList p1) = readSlice (heap p0) (trustedProxyList p0)
  /\ trustedProxyCIDRs p1 = trustedProxyCIDRs p0
  /\ trustedProxyList p1 = trustedProxyList p0
  /\ trustedProxyOnce p1 = true
  /\ wfProc p1
  /\ match s, trustedProxyList p1 with
     | SliceAt l _, SliceAt l' _ => l <> l'
     | _, _ => True
     end.
Proof.
  intros Hwf p0. pose proof (loadTrustedProxies_wf env p Hwf) as Hwf0.
  pose proof (loadTrustedProxies_once env p) as Honce.
  fold p0 in Hwf0, Honce. unfold TrustedProxies. fold p0.
  set (elems := readSlice (heap p0) (trustedProxyList p0)).
  destruct (length elems =? 0)%nat eqn:El.
  - apply Nat.eqb_eq in El. destruct elems eqn:Ee; [|done].
    repeat split; try done.
  - pose proof (readSlice_alloc (heap p0) elems) as Hr.
    pose proof (readSlice_alloc_other (heap p0) elems (trustedProxyList p0) (Hwf0 Honce)) as Hr'.
    unfold allocSlice in *. simpl in *.
    repeat split; try done.
    + intros _. simpl. specialize (Hwf0 Honce).
      destruct (trustedProxyList p0) as [|l n]; [done|].
      apply elem_of_dom. rewrite lookup_insert_ne.
      * by apply elem_of_dom.
      * intros <-. by apply (is_fresh (dom (heap p0))).
    + specialize (Hwf0 Honce). destruct (trustedProxyList p0) as [|l n]; [done|].
      intros <-. by apply (is_fresh (dom (heap p0))).
Qed.

Lemma To4_length ip x : GoNet.To4 ip = Some x -> length ip = 4%nat \/ length ip = 16%nat ->
  length x = 4%nat.
Proof.
  unfold GoNet.To4, GoNet.IPv4len, GoNet.IPv6len.
  destruct (length ip =? 4)%nat eqn:E4.
  - intros [= <-] _. by apply Nat.eqb_eq.
  - destruct (_ && _); [|done]. intros [= <-] [H|H].
    + apply Nat.eqb_neq in E4. done.
    + rewrite length_drop. lia.
Qed.

Lemma andBytes_zero_mask (x : list Z) n :
  GoNet.andBytes x (replicate n 0) = replicate (min (length x) n) 0.
Proof.
  revert n. induction x as [|b x IH]; intros [|n]; simpl; try done.
  by rewrite Z.land_0_r, IH.
Qed.

(** The two networks of the permissive default contain every address. *)
Lemma default_networks_contain_all (ip : GoNet.IP) :
  length ip = 4%nat \/ length ip = 16%nat ->
  existsb (fun cidr => GoNet.Contains cidr ip) (parseProxyCIDRs defaultProxies).1 = true.
Proof.
  intros Hlen. rewrite defaultProxies_parsed. cbn [fst existsb].
  destruct (GoNet.To4 ip) as [x|] eqn:E4.
  - apply orb_true_iff. left.
    pose proof (To4_length _ _ E4 Hlen) as Hx.
    unfold GoNet.Contains. rewrite E4. cbn.
    rewrite Hx. cbn. change [0; 0; 0; 0] with (replicate 4 0).
    rewrite andBytes_zero_mask, Hx. reflexivity.
  - apply orb_true_iff. right; apply orb_true_iff; left.
    assert (H16 : length ip = 16%nat).
    { destruct Hlen as [H|H]; [|done]. unfold GoNet.To4 in E4.
      rewrite H in E4. done. }
    unfold GoNet.Contains. rewrite E4. cbn.
    rewrite H16. cbn.
    change [0; 0; 0; 0; 0; 0; 0; 0; 0; 0; 0; 0; 0; 0; 0; 0] with (replicate 16 0).
    rewrite andBytes_zero_mask, H16. reflexivity.
Qed.

Lemma unparseable_parseProxy t : unparseable t -> exists line, parseProxy t = inr line.
Proof.
  intros [Hip Hcidr]. unfold parseProxy.
  destruct (negb (GoStrings.Contains t "/")).
  - rewrite Hip. by eexists.
  - rewrite Hcidr. by eexists.
Qed.

Lemma parseProxyCIDRs_unparseable tokens :
  Forall unparseable tokens -> (parseProxyCIDRs tokens).1 = [].
Proof.
  induction 1 as [|t tokens Ht _ IH]; [done|]. simpl.
  destruct (parseProxyCIDRs tokens) as [cs lg]. simpl in IH. subst cs.
  destruct (unparseable_parseProxy t Ht) as [line ->]. done.
Qed.

(** C4: when the configuration splits to no token, or none of its tokens
    parses as an IP or CIDR, then after initialization [TrustedProxies]
    returns exactly ["0.0.0.0/0"; "::/0"] and every IP address is trusted. *)
Theorem permissive_default env p :
  trustedProxyOnce p = false ->
  configTokens env = [] \/ Forall unparseable (configTokens env) ->
  let '(s, p1) := TrustedProxies env p in
  readSlice (heap p1) s = ["0.0.0.0/0"; "::/0"]%string
  /\ forall ip, length ip = 4%nat \/ length ip = 16%nat ->
       (isTrustedProxyIP env ip p1).1 = true.
Proof.
  intros Honce Hcfg.
  assert (Hnone : (parseProxyCIDRs (configTokens env)).1 = []).
  { destruct Hcfg as [-> | H]; [done|]. by apply parseProxyCIDRs_unparseable. }
  assert (Hwf : wfProc p) by (intros H; congruence).
  pose proof (TrustedProxies_reads env p Hwf) as Hreads.
  destruct (loadTrustedProxies_first env p Honce) as (Hraw & Hcidrs & _).
  rewrite Hnone in Hraw, Hcidrs. cbn [length Nat.eqb] in Hraw, Hcidrs.
  destruct (TrustedProxies env p) as [s p1].
  destruct Hreads as (Hs & _ & Hc & _ & Ho & _).
  split; [by rewrite Hs, Hraw|].
  intros ip Hlen. unfold isTrustedProxyIP, loadTrustedProxies. rewrite Ho.
  cbn [fst]. rewrite Hc, Hcidrs. by apply default_networks_contain_all.
Qed.

Lemma readSlice_writeThrough h s elems l :
  match s, l with
  | SliceAt a _, SliceAt b _ => a <> b
  | _, _ => True
  end ->
  readSlice (writeThrough h s elems) l = readSlice h l.
Proof.
  destruct s as [|a n], l as [|b m]; try done.
  intros Hne. simpl. by rewrite lookup_insert_ne.
Qed.

Lemma callerWrites_wf p s elems : wfProc p -> wfProc (callerWrites p s elems).
Proof.
  unfold wfProc, callerWrites. simpl. intros Hwf Honce. specialize (Hwf Honce).
  destruct (trustedProxyList p) as [|l n]; [done|].
  destruct s as [|a m]; [done|]. simpl.
  rewrite dom_insert. set_solver.
Qed.

(** C9: [TrustedProxies] returns a copy of the raw list. Whatever the
    caller writes through the returned slice, the raw list, the parsed
    networks, the result of a later call of [TrustedProxies] and the verdict
    of the trust check are what they were before the write. *)
Theorem TrustedProxies_returns_copy env p elems ip :
  wfProc p ->
  let '(s, p1) := TrustedProxies env p in
  let p2 := callerWrites p1 s elems in
  readSlice (heap p2) (trustedProxyList p2) = readSlice (heap p1) (trustedProxyList p1)
  /\ trustedProxyCIDRs p2 = trustedProxyCIDRs p1
  /\ (let '(s', p3) := TrustedProxies env p2 in
      readSlice (heap p3) s' = readSlice (heap p1) s)
  /\ (isTrustedProxyIP env ip p2).1 = (isTrustedProxyIP env ip p1).1.
Proof.
  intros Hwf. pose proof (TrustedProxies_reads env p Hwf) as Hreads.
  destruct (TrustedProxies env p) as [s p1].
  destruct Hreads as (Hs & Hl & Hc & Hlist & Ho & Hwf1 & Hne).
  set (p2 := callerWrites p1 s elems).
  assert (Hraw : readSlice (heap p2) (trustedProxyList p2)
                 = readSlice (heap p1) (trustedProxyList p1)).
  { unfold p2, callerWrites. simpl. by apply readSlice_writeThrough. }
  assert (Hload2 : loadTrustedProxies env p2 = p2).
  { unfold loadTrustedProxies. unfold p2 at 1, callerWrites. simpl. by rewrite Ho. }
  split; [done|]. split; [done|]. split.
  - pose proof (TrustedProxies_reads env p2 (callerWrites_wf p1 s elems Hwf1)) as Hreads2.
    rewrite Hload2 in Hreads2.
    destruct (TrustedProxies env p2) as [s' p3].
    destruct Hreads2 as (Hs' & _). by rewrite Hs', Hraw, Hl, Hs.
  - unfold isTrustedProxyIP. rewrite Hload2. cbn [fst].
    unfold loadTrustedProxies. by rewrite Ho.
Qed.

(** ** The per-request cache *)

Section Cache.

Variable IsPrivateIP : GoNet.IP -> bool.
Variable ClientIP : Gin.Context -> string.


(** Resolving again in the state the first resolution left gives the same
    result: the configuration is loaded once. *)
Lemma resolve_again env req p :
  RealClientIPFromRequest IsPrivateIP env req (RealClientIPFromRequest IsPrivateIP env req p).2
  = RealClientIPFromRequest IsPrivateIP env req p.
Proof.
  unfold RealClientIPFromRequest. destruct req as [r|]; [|done].
  destruct (parseRemoteIP (GoHttp.RemoteAddr r)) as [ip|] eqn:Eip; [|done].
  unfold isTrustedProxyIP.
  assert (Hsnd : forall (b : bool) (x y : string) (q : Proc),
             (if b then match headerLoop IsPrivateIP (GoHttp.Header r) forwardedHeaders with
                        | Some c => (c, q)
                        | None => (x, q)
                        end
              else (y, q)).2 = q).
  { intros b x y q. destruct b; [|done]. by destruct (headerLoop _ _ _). }
  rewrite Hsnd. by rewrite loadTrustedProxies_idem.
Qed.

(** A context that holds a non-empty string under the key answers from
    the cache, whatever its request, the environment and the process
    state are: the only call made is the lookup of the key. *)
Lemma realIP_cached env c p ip :
  Gin.Get c realClientIPKey = Some (Gin.AnyString ip) -> ip <> EmptyString ->
  RealClientIP IsPrivateIP ClientIP env c p = mkOutcome ip c p [CallGet].
Proof.
  intros Hget Hne. unfold RealClientIP. rewrite Hget.
  apply isEmpty_false in Hne. by rewrite Hne.
Qed.

(** C6: calling [RealClientIP] twice with unchanged inputs returns the
    same string both times; and once a non-empty value is cached after the
    first call, a second call returns it without resolving again (its only
    call is the cache lookup), even if the request, with its headers, has
    changed in between. *)
Theorem RealClientIP_idempotent env c p :
  let o1 := RealClientIP IsPrivateIP ClientIP env c p in
  outIP (RealClientIP IsPrivateIP ClientIP env (outCtx o1) (outProc o1)) = outIP o1
  /\ forall ip,
       Gin.Get (outCtx o1) realClientIPKey = Some (Gin.AnyString ip) ->
       ip <> EmptyString ->
       ip = outIP o1
       /\ forall req' env' p',
            let c' := Gin.mkContext req' (Gin.Keys (outCtx o1)) in
            RealClientIP IsPrivateIP ClientIP env' c' p' = mkOutcome ip c' p' [CallGet].
Proof.
  intros o1.
  assert (Hcached : forall ip,
             Gin.Get (outCtx o1) realClientIPKey = Some (Gin.AnyString ip) ->
             ip <> EmptyString -> ip = outIP o1).
  { intros ip Hget Hne. unfold o1, RealClientIP in *.
    destruct (Gin.Get c realClientIPKey) as [[s|tag]|] eqn:Ec.
    - destruct (isEmpty s) eqn:Es; cbn [negb] in *.
      + destruct (RealClientIPFromRequest IsPrivateIP env (Gin.ctxRequest c) p) as [r p1].
        destruct (isEmpty r) eqn:Er; cbn [negb outCtx outIP] in *.
        * rewrite Ec in Hget. injection Hget as ->.
          apply isEmpty_false in Hne. congruence.
        * unfold Gin.Get, Gin.Set_ in Hget. cbn in Hget.
          rewrite lookup_insert_eq in Hget. by injection Hget as ->.
      + cbn in *. rewrite Ec in Hget. by injection Hget as ->.
    - destruct (RealClientIPFromRequest IsPrivateIP env (Gin.ctxRequest c) p) as [r p1].
      destruct (isEmpty r) eqn:Er; cbn [negb outCtx outIP] in *.
      + by rewrite Ec in Hget.
      + unfold Gin.Get, Gin.Set_ in Hget. cbn in Hget.
        rewrite lookup_insert_eq in Hget. by injection Hget as ->.
    - destruct (RealClientIPFromRequest IsPrivateIP env (Gin.ctxRequest c) p) as [r p1].
      destruct (isEmpty r) eqn:Er; cbn [negb outCtx outIP] in *.
      + by rewrite Ec in Hget.
      + unfold Gin.Get, Gin.Set_ in Hget. cbn in Hget.
        rewrite lookup_insert_eq in Hget. by injection Hget as ->. }
  split.
  - unfold o1. unfold RealClientIP at 2 3 4.
    destruct (match Gin.Get c realClientIPKey with
              | Some (Gin.AnyString ip) => if negb (isEmpty ip) then Some ip else None
              | _ => None
              end) as [ip|] eqn:Ecache.
    + cbn [outCtx outProc outIP]. unfold RealClientIP. by rewrite Ecache.
    + pose proof (resolve_again env (Gin.ctxRequest c) p) as Hagain.
      destruct (RealClientIPFromRequest IsPrivateIP env (Gin.ctxRequest c) p) as [r p1] eqn:Er.
      cbn [snd] in Hagain.
      destruct (isEmpty r) eqn:Ee; cbn [negb outCtx outProc outIP].
      * unfold RealClientIP. rewrite Ecache, Hagain, Ee. reflexivity.
      * assert (r <> EmptyString) by by apply isEmpty_false.
        rewrite (realIP_cached _ _ _ r); [done| |done].
        unfold Gin.Get, Gin.Set_. cbn. by rewrite lookup_insert_eq.
  - intros ip Hget Hne. split; [by apply Hcached|].
    intros req' env' p' c'. by apply realIP_cached.
Qed.

End Cache.

(** ** The address parsers *)

Lemma isDigit_not_slash c : isDigit c = true -> Ascii.eqb c "/" = false.
Proof.
  intros H. destruct (Ascii.eqb_spec c "/") as [->|]; [discriminate H | done].
Qed.

Lemma hexVal_not_slash c v : hexVal c = Some v -> Ascii.eqb c "/" = false.
Proof.
  intros H. destruct (Ascii.eqb_spec c "/") as [->|]; [discriminate H | done].
Qed.

Lemma hexVal_range c v : hexVal c = Some v -> 0 <= v <= 15.
Proof.
  unfold hexVal. intros H.
  repeat match type of H with
         | (if ?b then _ else _) = _ => destruct b eqn:?
         end; inversion H; subst; lia.
Qed.

Lemma IndexByte_cons_None a s c :
  Ascii.eqb a c = false -> GoStrings.IndexByte s c = None ->
  GoStrings.IndexByte (String a s) c = None.
Proof. intros Ha Hs. simpl. by rewrite Ha, Hs. Qed.

(** The dotted-quad parser accepts digits and dots only, and yields four
    bytes. *)
Lemma parseIPv4Loop_inv s first prevDot val digLen fields r :
  GoNet.parseIPv4Loop s first prevDot val digLen fields = Some r ->
  (length fields <= 3)%nat -> Forall byteRange fields -> 0 <= val <= 255 ->
  GoStrings.IndexByte s "/" = None /\ length r = 4%nat /\ Forall byteRange r.
Proof.
  revert first prevDot val digLen fields.
  induction s as [|c s IH]; intros first prevDot val digLen fields; simpl.
  - destruct (length fields <? 3)%nat eqn:E; [done|].
    apply Nat.ltb_ge in E. intros [= <-] Hlen Hf Hv.
    split; [done|]. rewrite length_app. simpl. split; [lia|].
    apply Forall_app. split; [done|]. by apply Forall_singleton.
  - destruct (isDigit c) eqn:Ed.
    + destruct ((digLen =? 1) && (val =? 0)); [done|].
      destruct (255 <? val * 10 + (byteOf c - 48)) eqn:E255; [done|].
      intros H Hlen Hf Hv. apply Z.ltb_ge in E255.
      unfold isDigit in Ed. apply andb_true_iff in Ed as [Ed1 Ed2].
      apply Z.leb_le in Ed1.
      destruct (IH _ _ _ _ _ H Hlen Hf) as (Hs & Hr); [lia|].
      split; [|done]. apply IndexByte_cons_None; [|done].
      apply isDigit_not_slash. unfold isDigit. apply andb_true_iff.
      split; [by apply Z.leb_le | done].
    + destruct (Ascii.eqb_spec c ".") as [->|]; [|done].
      destruct (first || _ || prevDot); [done|].
      destruct (length fields =? 3)%nat eqn:E3; [done|].
      apply Nat.eqb_neq in E3. intros H Hlen Hf Hv.
      destruct (IH _ _ _ _ _ H) as (Hs & Hr).
      * rewrite length_app. simpl. lia.
      * apply Forall_app. split; [done|]. by apply Forall_singleton.
      * lia.
      * split; [|done]. by apply IndexByte_cons_None.
Qed.

Lemma parseIPv4Fields_inv s r :
  GoNet.parseIPv4Fields s = Some r ->
  GoStrings.IndexByte s "/" = None /\ length r = 4%nat /\ Forall byteRange r.
Proof.
  intros H. apply (parseIPv4Loop_inv _ _ _ _ _ _ _ H); simpl; [lia|constructor|lia].
Qed.

Lemma spanHex_inv s ds r :
  GoNet.spanHex s = (ds, r) ->
  Forall (fun d => 0 <= d <= 15) ds
  /\ (GoStrings.IndexByte r "/" = None -> GoStrings.IndexByte s "/" = None).
Proof.
  revert ds r. induction s as [|c s IH]; intros ds r; simpl.
  - intros [= <- <-]. by split.
  - destruct (hexVal c) as [v|] eqn:Ev.
    + destruct (GoNet.spanHex s) as [ds' r'] eqn:Es. intros [= <- <-].
      destruct (IH _ _ eq_refl) as [Hds Hr]. split.
      * constructor; [by eapply hexVal_range | done].
      * intros Hn. apply IndexByte_cons_None; [by eapply hexVal_not_slash | by apply Hr].
    + intros [= <- <-]. split; [constructor | done].
Qed.

Lemma hexAcc_bound ds :
  Forall (fun d => 0 <= d <= 15) ds -> (length ds <= 4)%nat ->
  0 <= GoNet.hexAcc ds < 65536.
Proof.
  unfold GoNet.hexAcc. intros Hds Hlen.
  assert (H : forall a, 0 <= a ->
            0 <= fold_left (fun acc d => acc * 16 + d) ds a
            < (a + 1) * 16 ^ Z.of_nat (length ds)).
  { clear Hlen. induction Hds as [|d ds Hd _ IH]; intros a Ha.
    - simpl. lia.
    - cbn [fold_left length]. specialize (IH (a * 16 + d) ltac:(lia)).
      rewrite Nat2Z.inj_succ, Z.pow_succ_r by lia. nia. }
  specialize (H 0 ltac:(lia)).
  assert (16 ^ Z.of_nat (length ds) <= 16 ^ 4) by (apply Z.pow_le_mono_r; lia).
  lia.
Qed.

Lemma pair_bytes_range acc :
  0 <= acc < 65536 -> Forall byteRange [acc / 256; acc mod 256].
Proof.
  intros H. apply Forall_cons_2; [|apply Forall_singleton]; unfold byteRange.
  - assert (acc / 256 < 256) by (apply Z.div_lt_upper_bound; lia).
    assert (0 <= acc / 256) by (apply Z.div_pos; lia). lia.
  - pose proof (Z.mod_pos_bound acc 256). lia.
Qed.

(** The loop of the IPv6 parser keeps an even number of bytes, at most
    sixteen, each in range, and reads hexadecimal digits, colons and dots
    only. *)
Lemma parseIPv6Loop_inv fuel s ip ell rest ip' ell' :
  GoNet.parseIPv6Loop fuel s ip ell = Some (rest, ip', ell') ->
  (exists k, length ip = (2 * k)%nat) -> (length ip <= 16)%nat -> Forall byteRange ip ->
  (exists k, length ip' = (2 * k)%nat) /\ (length ip' <= 16)%nat /\ Forall byteRange ip'
  /\ (GoStrings.IndexByte rest "/" = None -> GoStrings.IndexByte s "/" = None).
Proof.
  revert s ip ell. induction fuel as [|fuel IH]; intros s ip ell;
    cbn [GoNet.parseIPv6Loop].
  { intros [= <- <- <-] Hev Hle Hr. done. }
  destruct (16 <=? length ip)%nat eqn:E16.
  { intros [= <- <- <-] Hev Hle Hr. done. }
  apply Nat.leb_gt in E16.
  destruct (GoNet.spanHex s) as [ds r0] eqn:Es.
  destruct (4 <? length ds)%nat eqn:E4; [done|]. apply Nat.ltb_ge in E4.
  destruct (length ds =? 0)%nat eqn:E0; [done|].
  destruct (spanHex_inv _ _ _ Es) as [Hds Hslash].
  pose proof (pair_bytes_range _ (hexAcc_bound ds Hds E4)) as Hpair.
  set (acc := GoNet.hexAcc ds) in *.
  assert (Hstep : forall k, length ip = (2 * k)%nat ->
             length (ip ++ [acc / 256; acc mod 256]) = (2 * (k + 1))%nat).
  { intros k Hk. rewrite length_app. simpl. lia. }
  destruct r0 as [|c r1].
  { intros [= <- <- <-] [k Hk] Hle Hr. split; [eexists; by apply Hstep|].
    rewrite (Hstep k Hk). split; [lia|]. split; [by apply Forall_app|]. done. }
  destruct (Ascii.eqb c ".") eqn:Edot.
  { destruct (_ && _); [done|].
    destruct (16 <? length ip + 4)%nat eqn:E20; [done|]. apply Nat.ltb_ge in E20.
    destruct (GoNet.parseIPv4Fields s) as [f|] eqn:Ef; [|done].
    destruct (parseIPv4Fields_inv _ _ Ef) as (Hs & Hlen & Hfr).
    intros [= <- <- <-] [k Hk] Hle Hr. rewrite length_app, Hlen.
    split; [exists (k + 2)%nat; lia|]. split; [lia|]. split; [by apply Forall_app|]. done. }
  destruct (Ascii.eqb_spec c ":") as [->|]; [|done]. cbn [negb].
  destruct r1 as [|c1 r2]; [done|].
  destruct (Ascii.eqb_spec c1 ":") as [->|Hc1].
  - destruct ell; [done|].
    destruct r2 as [|c2 r3].
    + intros [= <- <- <-] [k Hk] Hle Hr. split; [eexists; by apply Hstep|].
      rewrite (Hstep k Hk). split; [lia|]. split; [by apply Forall_app|].
      intros _. by apply Hslash.
    + intros H [k Hk] Hle Hr. apply IH in H.
      * destruct H as (H1 & H2 & H3 & H4). repeat split; try done.
        intros Hrest. apply Hslash. simpl. simpl in H4. by rewrite (H4 Hrest).
      * eexists; by apply Hstep.
      * rewrite (Hstep k Hk). lia.
      * by apply Forall_app.
  - intros H [k Hk] Hle Hr. apply IH in H.
    + destruct H as (H1 & H2 & H3 & H4). repeat split; try done.
      intros Hrest. apply Hslash. simpl. simpl in H4. by rewrite (H4 Hrest).
    + eexists; by apply Hstep.
    + rewrite (Hstep k Hk). lia.
    + by apply Forall_app.
Qed.

Lemma prefix_colons s :
  String.prefix "::" s = true -> s = String ":" (String ":" (GoStrings.dropS 2 s)).
Proof.
  destruct s as [|a [|b s]]; cbn [String.prefix GoStrings.dropS]; try done.
  - by destruct (ascii_dec ":" a).
  - destruct (ascii_dec ":" a) as [<-|]; [|done].
    by destruct (ascii_dec ":" b) as [<-|].
Qed.

Lemma parseIPv6_inv input a :
  GoNet.parseIPv6 input = Some a ->
  length (GoNet.as16 a) = 16%nat /\ Forall byteRange (GoNet.as16 a)
  /\ GoNet.is4 a = false
  /\ (GoNet.zone a = EmptyString -> GoStrings.IndexByte input "/" = None).
Proof.
  unfold GoNet.parseIPv6.
  assert (Hcore : forall s z,
    (let lead := String.prefix "::" s in
     let s1 := if lead then GoStrings.dropS 2 s else s in
     let ellipsis := if lead then Some O else None in
     if lead && (String.length s1 =? 0)%nat
     then Some (GoNet.mkAddr (replicate 16 0) false z)
     else match GoNet.parseIPv6Loop 9 s1 [] ellipsis with
          | None => None
          | Some (rest, ip, ell) =>
              if negb (String.length rest =? 0)%nat then None
              else if (length ip <? 16)%nat then
                match ell with
                | None => None
                | Some e =>
                    Some (GoNet.mkAddr
                            (take e ip ++ replicate (16 - length ip) 0 ++ drop e ip)
                            false z)
                end
              else match ell with
                   | Some _ => None
                   | None => Some (GoNet.mkAddr ip false z)
                   end
          end) = Some a ->
    length (GoNet.as16 a) = 16%nat /\ Forall byteRange (GoNet.as16 a)
    /\ GoNet.is4 a = false /\ GoNet.zone a = z
    /\ GoStrings.IndexByte s "/" = None).
  { intros s z. cbv zeta.
    assert (Hs1 : GoStrings.IndexByte (if String.prefix "::" s then GoStrings.dropS 2 s else s) "/"
                  = None -> GoStrings.IndexByte s "/" = None).
    { destruct (String.prefix "::" s) eqn:Ep; [|done].
      intros H. rewrite (prefix_colons s Ep).
      by do 2 (apply IndexByte_cons_None; [done|]). }
    destruct (String.prefix "::" s && _) eqn:Elead.
    - intros [= <-]. cbn [GoNet.as16 GoNet.is4 GoNet.zone]. apply andb_true_iff in Elead as [Ep El].
      rewrite Ep in Hs1, El. split; [reflexivity|].
      split; [unfold byteRange; repeat (apply Forall_cons_2; [lia|]); constructor|].
      repeat split. apply Hs1.
      destruct (GoStrings.dropS 2 s); [done | discriminate El].
    - destruct (GoNet.parseIPv6Loop 9 _ [] _) as [[[rest ip] ell]|] eqn:Eloop; [|done].
      apply parseIPv6Loop_inv in Eloop; [|by exists O|simpl; lia|constructor].
      destruct Eloop as ([k Hk] & Hle & Hr & Hslash).
      destruct (String.length rest =? 0)%nat eqn:Erest; [|done]. cbn [negb].
      assert (Hnoslash : GoStrings.IndexByte s "/" = None).
      { apply Hs1, Hslash. by destruct rest. }
      destruct (length ip <? 16)%nat eqn:E16.
      + destruct ell as [e|]; [|done]. intros [= <-]. cbn [GoNet.as16 GoNet.is4 GoNet.zone].
        apply Nat.ltb_lt in E16. split.
        * rewrite !length_app, length_replicate, length_take, length_drop. lia.
        * split; [|done]. apply Forall_app. split; [by apply Forall_take|].
          apply Forall_app. split; [by apply Forall_replicate | by apply Forall_drop].
      + destruct ell; [done|]. intros [= <-]. cbn [GoNet.as16 GoNet.is4 GoNet.zone].
        apply Nat.ltb_ge in E16. repeat split; try done. lia. }
  destruct (GoStrings.IndexByte input "%") as [i|] eqn:Ei.
  - destruct (String.length (GoStrings.dropS (S i) input) =? 0)%nat eqn:Ez; [done|].
    intros H. apply Hcore in H. destruct H as (H1 & H2 & H3 & H4 & _).
    repeat split; try done. intros Hz. rewrite Hz in H4. by rewrite <- H4 in Ez.
  - intros H. apply Hcore in H. destruct H as (H1 & H2 & H3 & H4 & H5). done.
Qed.

Lemma parseAddrScan_cases whole s a :
  GoNet.parseAddrScan whole s = Some a ->
  GoNet.parseIPv4 whole = Some a \/ GoNet.parseIPv6 whole = Some a.
Proof.
  induction s as [|c s IH]; simpl; [done|].
  destruct (Ascii.eqb c "."); [by left|].
  destruct (Ascii.eqb c ":"); [by right|].
  destruct (Ascii.eqb c "%"); [done | exact IH].
Qed.

(** What [netip.ParseAddr] returns: sixteen bytes in range; an address
    written as IPv4 is the four bytes after the IPv4-in-IPv6 prefix; an
    address without zone has no slash in its text. *)
Lemma ParseAddr_inv s a :
  GoNet.ParseAddr s = Some a ->
  length (GoNet.as16 a) = 16%nat /\ Forall byteRange (GoNet.as16 a)
  /\ (GoNet.is4 a = true ->
      exists f, GoNet.as16 a = GoNet.v4InV6Prefix ++ f /\ length f = 4%nat)
  /\ (GoNet.zone a = EmptyString -> GoStrings.IndexByte s "/" = None).
Proof.
  intros H. apply parseAddrScan_cases in H as [H|H].
  - unfold GoNet.parseIPv4 in H.
    destruct (GoNet.parseIPv4Fields s) as [f|] eqn:Ef; [|done].
    injection H as <-. destruct (parseIPv4Fields_inv _ _ Ef) as (Hs & Hlen & Hr).
    cbn [GoNet.as16 GoNet.is4 GoNet.zone]. split; [|split; [|split]].
    + cbn [length app GoNet.v4InV6Prefix]. by rewrite Hlen.
    + cbn [app GoNet.v4InV6Prefix].
      by repeat (apply Forall_cons_2; [unfold byteRange; lia|]).
    + intros _. by exists f.
    + done.
  - destruct (parseIPv6_inv _ _ H) as (H1 & H2 & H3 & H4).
    repeat split; try done. rewrite H3. done.
Qed.

Lemma Contains_slash_IndexByte s :
  GoStrings.Contains s "/" = match GoStrings.IndexByte s "/" with
                             | Some _ => true
                             | None => false
                             end.
Proof.
  induction s as [|c s IH]; [done|].
  cbn [GoStrings.Contains GoStrings.IndexByte String.prefix].
  destruct (ascii_dec "/" c) as [<-|Hne].
  - by destruct s.
  - destruct (Ascii.eqb_spec c "/") as [->|]; [done|].
    rewrite IH. cbn [orb]. by destruct (GoStrings.IndexByte s "/").
Qed.

(** A text that [net.ParseIP] accepts has no slash. *)
Lemma ParseIP_no_slash s ip :
  GoNet.ParseIP s = Some ip -> GoStrings.Contains s "/" = false.
Proof.
  unfold GoNet.ParseIP. destruct (GoNet.ParseAddr s) as [a|] eqn:Ea; [|done].
  destruct (String.length (GoNet.zone a) =? 0)%nat eqn:Ez; [|done]. intros _.
  destruct (ParseAddr_inv _ _ Ea) as (_ & _ & _ & Hs).
  rewrite Contains_slash_IndexByte, Hs; [done|]. by destruct (GoNet.zone a).
Qed.

(** ** CIDR parsing *)

Lemma cidrMaskLoop_length l n : length (GoNet.cidrMaskLoop l n) = l.
Proof.
  revert n. induction l as [|l IH]; intros n; simpl; [done|].
  destruct (8 <=? n); simpl; by rewrite IH.
Qed.

Lemma To4_written_as_IPv4 a s :
  GoNet.ParseAddr s = Some a -> GoNet.is4 a = true ->
  GoNet.To4 (GoNet.as16 a) = Some (drop 12 (GoNet.as16 a))
  /\ length (drop 12 (GoNet.as16 a)) = 4%nat
  /\ GoNet.eqBytes (take 12 (GoNet.as16 a)) GoNet.v4InV6Prefix = true.
Proof.
  intros Ha H4. destruct (ParseAddr_inv _ _ Ha) as (_ & _ & Hf & _).
  destruct (Hf H4) as (f & -> & Hlen).
  destruct f as [|f0 [|f1 [|f2 [|f3 [|]]]]]; try done.
Qed.

Lemma CIDRMask_family a n :
  0 <= n <= GoNet.BitLen a ->
  GoNet.CIDRMask n (GoNet.BitLen a) = Some (GoNet.cidrMaskLoop (familyLen a) n).
Proof.
  unfold GoNet.CIDRMask, GoNet.BitLen, familyLen. intros Hn.
  destruct (GoNet.is4 a).
  - replace (n <? 0) with false by (symmetry; apply Z.ltb_ge; lia).
    replace (32 <? n) with false by (symmetry; apply Z.ltb_ge; lia). reflexivity.
  - replace (n <? 0) with false by (symmetry; apply Z.ltb_ge; lia).
    replace (128 <? n) with false by (symmetry; apply Z.ltb_ge; lia). reflexivity.
Qed.

Lemma Mask_family a s m :
  GoNet.ParseAddr s = Some a -> length m = familyLen a ->
  GoNet.Mask (GoNet.as16 a) m = Some (GoNet.andBytes (familyBytes a) m).
Proof.
  intros Ha Hm. destruct (ParseAddr_inv _ _ Ha) as (Hlen & _ & _ & _).
  unfold GoNet.Mask, familyBytes, familyLen in *.
  destruct (GoNet.is4 a) eqn:E4.
  - destruct (To4_written_as_IPv4 _ _ Ha E4) as (_ & Hl4 & Heq).
    rewrite ?Hm, ?Hlen. cbn [Nat.eqb GoNet.IPv4len GoNet.IPv6len andb].
    rewrite ?Hm. cbn [Nat.eqb GoNet.IPv4len GoNet.IPv6len andb].
    rewrite Heq, Hl4. reflexivity.
  - unfold GoNet.IPv4len, GoNet.IPv6len.
    repeat (progress rewrite ?Hm, ?Hlen;
            change (16 =? 16)%nat with true; change (16 =? 4)%nat with false;
            cbn [andb negb]).
    reflexivity.
Qed.

(** The network [net.ParseCIDR] returns: the bytes of the address in its
    family, masked, with the mask of the prefix length. *)
Lemma ParseCIDR_inv s c :
  GoNet.ParseCIDR s = Some c ->
  exists k a n i,
    GoStrings.IndexByte s "/" = Some k
    /\ GoNet.ParseAddr (GoStrings.takeS k s) = Some a
    /\ GoNet.zone a = EmptyString
    /\ GoNet.dtoi (GoStrings.dropS (S k) s) = (n, i, true)
    /\ i = String.length (GoStrings.dropS (S k) s)
    /\ 0 <= n <= GoNet.BitLen a
    /\ c = GoNet.mkIPNet
             (GoNet.andBytes (familyBytes a) (GoNet.cidrMaskLoop (familyLen a) n))
             (GoNet.cidrMaskLoop (familyLen a) n).
Proof.
  unfold GoNet.ParseCIDR.
  destruct (GoStrings.IndexByte s "/") as [k|] eqn:Ek; [|done].
  destruct (GoNet.ParseAddr (GoStrings.takeS k s)) as [a|] eqn:Ea; [|done].
  destruct (String.length (GoNet.zone a) =? 0)%nat eqn:Ez; [|done]. cbn [negb].
  destruct (GoNet.dtoi (GoStrings.dropS (S k) s)) as [[n i] ok] eqn:Ed.
  destruct ok; [|done]. cbn [negb orb].
  destruct (i =? String.length (GoStrings.dropS (S k) s))%nat eqn:Ei; [|done].
  cbn [negb orb]. destruct (n <? 0) eqn:En0; [done|].
  destruct (GoNet.BitLen a <? n) eqn:Enb; [done|]. cbn [orb].
  apply Z.ltb_ge in En0, Enb. apply Nat.eqb_eq in Ei.
  destruct (ParseAddr_inv _ _ Ea) as (Hlen & _ & _ & _).
  rewrite (CIDRMask_family a n) by lia.
  rewrite (Mask_family a _ _ Ea) by apply cidrMaskLoop_length.
  intros [= <-].
  exists k, a, n, i. repeat split; try done. by destruct (GoNet.zone a).
Qed.

Lemma IndexByte_append s t c :
  GoStrings.IndexByte s c = None ->
  GoStrings.IndexByte (s +:+ String c t) c = Some (String.length s)
  /\ GoStrings.takeS (String.length s) (s +:+ String c t) = s
  /\ GoStrings.dropS (S (String.length s)) (s +:+ String c t) = t.
Proof.
  induction s as [|a s IH]; simpl.
  - intros _. by rewrite Ascii.eqb_refl.
  - destruct (Ascii.eqb a c); [done|].
    destruct (GoStrings.IndexByte s c) eqn:E; [done|]. intros _.
    destruct (IH eq_refl) as (H1 & H2 & H3). simpl in H3. by rewrite H1, H2, H3.
Qed.

(** The loader accepts exactly the tokens that parse as an IP or as a
    CIDR. *)
Lemma parseProxy_accepts t :
  (exists c, parseProxy t = inl c) <-> parseable t.
Proof.
  unfold parseProxy, parseable. rewrite Contains_slash_IndexByte.
  destruct (GoStrings.IndexByte t "/") as [k|] eqn:Ek; cbn [negb].
  - assert (Hip : GoNet.ParseIP t = None).
    { destruct (GoNet.ParseIP t) as [ip|] eqn:E; [|done].
      apply ParseIP_no_slash in E. rewrite Contains_slash_IndexByte, Ek in E. done. }
    destruct (GoNet.ParseCIDR t) as [c|]; split.
    + intros _. by right.
    + intros _. by eexists.
    + by intros [c Hc].
    + intros [H|H]; done.
  - assert (Hcidr : GoNet.ParseCIDR t = None).
    { unfold GoNet.ParseCIDR. by rewrite Ek. }
    rewrite Hcidr. destruct (GoNet.ParseIP t) as [ip|] eqn:Eip.
    + split; [intros _; by left|]. intros _.
      unfold GoNet.ParseIP in Eip.
      destruct (GoNet.ParseAddr t) as [a|] eqn:Ea; [|done].
      destruct (String.length (GoNet.zone a) =? 0)%nat eqn:Ez; [|done].
      injection Eip as <-.
      destruct (ParseAddr_inv _ _ Ea) as (Hlen & _ & _ & _).
      assert (Hz : forall suffix n,
                 GoNet.dtoi suffix = (n, String.length suffix, true) ->
                 0 <= n <= GoNet.BitLen a ->
                 exists c, GoNet.ParseCIDR (t +:+ String "/" suffix) = Some c).
      { intros suffix n Hd Hn. unfold GoNet.ParseCIDR.
        destruct (IndexByte_append t suffix "/" Ek) as (-> & -> & ->).
        rewrite Ea, Ez, Hd, Nat.eqb_refl. cbn [negb orb].
        destruct (n <? 0) eqn:E1; [lia|]. destruct (GoNet.BitLen a <? n) eqn:E2; [lia|].
        cbn [orb].
        rewrite (CIDRMask_family a n) by lia.
        set (m := GoNet.cidrMaskLoop (familyLen a) n).
        assert (Hm : length m = familyLen a) by apply cidrMaskLoop_length.
        rewrite (Mask_family a _ _ Ea) by done. by eexists. }
      destruct (GoNet.To4 (GoNet.as16 a)) as [x|] eqn:E4.
      * destruct (Hz "32"%string 32 eq_refl) as [c Hc].
        { unfold GoNet.BitLen. destruct (GoNet.is4 a); lia. }
        change (t +:+ "/32") with (t +:+ String "/" "32").
        rewrite Hc. by eexists.
      * destruct (Hz "128"%string 128 eq_refl) as [c Hc].
        { unfold GoNet.BitLen. destruct (GoNet.is4 a) eqn:Ea4; [|lia].
          destruct (To4_written_as_IPv4 _ _ Ea Ea4) as (Hto4 & _). congruence. }
        change (t +:+ "/128") with (t +:+ String "/" "128").
        rewrite Hc. by eexists.
    + split; [by intros [c Hc] | intros [H|H]; done].
Qed.

(** ** Unparseable tokens *)

Lemma parseableb_true t : parseableb t = true <-> parseable t.
Proof.
  unfold parseableb, parseable.
  destruct (GoNet.ParseIP t), (GoNet.ParseCIDR t); split; try done;
    intros; try (by left); try (by right). by destruct H.
Qed.

Lemma parseableb_false t : parseableb t = false <-> unparseable t.
Proof.
  unfold parseableb, unparseable.
  destruct (GoNet.ParseIP t), (GoNet.ParseCIDR t); split; try done; by intros [? ?].
Qed.

(** The networks are those of the parseable tokens alone. *)
Lemma parseProxyCIDRs_filter tokens :
  (parseProxyCIDRs tokens).1 = (parseProxyCIDRs (List.filter parseableb tokens)).1.
Proof.
  induction tokens as [|t tokens IH]; [done|]. cbn [List.filter].
  destruct (parseableb t) eqn:E.
  - cbn [parseProxyCIDRs]. destruct (parseProxyCIDRs tokens) as [cs lg].
    destruct (parseProxyCIDRs (List.filter parseableb tokens)) as [cs' lg'].
    simpl in IH. subst cs'. by destruct (parseProxy t).
  - apply parseableb_false, unparseable_parseProxy in E as [line E].
    cbn [parseProxyCIDRs]. rewrite E. by destruct (parseProxyCIDRs tokens).
Qed.

Lemma parseProxyCIDRs_nonempty tokens t :
  t ∈ tokens -> parseable t -> (length (parseProxyCIDRs tokens).1 =? 0)%nat = false.
Proof.
  intros Hin Hp. induction tokens as [|t' tokens IH]; [by apply elem_of_nil in Hin|].
  cbn [parseProxyCIDRs]. destruct (parseProxyCIDRs tokens) as [cs lg].
  apply elem_of_cons in Hin as [<- | Hin].
  - apply parseProxy_accepts in Hp as [c ->]. done.
  - specialize (IH Hin). simpl in IH. destruct (parseProxy t'); [done|]. exact IH.
Qed.

(** The claim fails: with the configuration "10.0.0.0/8, bogus" the token
    "bogus" parses neither as an IP nor as a CIDR, and [TrustedProxies]
    returns it all the same. *)
Lemma raw_list_keeps_unparseable_token :
  GoNet.ParseCIDR "10.0.0.0/8" <> None
  /\ unparseable "bogus"
  /\ readSlice (heap (TrustedProxies (envOf "10.0.0.0/8, bogus") initialProc).2)
       (TrustedProxies (envOf "10.0.0.0/8, bogus") initialProc).1
     = ["10.0.0.0/8"; "bogus"]%string.
Proof.
  split; [by vm_compute|]. split; [split; by vm_compute|]. by vm_compute.
Qed.

(** C5, amended: when the configuration has a token that parses and a
    token that does not, each unparseable token yields no network (the
    parsed set is that of the parseable tokens alone), but it stays in the
    list [TrustedProxies] returns, which is the whole list of tokens. *)
Theorem unparseable_tokens_parsed_set_only env p :
  trustedProxyOnce p = false ->
  (exists t, t ∈ configTokens env /\ parseable t) ->
  (exists t, t ∈ configTokens env /\ unparseable t) ->
  let '(s, p1) := TrustedProxies env p in
  readSlice (heap p1) s = configTokens env
  /\ trustedProxyCIDRs p1 = (parseProxyCIDRs (List.filter parseableb (configTokens env))).1
  /\ forall t, t ∈ configTokens env -> unparseable t ->
       t ∈ readSlice (heap p1) s /\ t ∉ List.filter parseableb (configTokens env).
Proof.
  intros Honce (t1 & Hin1 & Hp1) _.
  assert (Hwf : wfProc p) by (intros H; congruence).
  pose proof (TrustedProxies_reads env p Hwf) as Hreads.
  destruct (loadTrustedProxies_first env p Honce) as (Hraw & Hcidrs & _).
  rewrite (parseProxyCIDRs_nonempty _ _ Hin1 Hp1) in Hraw, Hcidrs.
  destruct (TrustedProxies env p) as [s p1].
  destruct Hreads as (Hs & _ & Hc & _).
  rewrite Hs, Hraw. split; [done|]. split.
  - by rewrite Hc, Hcidrs, parseProxyCIDRs_filter.
  - intros t Hin Hun. split; [done|].
    rewrite list_elem_of_In, filter_In. intros [_ Hb].
    apply parseableb_false in Hun. congruence.
Qed.

(** ** Masks and ranges *)

Lemma andBytes_length x m : length (GoNet.andBytes x m) = min (length x) (length m).
Proof.
  revert m. induction x as [|a x IH]; intros [|b m]; simpl; try done. by rewrite IH.
Qed.

Lemma andBytes_idem x m : GoNet.andBytes (GoNet.andBytes x m) m = GoNet.andBytes x m.
Proof.
  revert m. induction x as [|a x IH]; intros [|b m]; simpl; try done.
  rewrite IH. f_equal. rewrite <- Z.land_assoc. by rewrite Z.land_diag.
Qed.

Lemma eqBytes_true x y : GoNet.eqBytes x y = true <-> x = y.
Proof.
  unfold GoNet.eqBytes. revert y. induction x as [|a x IH]; intros [|b y]; simpl;
    try (split; done).
  specialize (IH y). destruct (length x =? length y)%nat eqn:El; simpl in *.
  - destruct (Z.eqb_spec a b) as [->|Hne]; simpl.
    + rewrite IH. split; [by intros -> | by intros [= ->]].
    + split; [done | by intros [= -> ->]].
  - split; [done|]. intros [= -> ->]. by rewrite Nat.eqb_refl in El.
Qed.

Lemma land_255 a : byteRange a -> Z.land a 255 = a.
Proof.
  intros [H0 H255]. change 255 with (Z.ones 8).
  rewrite Z.land_ones by lia. apply Z.mod_small. change (2 ^ 8) with 256. lia.
Qed.

Lemma andBytes_ff x : Forall byteRange x -> GoNet.andBytes x (replicate (length x) 255) = x.
Proof.
  induction 1 as [|a x Ha _ IH]; simpl; [done|]. by rewrite land_255, IH.
Qed.

Lemma take_andBytes k x m :
  take k (GoNet.andBytes x m) = GoNet.andBytes (take k x) (take k m).
Proof.
  revert x m. induction k as [|k IH]; intros [|a x] [|b m]; simpl; try done.
  by rewrite IH.
Qed.

(** The mask byte with [n] leading ones keeps the top [n] bits of a byte. *)
Lemma byte_mask_spec a n :
  byteRange a -> 0 <= n < 8 ->
  Z.land a (255 - Z.shiftr 255 n) = a / 2 ^ (8 - n) * 2 ^ (8 - n).
Proof.
  intros Ha Hn.
  assert (Hall : forallb (fun n' =>
                   forallb (fun a' => Z.land a' (255 - Z.shiftr 255 n')
                                      =? a' / 2 ^ (8 - n') * 2 ^ (8 - n'))
                           (seqZ 0 256))
                 (seqZ 0 8) = true) by (vm_compute; reflexivity).
  rewrite forallb_forall in Hall.
  specialize (Hall n). rewrite forallb_forall in Hall.
  apply Z.eqb_eq, Hall.
  - apply list_elem_of_In, elem_of_seqZ. lia.
  - apply list_elem_of_In, elem_of_seqZ. unfold byteRange in Ha. lia.
Qed.

Lemma cidrMaskLoop_zero l : GoNet.cidrMaskLoop l 0 = replicate l 0.
Proof. induction l as [|l IH]; simpl; [done|]. by rewrite IH. Qed.

Lemma beVal_bound x : Forall byteRange x -> 0 <= beVal x < 256 ^ Z.of_nat (length x).
Proof.
  induction 1 as [|a x [Ha0 Ha1] _ IH]; cbn [beVal length].
  - simpl. lia.
  - rewrite Nat2Z.inj_succ, Z.pow_succ_r by lia.
    assert (0 < 256 ^ Z.of_nat (length x)) by (apply Z.pow_pos_nonneg; lia). nia.
Qed.

Lemma pow256 l : 256 ^ Z.of_nat l = 2 ^ (8 * Z.of_nat l).
Proof. change 256 with (2 ^ 8). rewrite <- Z.pow_mul_r by lia. reflexivity. Qed.

(** Two byte sequences agree under the mask of prefix length [n] exactly
    when their numbers agree above the low [8l - n] bits. *)
Lemma mask_eq_iff l : forall n x y,
  length x = l -> length y = l -> Forall byteRange x -> Forall byteRange y ->
  0 <= n <= 8 * Z.of_nat l ->
  GoNet.andBytes x (GoNet.cidrMaskLoop l n) = GoNet.andBytes y (GoNet.cidrMaskLoop l n)
  <-> beVal x / 2 ^ (8 * Z.of_nat l - n) = beVal y / 2 ^ (8 * Z.of_nat l - n).
Proof.
  induction l as [|l IH]; intros n x y Hx Hy Rx Ry Hn.
  - destruct x, y; try done.
  - destruct x as [|a x]; [done|]. destruct y as [|b y]; [done|].
    injection Hx as Hx. injection Hy as Hy.
    apply Forall_cons in Rx as [Ra Rx]. apply Forall_cons in Ry as [Rb Ry].
    pose proof (beVal_bound x Rx) as BX. pose proof (beVal_bound y Ry) as BY.
    rewrite Hx in BX. rewrite Hy in BY.
    cbn [beVal GoNet.cidrMaskLoop]. rewrite Hx, Hy.
    set (W := 256 ^ Z.of_nat l) in *. set (X := beVal x) in *. set (Y := beVal y) in *.
    assert (HW : W = 2 ^ (8 * Z.of_nat l)) by apply pow256.
    destruct (8 <=? n) eqn:E8.
    + apply Z.leb_le in E8. cbn [GoNet.andBytes]. rewrite !land_255 by done.
      specialize (IH (n - 8) x y Hx Hy Rx Ry ltac:(lia)).
      replace (8 * Z.of_nat (S l) - n) with (8 * Z.of_nat l - (n - 8)) by lia.
      set (k := 8 * Z.of_nat l - (n - 8)) in *.
      assert (Hsplit : W = 2 ^ (8 * Z.of_nat l - k) * 2 ^ k).
      { rewrite HW, <- Z.pow_add_r by lia. f_equal. lia. }
      set (M := 2 ^ (8 * Z.of_nat l - k)) in *. set (D := 2 ^ k) in *.
      assert (HD : 0 < D) by (apply Z.pow_pos_nonneg; lia).
      assert (HM : 0 < M) by (apply Z.pow_pos_nonneg; lia).
      assert (EX : (a * W + X) / D = a * M + X / D).
      { rewrite Hsplit, Z.mul_assoc, Z.div_add_l by lia. reflexivity. }
      assert (EY : (b * W + Y) / D = b * M + Y / D).
      { rewrite Hsplit, Z.mul_assoc, Z.div_add_l by lia. reflexivity. }
      rewrite EX, EY.
      assert (0 <= X / D < M).
      { split; [apply Z.div_pos; lia|]. apply Z.div_lt_upper_bound; lia. }
      assert (0 <= Y / D < M).
      { split; [apply Z.div_pos; lia|]. apply Z.div_lt_upper_bound; lia. }
      split.
      * intros [= -> Hrest]. apply IH in Hrest.
        change (X / D = Y / D) in Hrest. by rewrite Hrest.
      * intros Heq. assert (a = b) by nia. subst b.
        f_equal. apply IH. change (X / D = Y / D). lia.
    + apply Z.leb_gt in E8. cbn [GoNet.andBytes].
      rewrite cidrMaskLoop_zero, !andBytes_zero_mask, Hx, Hy.
      rewrite !byte_mask_spec by (done || lia).
      replace (8 * Z.of_nat (S l) - n) with (8 * Z.of_nat l + (8 - n)) by lia.
      rewrite Z.pow_add_r, <- HW by lia.
      set (J := 2 ^ (8 - n)).
      assert (HJ : 0 < J) by (apply Z.pow_pos_nonneg; lia).
      assert (HWpos : 0 < W) by (rewrite HW; apply Z.pow_pos_nonneg; lia).
      assert (EX : (a * W + X) / (W * J) = a / J).
      { rewrite <- Z.div_div by lia. rewrite Z.div_add_l by lia.
        rewrite (Z.div_small X W) by lia. by rewrite Z.add_0_r. }
      assert (EY : (b * W + Y) / (W * J) = b / J).
      { rewrite <- Z.div_div by lia. rewrite Z.div_add_l by lia.
        rewrite (Z.div_small Y W) by lia. by rewrite Z.add_0_r. }
      rewrite EX, EY. split.
      * intros [= Heq]. nia.
      * intros ->. reflexivity.
Qed.

Lemma div_eq_range v x size :
  0 < size ->
  x / size = v / size <-> v - v mod size <= x <= v - v mod size + size - 1.
Proof.
  intros Hs.
  pose proof (Z.div_mod v size ltac:(lia)). pose proof (Z.mod_pos_bound v size Hs).
  pose proof (Z.div_mod x size ltac:(lia)). pose proof (Z.mod_pos_bound x size Hs).
  split.
  - intros Heq. rewrite Heq in *. lia.
  - intros Hr. nia.
Qed.

(** ** What a network contains *)

Lemma To4_four ip : length ip = 4%nat -> GoNet.To4 ip = Some ip.
Proof. intros H. unfold GoNet.To4. by rewrite H. Qed.

(** A sixteen-byte address is IPv4 for the library exactly when it starts
    with the IPv4-in-IPv6 prefix. *)
Lemma To4_sixteen ip :
  length ip = 16%nat ->
  (GoNet.To4 ip = Some (drop 12 ip) /\ take 12 ip = GoNet.v4InV6Prefix)
  \/ (GoNet.To4 ip = None /\ take 12 ip <> GoNet.v4InV6Prefix).
Proof.
  intros H. do 17 (destruct ip as [|? ip]; try done).
  unfold GoNet.To4. cbn -[Z.eqb].
  repeat match goal with
         | |- context [?x =? ?y] =>
             destruct (Z.eqb_spec x y) as [?|?]; cbn [andb];
             [|right; split; [reflexivity | unfold GoNet.v4InV6Prefix; congruence]]
         end.
  left. split; [reflexivity | unfold GoNet.v4InV6Prefix; congruence].
Qed.

Lemma cidrMaskLoop_take k : forall l n,
  (k <= l)%nat -> 8 * Z.of_nat k <= n ->
  take k (GoNet.cidrMaskLoop l n) = replicate k 255.
Proof.
  induction k as [|k IH]; intros l n Hk Hn; [done|].
  destruct l as [|l]; [lia|]. cbn [GoNet.cidrMaskLoop].
  destruct (8 <=? n) eqn:E; [|apply Z.leb_gt in E; lia].
  cbn [take replicate]. f_equal. apply IH; lia.
Qed.

(** A masked byte can be 255 only under a mask byte of eight ones. *)
Lemma masked_byte_255 l : forall n f j,
  Forall byteRange f -> 0 <= n ->
  GoNet.andBytes f (GoNet.cidrMaskLoop l n) !! j = Some 255 ->
  8 * (Z.of_nat j + 1) <= n.
Proof.
  induction l as [|l IH]; intros n f j Rf Hn.
  - destruct f; by destruct j.
  - destruct f as [|a f]; [by destruct j|].
    apply Forall_cons in Rf as [Ra Rf]. cbn [GoNet.cidrMaskLoop].
    destruct (8 <=? n) eqn:E8.
    + apply Z.leb_le in E8. cbn [GoNet.andBytes]. destruct j as [|j].
      * intros _. lia.
      * cbn. intros H. apply IH in H; [lia | done | lia].
    + apply Z.leb_gt in E8. cbn [GoNet.andBytes]. destruct j as [|j].
      * cbn. rewrite byte_mask_spec by (done || lia). intros [= H].
        assert (Hc : n = 0 \/ n = 1 \/ n = 2 \/ n = 3 \/ n = 4 \/ n = 5 \/ n = 6 \/ n = 7)
          by lia.
        destruct Hc as [->|[->|[->|[->|[->|[->|[->| ->]]]]]]];
          cbn in H; lia.
      * cbn. intros H. apply IH in H; [lia | done | lia].
Qed.

(** A network whose masked address is IPv4-mapped holds no address that
    is not. *)
Lemma mapped_network_excludes f n ip y :
  length f = 16%nat -> Forall byteRange f -> 0 <= n <= 128 ->
  GoNet.To4 (GoNet.andBytes f (GoNet.cidrMaskLoop 16 n)) = Some y ->
  length ip = 16%nat -> Forall byteRange ip -> GoNet.To4 ip = None ->
  GoNet.andBytes ip (GoNet.cidrMaskLoop 16 n)
  <> GoNet.andBytes f (GoNet.cidrMaskLoop 16 n).
Proof.
  intros Hf Rf Hn Hnet Hip Rip H4 Heq.
  set (m := GoNet.cidrMaskLoop 16 n) in *.
  assert (Hlen : length (GoNet.andBytes f m) = 16%nat).
  { rewrite andBytes_length, Hf. unfold m. by rewrite cidrMaskLoop_length. }
  destruct (To4_sixteen _ Hlen) as [[_ Hpre] | [Hnone _]]; [|congruence].
  assert (H255 : GoNet.andBytes f m !! 11%nat = Some 255).
  { rewrite <- (lookup_take_lt _ 12) by lia. by rewrite Hpre. }
  apply masked_byte_255 in H255; [|done|lia].
  assert (Hm : take 12 m = replicate 12 255) by (apply cidrMaskLoop_take; lia).
  assert (Htake : take 12 ip = GoNet.v4InV6Prefix).
  { rewrite <- Hpre, <- Heq, take_andBytes, Hm.
    rewrite <- (andBytes_ff (take 12 ip)) at 1 by by apply Forall_take.
    rewrite length_take_le by lia. reflexivity. }
  destruct (To4_sixteen _ Hip) as [[Hsome _] | [_ Hne]]; congruence.
Qed.

Lemma familyBytes_inv a s :
  GoNet.ParseAddr s = Some a ->
  length (familyBytes a) = familyLen a /\ Forall byteRange (familyBytes a)
  /\ GoNet.BitLen a = 8 * Z.of_nat (familyLen a).
Proof.
  intros Ha. destruct (ParseAddr_inv _ _ Ha) as (Hlen & Hr & _).
  unfold familyBytes, familyLen, GoNet.BitLen. destruct (GoNet.is4 a) eqn:E4.
  - destruct (To4_written_as_IPv4 _ _ Ha E4) as (_ & Hl4 & _).
    split; [done|]. split; [by apply Forall_drop | done].
  - done.
Qed.

(** The network of a CIDR contains, among the addresses of its family,
    exactly those inside the range of the CIDR. *)
Lemma Contains_family a s n ip :
  GoNet.ParseAddr s = Some a -> 0 <= n <= GoNet.BitLen a ->
  validIP ip -> addrIsV4 ip = GoNet.is4 a ->
  GoNet.Contains
    (GoNet.mkIPNet (GoNet.andBytes (familyBytes a) (GoNet.cidrMaskLoop (familyLen a) n))
                   (GoNet.cidrMaskLoop (familyLen a) n)) ip = true
  <-> inside (cidrRange a n) ip.
Proof.
  intros Ha Hn [Hlen Rip] Hfam.
  destruct (familyBytes_inv _ _ Ha) as (Hfl & Rf & Hbits).
  set (f := familyBytes a) in *. set (l := familyLen a) in *.
  set (m := GoNet.cidrMaskLoop l n).
  assert (Hml : length m = l) by apply cidrMaskLoop_length.
  assert (Hnl : length (GoNet.andBytes f m) = l).
  { rewrite andBytes_length, Hfl, Hml. lia. }
  assert (Hsize : 0 < 2 ^ (GoNet.BitLen a - n)) by (apply Z.pow_pos_nonneg; lia).
  unfold inside, cidrRange. cbn [rangeV4 rangeLo rangeHi]. fold f.
  unfold addrIsV4 in Hfam. unfold GoNet.Contains, GoNet.networkNumberAndMask.
  cbn [GoNet.ipnIP GoNet.ipnMask]. fold m.
  destruct (GoNet.is4 a) eqn:E4.
  - assert (Hl4 : l = 4%nat) by (unfold l, familyLen; by rewrite E4).
    destruct (GoNet.To4 ip) as [x|] eqn:Ex; [|done].
    pose proof (To4_length _ _ Ex Hlen) as Hx.
    assert (Rx : Forall byteRange x).
    { unfold GoNet.To4 in Ex. destruct (length ip =? GoNet.IPv4len)%nat.
      - by injection Ex as <-.
      - destruct (_ && _); [|done]. injection Ex as <-. by apply Forall_drop. }
    rewrite (To4_four (GoNet.andBytes f m)) by lia.
    repeat first [ progress rewrite ?Hml, ?Hnl, ?Hx, ?Hl4
                 | progress cbn [Nat.eqb GoNet.IPv4len GoNet.IPv6len negb] ].
    rewrite eqBytes_true, andBytes_idem.
    unfold m. rewrite Hl4.
    rewrite (mask_eq_iff 4 n f x) by (done || lia).
    rewrite <- div_eq_range by done. rewrite Hbits, Hl4.
    split; intros H; symmetry; exact H.
  - assert (Hl16 : l = 16%nat) by (unfold l, familyLen; by rewrite E4).
    destruct (GoNet.To4 ip) as [x|] eqn:Ex; [done|].
    assert (Hip : length ip = 16%nat).
    { destruct Hlen as [H|H]; [|done]. rewrite (To4_four ip H) in Ex. done. }
    assert (Hval : val128 ip = beVal ip) by (unfold val128; by rewrite Hip).
    rewrite Hval, <- div_eq_range by done. rewrite Hbits, Hl16.
    assert (Hmask : GoNet.andBytes ip m = GoNet.andBytes f m
                    <-> beVal ip / 2 ^ (8 * Z.of_nat 16 - n)
                        = beVal f / 2 ^ (8 * Z.of_nat 16 - n)).
    { unfold m. rewrite Hl16. apply mask_eq_iff; (done || lia). }
    rewrite <- Hmask.
    rewrite Hl16 in Hnl.
    destruct (To4_sixteen _ Hnl) as [[Hnet _] | [Hnet _]]; rewrite Hnet.
    + repeat first [ progress rewrite ?Hml, ?Hl16, ?length_drop, ?Hnl, ?Hip
                   | progress cbn [Nat.eqb GoNet.IPv4len GoNet.IPv6len negb Nat.sub] ].
      split; [done|]. intros Heq. exfalso.
      unfold m in Hnet, Heq. rewrite Hl16 in Hnet, Heq.
      by eapply (mapped_network_excludes f n ip); [..|exact Heq]; try done; try lia.
    + repeat first [ progress rewrite ?Hml, ?Hl16, ?Hnl, ?Hip
                   | progress cbn [Nat.eqb GoNet.IPv4len GoNet.IPv6len negb] ].
      rewrite eqBytes_true, andBytes_idem.
      split; intros H; symmetry; exact H.
Qed.

(** ** Tokens, ranges and the trust check *)

(** The network the loader derives from a plain token is that of the range
    the token stands for. *)
Lemma accepted_token_network tok c :
  parseProxy tok = inl c -> plainToken tok ->
  exists s a n,
    GoNet.ParseAddr s = Some a /\ 0 <= n <= GoNet.BitLen a
    /\ c = GoNet.mkIPNet
             (GoNet.andBytes (familyBytes a) (GoNet.cidrMaskLoop (familyLen a) n))
             (GoNet.cidrMaskLoop (familyLen a) n)
    /\ tokenRange tok = Some (cidrRange a n).
Proof.
  unfold parseProxy, plainToken, tokenRange.
  destruct (GoStrings.Contains tok "/") eqn:Eslash; cbn [negb].
  - destruct (GoNet.ParseCIDR tok) as [c'|] eqn:Ec; [|done]. intros [= <-] _.
    destruct (ParseCIDR_inv _ _ Ec) as (k & a & n & i & Hk & Ha & Hz & Hd & Hi & Hn & Hc).
    exists (GoStrings.takeS k tok), a, n. split; [done|]. split; [done|]. split; [done|].
    rewrite Hk, Ha, Hd, Hz, Hi, Nat.eqb_refl. cbn [isEmpty String.length Nat.eqb andb].
    by replace (n <=? GoNet.BitLen a) with true by (symmetry; apply Z.leb_le; lia).
  - destruct (GoNet.ParseIP tok) as [ip|] eqn:Eip; [|done].
    unfold GoNet.ParseIP in Eip.
    destruct (GoNet.ParseAddr tok) as [a|] eqn:Ea; [|done].
    destruct (String.length (GoNet.zone a) =? 0)%nat; [|done]. injection Eip as <-.
    assert (Hnos : GoStrings.IndexByte tok "/" = None).
    { rewrite Contains_slash_IndexByte in Eslash.
      by destruct (GoStrings.IndexByte tok "/"). }
    intros Hc [Hp|Hp]; [done|]. specialize (Hp a eq_refl). unfold addrIsV4 in Hp.
    assert (Hsuffix : forall suffix c',
               GoNet.ParseCIDR (tok +:+ String "/" suffix) = Some c' ->
               exists n i, GoNet.dtoi suffix = (n, i, true) /\ 0 <= n <= GoNet.BitLen a
                 /\ c' = GoNet.mkIPNet
                          (GoNet.andBytes (familyBytes a)
                             (GoNet.cidrMaskLoop (familyLen a) n))
                          (GoNet.cidrMaskLoop (familyLen a) n)).
    { intros suffix c' Hc'.
      destruct (ParseCIDR_inv _ _ Hc') as (k & a' & n & i & Hk & Ha' & _ & Hd & _ & Hn & ->).
      destruct (IndexByte_append tok suffix "/" Hnos) as (Hk' & Htake & Hdrop).
      rewrite Hk' in Hk. injection Hk as <-. rewrite Htake in Ha'.
      rewrite Hdrop in Hd. rewrite Ea in Ha'. injection Ha' as <-.
      by exists n, i. }
    destruct (GoNet.To4 (GoNet.as16 a)) as [x|] eqn:E4.
    + change (tok +:+ "/32") with (tok +:+ String "/" "32") in Hc.
      destruct (GoNet.ParseCIDR _) as [c'|] eqn:Ec; [|done]. injection Hc as <-.
      destruct (Hsuffix _ _ Ec) as (n & i & Hd & Hn & ->).
      injection Hd as <- _. exists tok, a, 32. split; [done|]. split; [done|].
      split; [done|]. f_equal.
      destruct (To4_written_as_IPv4 _ _ Ea Hp) as (Hto4 & _).
      rewrite E4 in Hto4. injection Hto4 as ->.
      unfold cidrRange, familyBytes, GoNet.BitLen. rewrite Hp.
      change (2 ^ (32 - 32)) with 1. rewrite Z.mod_1_r. f_equal; lia.
    + change (tok +:+ "/128") with (tok +:+ String "/" "128") in Hc.
      destruct (GoNet.ParseCIDR _) as [c'|] eqn:Ec; [|done]. injection Hc as <-.
      destruct (Hsuffix _ _ Ec) as (n & i & Hd & Hn & ->).
      injection Hd as <- _. exists tok, a, 128. split; [done|]. split; [done|].
      split; [done|]. f_equal.
      unfold cidrRange, familyBytes, GoNet.BitLen. rewrite Hp.
      change (2 ^ (128 - 128)) with 1. rewrite Z.mod_1_r. f_equal; lia.
Qed.

Lemma parseProxyCIDRs_elem tokens tok c :
  tok ∈ tokens -> parseProxy tok = inl c -> c ∈ (parseProxyCIDRs tokens).1.
Proof.
  intros Hin Hc. induction tokens as [|t tokens IH]; [by apply elem_of_nil in Hin|].
  cbn [parseProxyCIDRs]. destruct (parseProxyCIDRs tokens) as [cs lg].
  apply elem_of_cons in Hin as [<- | Hin].
  - rewrite Hc. apply list_elem_of_here.
  - specialize (IH Hin). simpl in IH.
    destruct (parseProxy t); [by apply list_elem_of_further | done].
Qed.

Lemma inside_same_family r ip :
  addrIsV4 ip = rangeV4 r -> length ip = 4%nat \/ length ip = 16%nat ->
  inside r ip <-> rangeLo r <= addrVal ip <= rangeHi r.
Proof.
  unfold addrIsV4, inside, addrVal, val128. intros Hfam Hlen.
  destruct (GoNet.To4 ip) as [x|] eqn:E4; rewrite <- Hfam; [done|].
  destruct Hlen as [H|H]; [by rewrite (To4_four ip H) in E4 | by rewrite H].
Qed.

(** The claim fails by design in two ways. The range "::/0" holds the
    number of the IPv4-mapped address ::ffff:1.2.3.4, which [net.ParseIP]
    returns for "1.2.3.4", yet the trust check, which takes such an address
    as IPv4, reports it untrusted. And with the tokens "10.0.0.0/8" and
    "11.0.0.0/8" configured, 11.0.0.0, one increment above the range of the
    first token, is reported trusted. *)
Lemma round_trip_fails_across_families_and_tokens :
  (exists c, parseProxy "::/0" = inl c)
  /\ tokenRange "::/0" = Some (mkRange false 0 (2 ^ 128 - 1))
  /\ GoNet.ParseIP "1.2.3.4" = Some [0;0;0;0;0;0;0;0;0;0;255;255;1;2;3;4]
  /\ inside (mkRange false 0 (2 ^ 128 - 1)) [0;0;0;0;0;0;0;0;0;0;255;255;1;2;3;4]
  /\ (isTrustedProxyIP (envOf "::/0") [0;0;0;0;0;0;0;0;0;0;255;255;1;2;3;4]
        initialProc).1 = false
  /\ (exists c, parseProxy "10.0.0.0/8" = inl c)
  /\ tokenRange "10.0.0.0/8" = Some (mkRange true 167772160 184549375)
  /\ addrVal [11; 0; 0; 0] = 184549375 + 1
  /\ (isTrustedProxyIP (envOf "10.0.0.0/8, 11.0.0.0/8") [11; 0; 0; 0] initialProc).1
     = true.
Proof.
  split; [by eexists; vm_compute|]. split; [by vm_compute|]. split; [by vm_compute|].
  split; [by vm_compute|]. split; [by vm_compute|].
  split; [by eexists; vm_compute|]. split; [by vm_compute|]. split; by vm_compute.
Qed.

(** A single IP written as an IPv4-mapped IPv6 literal is widened with
    "/32" on its IPv6 text: the network is ::/32, and the address of the
    token itself is reported untrusted. *)
Lemma mapped_literal_token_misses_its_address :
  parseProxy "::ffff:1.2.3.4"
  = inl (GoNet.mkIPNet (replicate 16 0) ([255; 255; 255; 255] ++ replicate 12 0))
  /\ tokenRange "::ffff:1.2.3.4" = Some (mkRange true 16909060 16909060)
  /\ inside (mkRange true 16909060 16909060) [1; 2; 3; 4]
  /\ (isTrustedProxyIP (envOf "::ffff:1.2.3.4") [1; 2; 3; 4] initialProc).1 = false.
Proof.
  split; [by vm_compute|]. split; [by vm_compute|]. split; by vm_compute.
Qed.

(** C8, amended: for every token the loader accepts whose text has the
    family of its address (a CIDR, or a single IP widened to /32 or /128),
    and every address of the family of the resulting range: the network of
    the token contains the address exactly when it lies inside the range;
    an address inside is reported trusted whenever the token is configured;
    an address outside, one increment beyond either end in particular, is
    reported untrusted when the token is the only one configured. *)
Theorem accepted_token_round_trip tok c :
  parseProxy tok = inl c -> plainToken tok ->
  exists r,
    tokenRange tok = Some r
    /\ forall ip, validIP ip -> addrIsV4 ip = rangeV4 r ->
         (GoNet.Contains c ip = true <-> inside r ip)
         /\ (inside r ip ->
             forall env p, trustedProxyOnce p = false -> tok ∈ configTokens env ->
               (isTrustedProxyIP env ip p).1 = true)
         /\ (~ inside r ip ->
             forall env p, trustedProxyOnce p = false -> configTokens env = [tok] ->
               (isTrustedProxyIP env ip p).1 = false)
         /\ (addrVal ip = rangeLo r - 1 \/ addrVal ip = rangeHi r + 1 ->
             forall env p, trustedProxyOnce p = false -> configTokens env = [tok] ->
               (isTrustedProxyIP env ip p).1 = false).
Proof.
  intros Hc Hplain.
  destruct (accepted_token_network _ _ Hc Hplain) as (s & a & n & Ha & Hn & -> & Hr).
  exists (cidrRange a n). split; [done|]. intros ip Hvalid Hfam.
  pose proof (Contains_family a s n ip Ha Hn Hvalid Hfam) as Hcont.
  set (c := GoNet.mkIPNet _ _) in *.
  assert (Hin : forall env p, trustedProxyOnce p = false -> tok ∈ configTokens env ->
            GoNet.Contains c ip = true -> (isTrustedProxyIP env ip p).1 = true).
  { intros env p Honce Htok Hct. unfold isTrustedProxyIP. cbn [fst].
    destruct (loadTrustedProxies_first env p Honce) as (_ & Hcidrs & _).
    rewrite (parseProxyCIDRs_nonempty _ tok Htok) in Hcidrs
      by (apply parseProxy_accepts; by exists c).
    rewrite Hcidrs. apply existsb_exists. exists c. split; [|done].
    by apply list_elem_of_In, (parseProxyCIDRs_elem _ tok). }
  assert (Hout : forall env p, trustedProxyOnce p = false -> configTokens env = [tok] ->
            GoNet.Contains c ip <> true -> (isTrustedProxyIP env ip p).1 = false).
  { intros env p Honce Htok Hct. unfold isTrustedProxyIP. cbn [fst].
    destruct (loadTrustedProxies_first env p Honce) as (_ & Hcidrs & _).
    rewrite Htok in Hcidrs. cbn [parseProxyCIDRs] in Hcidrs. rewrite Hc in Hcidrs.
    cbn -[c] in Hcidrs. rewrite Hc in Hcidrs. cbn [fst] in Hcidrs.
    rewrite Hcidrs. cbn [existsb].
    destruct (GoNet.Contains c ip); [done | reflexivity]. }
  split; [done|]. split; [|split].
  - intros Hi env p Honce Htok. apply Hin; [done..|]. by apply Hcont.
  - intros Hni env p Honce Htok. apply Hout; [done..|]. by rewrite Hcont.
  - intros Hedge env p Honce Htok. apply Hout; [done..|]. rewrite Hcont.
    destruct Hvalid as [Hlen _]. rewrite (inside_same_family _ _ Hfam Hlen). lia.
Qed.

(** ** Dotted quads are returned as they are written *)

Lemma append_cons (x : ascii) (a b : string) : String x a +:+ b = String x (a +:+ b).
Proof. reflexivity. Qed.

Lemma append_empty_l (a : string) : EmptyString +:+ a = a.
Proof. reflexivity. Qed.

Lemma append_assoc (a b c : string) : (a +:+ b) +:+ c = a +:+ (b +:+ c).
Proof.
  induction a as [|x a IH]; [by rewrite !append_empty_l|].
  by rewrite !append_cons, IH.
Qed.

Lemma append_empty_r (a : string) : a +:+ EmptyString = a.
Proof. induction a as [|x a IH]; [done|]. by rewrite append_cons, IH. Qed.

Lemma digitChar_digit c : isDigit c = true -> GoNet.digitChar (byteOf c - 48) = c.
Proof.
  unfold isDigit, GoNet.digitChar, chr, byteOf. intros H.
  apply andb_true_iff in H as [H1 _]. apply Z.leb_le in H1.
  replace (48 + (Z.of_N (N_of_ascii c) - 48)) with (Z.of_N (N_of_ascii c)) by lia.
  rewrite N2Z.id. apply ascii_N_embedding.
Qed.

(** One more digit behind a number without leading zero. *)
Lemma decByte_snoc v d :
  1 <= v -> 0 <= d <= 9 -> v * 10 + d <= 255 ->
  GoNet.decByte (v * 10 + d) = GoNet.decByte v +:+ GoNet.str1 (GoNet.digitChar d).
Proof.
  intros Hv Hd Hle.
  assert (Hall : forallb (fun v' =>
                   forallb (fun d' =>
                     if String.eqb (GoNet.decByte (v' * 10 + d'))
                          (GoNet.decByte v' +:+ GoNet.str1 (GoNet.digitChar d'))
                     then true else false)
                     (seqZ 0 10))
                   (seqZ 1 25) = true) by (vm_compute; reflexivity).
  rewrite forallb_forall in Hall. specialize (Hall v).
  rewrite forallb_forall in Hall.
  assert (Hv' : In v (seqZ 1 25)) by (apply list_elem_of_In, elem_of_seqZ; lia).
  assert (Hd' : In d (seqZ 0 10)) by (apply list_elem_of_In, elem_of_seqZ; lia).
  specialize (Hall Hv' d Hd').
  destruct (String.eqb_spec (GoNet.decByte (v * 10 + d))
              (GoNet.decByte v +:+ GoNet.str1 (GoNet.digitChar d))) as [E|E]; [done|].
  discriminate Hall.
Qed.

Lemma octetsText_snoc fields v :
  octetsText (fields ++ [v]) = octetsText fields +:+ GoNet.decByte v +:+ ".".
Proof.
  induction fields as [|f fields IH]; cbn [octetsText app].
  - by rewrite !append_empty_l.
  - by rewrite IH, !append_assoc.
Qed.

Lemma dottedText_snoc fields v :
  dottedText (fields ++ [v]) = octetsText fields +:+ GoNet.decByte v.
Proof.
  induction fields as [|f fields IH]; [done|].
  cbn [app octetsText]. rewrite !append_assoc, <- IH.
  destruct fields; reflexivity.
Qed.

(** The text read so far, followed by the text still to read, is the
    dotted text of the octets the parser returns. *)
Lemma parseIPv4Loop_text s : forall first prevDot val digLen fields r,
  GoNet.parseIPv4Loop s first prevDot val digLen fields = Some r ->
  0 <= val -> 0 <= digLen -> (digLen = 0 -> val = 0) -> (val = 0 -> digLen <= 1) ->
  (digLen = 0 -> first = true \/ prevDot = true) ->
  (digLen = 0 -> s <> EmptyString \/ (length fields < 3)%nat) ->
  octetsText fields +:+ (if digLen =? 0 then EmptyString else GoNet.decByte val) +:+ s
  = dottedText r.
Proof.
  induction s as [|c s IH]; intros first prevDot val digLen fields r;
    cbn [GoNet.parseIPv4Loop].
  - destruct (length fields <? 3)%nat eqn:E; [done|]. apply Nat.ltb_ge in E.
    intros [= <-] Hv Hd H0 H1 Hf Hs.
    destruct (Z.eqb_spec digLen 0) as [Hz|Hz].
    + destruct (Hs Hz) as [?|?]; [done | lia].
    + by rewrite append_empty_r, dottedText_snoc.
  - destruct (isDigit c) eqn:Ed.
    + destruct ((digLen =? 1) && (val =? 0)) eqn:Elead; [done|].
      destruct (255 <? val * 10 + (byteOf c - 48)) eqn:E255; [done|].
      apply Z.ltb_ge in E255.
      intros H Hv Hd H0 H1 Hf Hs.
      pose proof Ed as Edig. unfold isDigit in Edig.
      apply andb_true_iff in Edig as [Ed1 Ed2]. apply Z.leb_le in Ed1, Ed2.
      apply IH in H; [|lia..].
      rewrite <- H. f_equal.
      replace (digLen + 1 =? 0) with false by (symmetry; apply Z.eqb_neq; lia).
      destruct (Z.eqb_spec digLen 0) as [Hz|Hz].
      * rewrite (H0 Hz).
        replace (0 * 10 + (byteOf c - 48)) with (byteOf c - 48) by lia.
        unfold GoNet.decByte.
        replace (byteOf c - 48 <? 10) with true by (symmetry; apply Z.ltb_lt; lia).
        unfold GoNet.str1. by rewrite digitChar_digit.
      * assert (1 <= val).
        { destruct (Z.eqb_spec val 0) as [Hv0|]; [|lia].
          assert (digLen = 1) by (specialize (H1 Hv0); lia). subst.
          discriminate Elead. }
        rewrite decByte_snoc by lia. rewrite digitChar_digit by done.
        unfold GoNet.str1. by rewrite append_assoc.
    + destruct (Ascii.eqb_spec c ".") as [->|]; [|done].
      destruct first; [done|]. destruct s as [|c' s']; [done|].
      destruct prevDot; [done|]. cbn [orb].
      destruct (length fields =? 3)%nat eqn:E3; [done|].
      intros H Hv Hd H0 H1 Hf Hs.
      destruct (Z.eqb_spec digLen 0) as [Hz|Hz].
      { destruct (Hf Hz); done. }
      apply IH in H;
        [| lia | lia | done | lia | intros _; by right | intros _; by left].
      rewrite <- H. cbn [Z.eqb]. rewrite octetsText_snoc.
      replace (digLen =? 0) with false by (symmetry; by apply Z.eqb_neq).
      by rewrite !append_assoc, !append_empty_l, !append_cons, !append_empty_l.
Qed.

Lemma parseIPv4Fields_text s r : GoNet.parseIPv4Fields s = Some r -> dottedText r = s.
Proof.
  intros H. symmetry.
  apply (parseIPv4Loop_text s true false 0 0 [] r H); try lia; try done;
    intros _; first [by left | right; simpl; lia].
Qed.

Lemma parseAddrScan_dotted whole s : forall first prevDot val digLen fields r,
  GoNet.parseIPv4Loop s first prevDot val digLen fields = Some r ->
  (length fields < 3)%nat ->
  GoNet.parseAddrScan whole s = GoNet.parseIPv4 whole.
Proof.
  induction s as [|c s IH]; intros first prevDot val digLen fields r;
    cbn [GoNet.parseIPv4Loop GoNet.parseAddrScan].
  - intros H Hlen. apply Nat.ltb_lt in Hlen. by rewrite Hlen in H.
  - destruct (Ascii.eqb_spec c ".") as [->|Hdot]; [done|].
    destruct (isDigit c) eqn:Ed; [|done].
    destruct ((digLen =? 1) && (val =? 0)); [done|].
    destruct (255 <? _); [done|]. intros H Hlen.
    destruct (Ascii.eqb_spec c ":") as [->|]; [discriminate Ed|].
    destruct (Ascii.eqb_spec c "%") as [->|]; [discriminate Ed|].
    by eapply IH.
Qed.

(** A host written as a dotted quad parses to the IPv4-mapped address of
    its octets, and [String] of that address is the host again. *)
Lemma dotted_quad_round_trip host f :
  GoNet.parseIPv4Fields host = Some f ->
  GoNet.ParseIP host = Some (GoNet.v4InV6Prefix ++ f)
  /\ GoNet.String (GoNet.v4InV6Prefix ++ f) = host.
Proof.
  intros Hf. destruct (parseIPv4Fields_inv _ _ Hf) as (_ & Hlen & _).
  split.
  - unfold GoNet.ParseIP, GoNet.ParseAddr.
    rewrite (parseAddrScan_dotted host host _ _ _ _ _ _ Hf) by (simpl; lia).
    unfold GoNet.parseIPv4. by rewrite Hf.
  - pose proof (parseIPv4Fields_text _ _ Hf) as Ht.
    do 5 (destruct f as [|? f]; try done).
Qed.

(** ** Untrusted peers *)

(** The claim fails on the word verbatim: for the untrusted peer
    "[2001:DB8::1]:80" the resolver returns the canonical text
    "2001:db8::1" of the address, which is neither the transport address
    nor its host part as written. *)
Lemma untrusted_remote_not_returned_verbatim :
  parseRemoteIP "[2001:DB8::1]:80" = Some [32;1;13;184;0;0;0;0;0;0;0;0;0;0;0;1]
  /\ Forall (fun cidr => GoNet.Contains cidr [32;1;13;184;0;0;0;0;0;0;0;0;0;0;0;1] = false)
       (trustSet (envOf "10.0.0.0/8") initialProc)
  /\ hostPart "[2001:DB8::1]:80" = "2001:DB8::1"%string
  /\ (RealClientIPFromRequest IsPrivateIP_std (envOf "10.0.0.0/8")
        (Some (GoHttp.mkRequest "[2001:DB8::1]:80" (headersOf "" "" ""))) initialProc).1
     = "2001:db8::1"%string
  /\ "2001:db8::1"%string <> "2001:DB8::1"%string
  /\ "2001:db8::1"%string <> "[2001:DB8::1]:80"%string.
Proof.
  split; [by vm_compute|]. split.
  { replace (trustSet (envOf "10.0.0.0/8") initialProc)
      with [GoNet.mkIPNet [10; 0; 0; 0] [255; 0; 0; 0]] by (vm_compute; reflexivity).
    apply Forall_cons_2; [vm_compute; reflexivity | apply Forall_nil_2]. }
  split; [by vm_compute|]. split; [by vm_compute|]. split; discriminate.
Qed.

Section SpoofingResistance.

Variable IsPrivateIP : GoNet.IP -> bool.

(** C1, amended: when the remote address parses to an IP that no range of
    the trusted-proxy set contains, the resolver returns that remote IP in
    the text [String] gives it (for a host written as a dotted quad, the
    host as it is written; never the port), and the result, with the
    process state, is the same for any two header sets. *)
Theorem untrusted_remote_ignores_headers env p addr ip h1 h2 :
  parseRemoteIP addr = Some ip ->
  Forall (fun cidr => GoNet.Contains cidr ip = false) (trustSet env p) ->
  fst (RealClientIPFromRequest IsPrivateIP env (Some (GoHttp.mkRequest addr h1)) p)
  = GoNet.String ip
  /\ (forall f, GoNet.parseIPv4Fields (hostPart addr) = Some f ->
        fst (RealClientIPFromRequest IsPrivateIP env (Some (GoHttp.mkRequest addr h1)) p)
        = hostPart addr)
  /\ RealClientIPFromRequest IsPrivateIP env (Some (GoHttp.mkRequest addr h1)) p
     = RealClientIPFromRequest IsPrivateIP env (Some (GoHttp.mkRequest addr h2)) p.
Proof.
  intros Hip Hun. apply isTrustedProxyIP_false in Hun.
  assert (Hres : forall h,
             RealClientIPFromRequest IsPrivateIP env (Some (GoHttp.mkRequest addr h)) p
             = (GoNet.String ip, (isTrustedProxyIP env ip p).2)).
  { intros h. unfold RealClientIPFromRequest. cbn [GoHttp.RemoteAddr GoHttp.Header].
    rewrite Hip. destruct (isTrustedProxyIP env ip p) as [t p1]. simpl in Hun. by subst t. }
  rewrite !Hres. split; [done|]. split; [|done].
  intros f Hf. cbn [fst].
  destruct (dotted_quad_round_trip _ _ Hf) as [Hparse Hstr].
  rewrite parseRemoteIP_hostPart in Hip.
  destruct (isEmpty (hostPart addr)); [done|].
  rewrite Hparse in Hip. injection Hip as <-. exact Hstr.
Qed.

End SpoofingResistance.

(** ** The theorems at concrete inputs *)

(** Untrusted peers, at a request from 203.0.113.7 with only 10.0.0.0/8 trusted: a forged
    X-Forwarded-For changes nothing. *)
Lemma untrusted_remote_ignores_headers_witness :
  parseRemoteIP "203.0.113.7:4711" = Some [0;0;0;0;0;0;0;0;0;0;255;255;203;0;113;7]
  /\ Forall (fun cidr => GoNet.Contains cidr [0;0;0;0;0;0;0;0;0;0;255;255;203;0;113;7] = false)
       (trustSet (envOf "10.0.0.0/8") initialProc)
  /\ (RealClientIPFromRequest IsPrivateIP_std (envOf "10.0.0.0/8")
        (Some (GoHttp.mkRequest "203.0.113.7:4711" (headersOf "198.51.100.1" "" "")))
        initialProc).1
     = GoNet.String [0;0;0;0;0;0;0;0;0;0;255;255;203;0;113;7]
  /\ (forall f, GoNet.parseIPv4Fields (hostPart "203.0.113.7:4711") = Some f ->
        (RealClientIPFromRequest IsPrivateIP_std (envOf "10.0.0.0/8")
           (Some (GoHttp.mkRequest "203.0.113.7:4711" (headersOf "198.51.100.1" "" "")))
           initialProc).1
        = hostPart "203.0.113.7:4711")
  /\ RealClientIPFromRequest IsPrivateIP_std (envOf "10.0.0.0/8")
       (Some (GoHttp.mkRequest "203.0.113.7:4711" (headersOf "198.51.100.1" "" "")))
       initialProc
     = RealClientIPFromRequest IsPrivateIP_std (envOf "10.0.0.0/8")
         (Some (GoHttp.mkRequest "203.0.113.7:4711" (headersOf "" "" "")))
         initialProc.
Proof.
  assert (H1 : parseRemoteIP "203.0.113.7:4711"
               = Some [0;0;0;0;0;0;0;0;0;0;255;255;203;0;113;7])
    by (vm_compute; reflexivity).
  assert (H2 : Forall (fun cidr =>
                 GoNet.Contains cidr [0;0;0;0;0;0;0;0;0;0;255;255;203;0;113;7] = false)
                 (trustSet (envOf "10.0.0.0/8") initialProc)).
  { replace (trustSet (envOf "10.0.0.0/8") initialProc)
      with [GoNet.mkIPNet [10; 0; 0; 0] [255; 0; 0; 0]] by (vm_compute; reflexivity).
    apply Forall_cons_2; [vm_compute; reflexivity | apply Forall_nil_2]. }
  split; [exact H1|]. split; [exact H2|].
  exact (untrusted_remote_ignores_headers IsPrivateIP_std _ _ _ _ _ _ H1 H2).
Defined.

(** Candidate selection at the chain "10.0.0.5, junk, 203.0.113.7, 198.51.100.2": the first
    public entry is the third one. *)
Lemma candidate_selection_witness :
  entries "10.0.0.5, junk, 203.0.113.7, 198.51.100.2"
  = ["10.0.0.5"; "junk"] ++ "203.0.113.7" :: ["198.51.100.2"]
  /\ isPublicEntry IsPrivateIP_std "203.0.113.7" = true
  /\ Forall (fun x => isPublicEntry IsPrivateIP_std x = false) ["10.0.0.5"; "junk"]%string
  /\ pickForwardedIP IsPrivateIP_std "10.0.0.5, junk, 203.0.113.7, 198.51.100.2"
     = "203.0.113.7"%string.
Proof.
  assert (H1 : entries "10.0.0.5, junk, 203.0.113.7, 198.51.100.2"
               = ["10.0.0.5"; "junk"] ++ "203.0.113.7" :: ["198.51.100.2"])
    by (vm_compute; reflexivity).
  assert (H2 : isPublicEntry IsPrivateIP_std "203.0.113.7" = true)
    by (vm_compute; reflexivity).
  assert (H3 : Forall (fun x => isPublicEntry IsPrivateIP_std x = false)
                 ["10.0.0.5"; "junk"]%string).
  { apply Forall_cons_2; [vm_compute; reflexivity|].
    apply Forall_cons_2; [vm_compute; reflexivity | apply Forall_nil_2]. }
  split; [exact H1|]. split; [exact H2|]. split; [exact H3|].
  exact (proj1 (candidate_selection IsPrivateIP_std _) _ _ _ H1 H2 H3).
Defined.

(** Header priority at a request from a trusted peer with X-Forwarded-For empty and
    X-Real-IP set to 198.51.100.9. *)
Lemma trusted_remote_header_priority_witness :
  parseRemoteIP "192.0.2.1:80" = Some [0;0;0;0;0;0;0;0;0;0;255;255;192;0;2;1]
  /\ (isTrustedProxyIP (envOf "") [0;0;0;0;0;0;0;0;0;0;255;255;192;0;2;1] initialProc).1
     = true
  /\ GoHttp.Get (headersOf "" "198.51.100.9" "") "X-Forwarded-For" = EmptyString
  /\ GoHttp.Get (headersOf "" "198.51.100.9" "") "X-Real-IP" = "198.51.100.9"%string
  /\ (RealClientIPFromRequest IsPrivateIP_std (envOf "")
        (Some (GoHttp.mkRequest "192.0.2.1:80" (headersOf "" "198.51.100.9" "")))
        initialProc).1
     = "198.51.100.9"%string.
Proof.
  assert (H1 : parseRemoteIP "192.0.2.1:80"
               = Some [0;0;0;0;0;0;0;0;0;0;255;255;192;0;2;1])
    by (vm_compute; reflexivity).
  assert (H2 : (isTrustedProxyIP (envOf "") [0;0;0;0;0;0;0;0;0;0;255;255;192;0;2;1]
                  initialProc).1 = true) by (vm_compute; reflexivity).
  assert (H3 : GoHttp.Get (headersOf "" "198.51.100.9" "") "X-Forwarded-For" = EmptyString)
    by (vm_compute; reflexivity).
  assert (H4 : GoHttp.Get (headersOf "" "198.51.100.9" "") "X-Real-IP"
               = "198.51.100.9"%string) by (vm_compute; reflexivity).
  split; [exact H1|]. split; [exact H2|]. split; [exact H3|]. split; [exact H4|].
  exact (proj2 (proj2 (proj2
           (trusted_remote_header_priority IsPrivateIP_std (envOf "") initialProc
              "192.0.2.1:80" (headersOf "" "198.51.100.9" "") _ H1 H2))) H3 H4).
Defined.

(** The permissive default at the configuration "not-an-ip, also-bad". *)
Lemma permissive_default_witness :
  trustedProxyOnce initialProc = false
  /\ Forall unparseable (configTokens (envOf "not-an-ip, also-bad"))
  /\ let '(s, p1) := TrustedProxies (envOf "not-an-ip, also-bad") initialProc in
     readSlice (heap p1) s = ["0.0.0.0/0"; "::/0"]%string
     /\ forall ip, length ip = 4%nat \/ length ip = 16%nat ->
          (isTrustedProxyIP (envOf "not-an-ip, also-bad") ip p1).1 = true.
Proof.
  assert (H2 : Forall unparseable (configTokens (envOf "not-an-ip, also-bad"))).
  { replace (configTokens (envOf "not-an-ip, also-bad"))
      with ["not-an-ip"; "also-bad"]%string by (vm_compute; reflexivity).
    apply Forall_cons_2; [split; vm_compute; reflexivity|].
    apply Forall_cons_2; [split; vm_compute; reflexivity | apply Forall_nil_2]. }
  split; [reflexivity|]. split; [exact H2|].
  exact (permissive_default (envOf "not-an-ip, also-bad") initialProc eq_refl (or_intror H2)).
Defined.

(** Unparseable tokens at the configuration "10.0.0.0/8, bogus". *)
Lemma unparseable_tokens_parsed_set_only_witness :
  trustedProxyOnce initialProc = false
  /\ (exists t, t ∈ configTokens (envOf "10.0.0.0/8, bogus") /\ parseable t)
  /\ (exists t, t ∈ configTokens (envOf "10.0.0.0/8, bogus") /\ unparseable t)
  /\ let '(s, p1) := TrustedProxies (envOf "10.0.0.0/8, bogus") initialProc in
     readSlice (heap p1) s = configTokens (envOf "10.0.0.0/8, bogus")
     /\ trustedProxyCIDRs p1
        = (parseProxyCIDRs
             (List.filter parseableb (configTokens (envOf "10.0.0.0/8, bogus")))).1
     /\ forall t, t ∈ configTokens (envOf "10.0.0.0/8, bogus") -> unparseable t ->
          t ∈ readSlice (heap p1) s
          /\ t ∉ List.filter parseableb (configTokens (envOf "10.0.0.0/8, bogus")).
Proof.
  assert (Ht : configTokens (envOf "10.0.0.0/8, bogus") = ["10.0.0.0/8"; "bogus"]%string)
    by (vm_compute; reflexivity).
  assert (H2 : exists t, t ∈ configTokens (envOf "10.0.0.0/8, bogus") /\ parseable t).
  { exists "10.0.0.0/8"%string. rewrite Ht. split; [apply list_elem_of_here|].
    right. vm_compute. discriminate. }
  assert (H3 : exists t, t ∈ configTokens (envOf "10.0.0.0/8, bogus") /\ unparseable t).
  { exists "bogus"%string. rewrite Ht.
    split; [apply list_elem_of_further, list_elem_of_here|].
    split; vm_compute; reflexivity. }
  split; [reflexivity|]. split; [exact H2|]. split; [exact H3|].
  exact (unparseable_tokens_parsed_set_only (envOf "10.0.0.0/8, bogus") initialProc
           eq_refl H2 H3).
Defined.

(** The cache at a request whose X-Forwarded-For changes from 198.51.100.1 to
    198.51.100.77 between the two calls: the second call answers
    198.51.100.1 from the cache. *)
Lemma RealClientIP_idempotent_witness :
  Gin.Get (outCtx (RealClientIP IsPrivateIP_std directClientIP (envOf "")
                     (exampleContext "198.51.100.1") initialProc)) realClientIPKey
  = Some (Gin.AnyString "198.51.100.1")
  /\ "198.51.100.1"%string <> EmptyString
  /\ outIP (RealClientIP IsPrivateIP_std directClientIP (envOf "")
              (exampleContext "198.51.100.1") initialProc) = "198.51.100.1"%string
  /\ outIP (RealClientIP IsPrivateIP_std directClientIP (envOf "")
              (Gin.mkContext (Some (exampleRequest "198.51.100.77"))
                 (Gin.Keys (outCtx (RealClientIP IsPrivateIP_std directClientIP (envOf "")
                                      (exampleContext "198.51.100.1") initialProc))))
              initialProc) = "198.51.100.1"%string
  /\ outCalls (RealClientIP IsPrivateIP_std directClientIP (envOf "")
                 (Gin.mkContext (Some (exampleRequest "198.51.100.77"))
                    (Gin.Keys (outCtx (RealClientIP IsPrivateIP_std directClientIP (envOf "")
                                         (exampleContext "198.51.100.1") initialProc))))
                 initialProc) = [CallGet].
Proof.
  assert (H1 : Gin.Get (outCtx (RealClientIP IsPrivateIP_std directClientIP (envOf "")
                                  (exampleContext "198.51.100.1") initialProc))
                 realClientIPKey
               = Some (Gin.AnyString "198.51.100.1")) by (vm_compute; reflexivity).
  assert (H2 : "198.51.100.1"%string <> EmptyString) by discriminate.
  destruct (proj2 (RealClientIP_idempotent IsPrivateIP_std directClientIP (envOf "")
                     (exampleContext "198.51.100.1") initialProc) _ H1 H2) as [H3 H4].
  split; [exact H1|]. split; [exact H2|]. split; [symmetry; exact H3|].
  rewrite (H4 (Some (exampleRequest "198.51.100.77")) (envOf "") initialProc).
  split; reflexivity.
Defined.

(** A malformed remote address: the transport address "not-an-address". *)
Lemma malformed_remote_yields_empty_witness :
  (hostPart "not-an-address" = EmptyString
   \/ GoNet.ParseIP (hostPart "not-an-address") = None)
  /\ parseRemoteIP "not-an-address" = None
  /\ RealClientIPFromRequest IsPrivateIP_std (envOf "")
       (Some (GoHttp.mkRequest "not-an-address" (headersOf "203.0.113.7" "" "")))
       initialProc
     = (EmptyString, initialProc).
Proof.
  assert (H : hostPart "not-an-address" = EmptyString
              \/ GoNet.ParseIP (hostPart "not-an-address") = None)
    by (right; vm_compute; reflexivity).
  split; [exact H|].
  exact (malformed_remote_yields_empty IsPrivateIP_std (envOf "") initialProc
           "not-an-address" (headersOf "203.0.113.7" "" "") H).
Defined.

(** The round trip at the token "10.1.2.3/8". *)
Lemma accepted_token_round_trip_witness :
  parseProxy "10.1.2.3/8" = inl (GoNet.mkIPNet [10; 0; 0; 0] [255; 0; 0; 0])
  /\ plainToken "10.1.2.3/8"
  /\ exists r,
       tokenRange "10.1.2.3/8" = Some r
       /\ forall ip, validIP ip -> addrIsV4 ip = rangeV4 r ->
            (GoNet.Contains (GoNet.mkIPNet [10; 0; 0; 0] [255; 0; 0; 0]) ip = true
             <-> inside r ip)
            /\ (inside r ip ->
                forall env p, trustedProxyOnce p = false ->
                  "10.1.2.3/8"%string ∈ configTokens env ->
                  (isTrustedProxyIP env ip p).1 = true)
            /\ (~ inside r ip ->
                forall env p, trustedProxyOnce p = false ->
                  configTokens env = ["10.1.2.3/8"%string] ->
                  (isTrustedProxyIP env ip p).1 = false)
            /\ (addrVal ip = rangeLo r - 1 \/ addrVal ip = rangeHi r + 1 ->
                forall env p, trustedProxyOnce p = false ->
                  configTokens env = ["10.1.2.3/8"%string] ->
                  (isTrustedProxyIP env ip p).1 = false).
Proof.
  assert (H1 : parseProxy "10.1.2.3/8" = inl (GoNet.mkIPNet [10; 0; 0; 0] [255; 0; 0; 0]))
    by (vm_compute; reflexivity).
  assert (H2 : plainToken "10.1.2.3/8") by (left; vm_compute; reflexivity).
  split; [exact H1|]. split; [exact H2|].
  exact (accepted_token_round_trip "10.1.2.3/8" _ H1 H2).
Defined.

(** The copy at the first call in a fresh process, the caller overwriting the
    returned slice. *)
Lemma TrustedProxies_returns_copy_witness :
  wfProc initialProc
  /\ let '(s, p1) := TrustedProxies (envOf "10.0.0.0/8") initialProc in
     let p2 := callerWrites p1 s ["0.0.0.0/0"%string] in
     readSlice (heap p2) (trustedProxyList p2) = readSlice (heap p1) (trustedProxyList p1)
     /\ trustedProxyCIDRs p2 = trustedProxyCIDRs p1
     /\ (let '(s', p3) := TrustedProxies (envOf "10.0.0.0/8") p2 in
         readSlice (heap p3) s' = readSlice (heap p1) s)
     /\ (isTrustedProxyIP (envOf "10.0.0.0/8") [203; 0; 113; 7] p2).1
        = (isTrustedProxyIP (envOf "10.0.0.0/8") [203; 0; 113; 7] p1).1.
Proof.
  assert (Hwf : wfProc initialProc) by (intros H; discriminate H).
  split; [exact Hwf|].
  exact (TrustedProxies_returns_copy (envOf "10.0.0.0/8") initialProc
           ["0.0.0.0/0"%string] [203; 0; 113; 7] Hwf).
Defined.

(** * Further properties of the resolver, the log text and the secrets *)

(** ** White space at the ends of a string *)

Lemma string_length_ind (P : string -> Prop) :
  (forall s, (forall t, (String.length t < String.length s)%nat -> P t) -> P s) ->
  forall s, P s.
Proof.
  intros H s. remember (String.length s) as n eqn:Hn. revert s Hn.
  induction n as [n IH] using lt_wf_ind. intros s ->.
  apply H. intros t Ht. by apply (IH (String.length t)).
Qed.

Lemma length_app_string (a b : string) :
  String.length (a +:+ b) = (String.length a + String.length b)%nat.
Proof. induction a as [|c a IH]; [done|]. rewrite append_cons. simpl. by rewrite IH. Qed.

Lemma revOnto_append s acc : revOnto s acc = revString s +:+ acc.
Proof.
  unfold revString. revert acc. induction s as [|c s IH]; intros acc; simpl.
  - by rewrite append_empty_l.
  - rewrite IH, (IH (String c EmptyString)), append_assoc, append_cons, append_empty_l. done.
Qed.

Lemma revString_cons c s : revString (String c s) = revString s +:+ String c EmptyString.
Proof. unfold revString at 1. simpl. apply revOnto_append. Qed.

Lemma revString_append a b : revString (a +:+ b) = revString b +:+ revString a.
Proof.
  induction a as [|c a IH].
  - rewrite append_empty_l. change (revString EmptyString) with EmptyString.
    by rewrite append_empty_r.
  - rewrite append_cons, !revString_cons, IH, append_assoc. done.
Qed.

Lemma revString_involutive s : revString (revString s) = s.
Proof.
  induction s as [|c s IH]; [done|].
  rewrite revString_cons, revString_append, IH. done.
Qed.

Lemma trimLeft_suffix s : exists x, s = x +:+ GoStrings.trimLeft s.
Proof.
  induction s as [s IH] using string_length_ind.
  destruct s as [|c1 s1]; [by exists EmptyString|].
  cbn [GoStrings.trimLeft]. destruct (GoStrings.asciiSpace c1).
  { destruct (IH s1) as [x Hx]; [simpl; lia|].
    exists (String c1 x). rewrite append_cons. congruence. }
  destruct s1 as [|c2 s2]; [by exists EmptyString|].
  destruct (GoStrings.space2 c1 c2).
  { destruct (IH s2) as [x Hx]; [simpl; lia|].
    exists (String c1 (String c2 x)). rewrite !append_cons. congruence. }
  destruct s2 as [|c3 s3]; [by exists EmptyString|].
  destruct (GoStrings.space3 c1 c2 c3); [|by exists EmptyString].
  destruct (IH s3) as [x Hx]; [simpl; lia|].
  exists (String c1 (String c2 (String c3 x))). rewrite !append_cons. congruence.
Qed.

Lemma trimLeftRev_suffix s : exists x, s = x +:+ GoStrings.trimLeftRev s.
Proof.
  induction s as [s IH] using string_length_ind.
  destruct s as [|c1 s1]; [by exists EmptyString|].
  cbn [GoStrings.trimLeftRev]. destruct (GoStrings.asciiSpace c1).
  { destruct (IH s1) as [x Hx]; [simpl; lia|].
    exists (String c1 x). rewrite append_cons. congruence. }
  destruct s1 as [|c2 s2]; [by exists EmptyString|].
  destruct (GoStrings.space2 c2 c1).
  { destruct (IH s2) as [x Hx]; [simpl; lia|].
    exists (String c1 (String c2 x)). rewrite !append_cons. congruence. }
  destruct s2 as [|c3 s3]; [by exists EmptyString|].
  destruct (GoStrings.space3 c3 c2 c1); [|by exists EmptyString].
  destruct (IH s3) as [x Hx]; [simpl; lia|].
  exists (String c1 (String c2 (String c3 x))). rewrite !append_cons. congruence.
Qed.

Lemma trimLeft_length s : (String.length (GoStrings.trimLeft s) <= String.length s)%nat.
Proof.
  destruct (trimLeft_suffix s) as [x Hx]. rewrite Hx at 2. rewrite length_app_string. lia.
Qed.

Lemma trimLeftRev_length s : (String.length (GoStrings.trimLeftRev s) <= String.length s)%nat.
Proof.
  destruct (trimLeftRev_suffix s) as [x Hx]. rewrite Hx at 2. rewrite length_app_string. lia.
Qed.

(** What the scan returns does not start with white space: scanning it
    again changes nothing. *)
Lemma trimLeft_fixed s : GoStrings.trimLeft (GoStrings.trimLeft s) = GoStrings.trimLeft s.
Proof.
  induction s as [s IH] using string_length_ind.
  destruct s as [|c1 s1]; [done|].
  cbn [GoStrings.trimLeft]. destruct (GoStrings.asciiSpace c1) eqn:E1.
  { apply IH. simpl; lia. }
  destruct s1 as [|c2 s2]; [cbn [GoStrings.trimLeft]; by rewrite E1|].
  destruct (GoStrings.space2 c1 c2) eqn:E2.
  { apply IH. simpl; lia. }
  destruct s2 as [|c3 s3]; [cbn [GoStrings.trimLeft]; by rewrite E1, E2|].
  destruct (GoStrings.space3 c1 c2 c3) eqn:E3.
  { apply IH. simpl; lia. }
  cbn [GoStrings.trimLeft]. by rewrite E1, E2, E3.
Qed.

Lemma trimLeftRev_fixed s :
  GoStrings.trimLeftRev (GoStrings.trimLeftRev s) = GoStrings.trimLeftRev s.
Proof.
  induction s as [s IH] using string_length_ind.
  destruct s as [|c1 s1]; [done|].
  cbn [GoStrings.trimLeftRev]. destruct (GoStrings.asciiSpace c1) eqn:E1.
  { apply IH. simpl; lia. }
  destruct s1 as [|c2 s2]; [cbn [GoStrings.trimLeftRev]; by rewrite E1|].
  destruct (GoStrings.space2 c2 c1) eqn:E2.
  { apply IH. simpl; lia. }
  destruct s2 as [|c3 s3]; [cbn [GoStrings.trimLeftRev]; by rewrite E1, E2|].
  destruct (GoStrings.space3 c3 c2 c1) eqn:E3.
  { apply IH. simpl; lia. }
  cbn [GoStrings.trimLeftRev]. by rewrite E1, E2, E3.
Qed.

(** A prefix of a string that does not start with white space does not
    start with white space either. *)
Lemma trimLeft_fixed_prefix p u :
  GoStrings.trimLeft (p +:+ u) = p +:+ u -> GoStrings.trimLeft p = p.
Proof.
  intros H.
  destruct p as [|c1 p1]; [done|].
  rewrite append_cons in H. cbn [GoStrings.trimLeft] in *.
  destruct (GoStrings.asciiSpace c1).
  { pose proof (trimLeft_length (p1 +:+ u)) as Hl. rewrite H in Hl. simpl in Hl. lia. }
  destruct p1 as [|c2 p2]; [done|].
  rewrite append_cons in H.
  destruct (GoStrings.space2 c1 c2).
  { pose proof (trimLeft_length (p2 +:+ u)) as Hl. rewrite H in Hl. simpl in Hl. lia. }
  destruct p2 as [|c3 p3]; [done|].
  rewrite append_cons in H.
  destruct (GoStrings.space3 c1 c2 c3); [|done].
  pose proof (trimLeft_length (p3 +:+ u)) as Hl. rewrite H in Hl. simpl in Hl. lia.
Qed.

Lemma trimRight_prefix t : exists y, t = GoStrings.trimRight t +:+ y.
Proof.
  unfold GoStrings.trimRight.
  destruct (trimLeftRev_suffix (revString t)) as [x Hx].
  exists (revString x).
  rewrite <- revString_append, <- Hx. by rewrite revString_involutive.
Qed.

Lemma trimRight_fixed t : GoStrings.trimRight (GoStrings.trimRight t) = GoStrings.trimRight t.
Proof.
  unfold GoStrings.trimRight. by rewrite revString_involutive, trimLeftRev_fixed.
Qed.

Lemma TrimSpace_substring s : exists x y, s = x +:+ GoStrings.TrimSpace s +:+ y.
Proof.
  unfold GoStrings.TrimSpace.
  destruct (trimLeft_suffix s) as [x Hx].
  destruct (trimRight_prefix (GoStrings.trimLeft s)) as [y Hy].
  exists x, y. by rewrite <- Hy.
Qed.

Lemma TrimSpace_idem s : GoStrings.TrimSpace (GoStrings.TrimSpace s) = GoStrings.TrimSpace s.
Proof.
  unfold GoStrings.TrimSpace.
  destruct (trimRight_prefix (GoStrings.trimLeft s)) as [y Hy].
  assert (Hfix : GoStrings.trimLeft (GoStrings.trimRight (GoStrings.trimLeft s))
                 = GoStrings.trimRight (GoStrings.trimLeft s)).
  { apply (trimLeft_fixed_prefix _ y). rewrite <- Hy. apply trimLeft_fixed. }
  rewrite Hfix. apply trimRight_fixed.
Qed.

Lemma allBytes_append f a b : allBytes f (a +:+ b) = allBytes f a && allBytes f b.
Proof.
  induction a as [|c a IH]; [done|]. rewrite append_cons. simpl. rewrite IH.
  by rewrite andb_assoc.
Qed.

Lemma allBytes_revString f s : allBytes f (revString s) = allBytes f s.
Proof.
  induction s as [|c s IH]; [done|].
  rewrite revString_cons, allBytes_append, IH. simpl. rewrite andb_true_r. apply andb_comm.
Qed.

Lemma trimLeft_plain c s :
  plainByte c = true -> GoStrings.trimLeft (String c s) = String c s.
Proof.
  unfold plainByte. intros [Hlt Hsp%negb_true_iff]%andb_true_iff. apply Z.ltb_lt in Hlt.
  cbn [GoStrings.trimLeft]. rewrite Hsp.
  destruct s as [|c2 s2]; [done|].
  assert (GoStrings.space2 c c2 = false) as ->.
  { unfold GoStrings.space2. destruct (Z.eqb_spec (byteOf c) 194); [lia|done]. }
  destruct s2 as [|c3 s3]; [done|].
  assert (GoStrings.space3 c c2 c3 = false) as ->; [|done].
  unfold GoStrings.space3.
  destruct (Z.eqb_spec (byteOf c) 225); [lia|].
  destruct (Z.eqb_spec (byteOf c) 226); [lia|].
  destruct (Z.eqb_spec (byteOf c) 227); [lia|]. done.
Qed.

Lemma trimLeftRev_plain c s :
  plainByte c = true -> GoStrings.trimLeftRev (String c s) = String c s.
Proof.
  unfold plainByte. intros [Hlt Hsp%negb_true_iff]%andb_true_iff. apply Z.ltb_lt in Hlt.
  cbn [GoStrings.trimLeftRev]. rewrite Hsp.
  destruct s as [|c2 s2]; [done|].
  assert (GoStrings.space2 c2 c = false) as ->.
  { unfold GoStrings.space2.
    destruct (Z.eqb_spec (byteOf c) 133); [lia|].
    destruct (Z.eqb_spec (byteOf c) 160); [lia|]. apply andb_false_r. }
  destruct s2 as [|c3 s3]; [done|].
  assert (GoStrings.space3 c3 c2 c = false) as ->; [|done].
  unfold GoStrings.space3.
  destruct (Z.eqb_spec (byteOf c) 128); [lia|].
  destruct (Z.eqb_spec (byteOf c) 168); [lia|].
  destruct (Z.eqb_spec (byteOf c) 169); [lia|].
  destruct (Z.eqb_spec (byteOf c) 175); [lia|].
  destruct (Z.eqb_spec (byteOf c) 159); [lia|].
  destruct (Z.leb_spec 128 (byteOf c)); [lia|].
  cbn [andb orb]. rewrite !andb_false_r. done.
Qed.

(** A string of ASCII bytes that are not white space is left as it is. *)
Lemma TrimSpace_plain s : allBytes plainByte s = true -> GoStrings.TrimSpace s = s.
Proof.
  intros H. unfold GoStrings.TrimSpace, GoStrings.trimRight.
  assert (Hl : GoStrings.trimLeft s = s).
  { destruct s as [|c s']; [done|]. simpl in H. apply andb_true_iff in H as [H _].
    by apply trimLeft_plain. }
  rewrite Hl.
  assert (Hr : GoStrings.trimLeftRev (revString s) = revString s).
  { pose proof (allBytes_revString plainByte s) as Hrev. rewrite H in Hrev.
    destruct (revString s) as [|c r]; [done|]. simpl in Hrev.
    apply andb_true_iff in Hrev as [Hc _]. by apply trimLeftRev_plain. }
  rewrite Hr. apply revString_involutive.
Qed.

(** ** The tokens of the configuration *)

Lemma FieldsFunc_head f c s : f c = false -> GoStrings.FieldsFunc (String c s) f <> [].
Proof.
  intros Hc. cbn [GoStrings.FieldsFunc]. rewrite Hc.
  destruct s as [|c' s']; [done|]. destruct (f c'); [done|].
  by destruct (GoStrings.FieldsFunc (String c' s') f).
Qed.

Lemma FieldsFunc_append_sep f sep a b :
  f sep = true ->
  GoStrings.FieldsFunc (a +:+ String sep b) f
  = GoStrings.FieldsFunc a f ++ GoStrings.FieldsFunc b f.
Proof.
  intros Hsep. induction a as [|c a IH].
  - rewrite append_empty_l. cbn [GoStrings.FieldsFunc]. by rewrite Hsep.
  - rewrite append_cons. cbn [GoStrings.FieldsFunc]. destruct (f c) eqn:Hc; [exact IH|].
    destruct a as [|c' a'].
    + rewrite append_empty_l in *. rewrite Hsep, IH. done.
    + rewrite append_cons in *. destruct (f c') eqn:Hc'.
      * by rewrite IH.
      * rewrite IH. pose proof (FieldsFunc_head f c' a' Hc') as Hne.
        by destruct (GoStrings.FieldsFunc (String c' a') f).
Qed.

Lemma FieldsFunc_fields f s x :
  x ∈ GoStrings.FieldsFunc s f ->
  x <> EmptyString /\ allBytes (fun c => negb (f c)) x = true.
Proof.
  revert x. induction s as [|c s IH]; intros x Hx.
  - by apply elem_of_nil in Hx.
  - cbn [GoStrings.FieldsFunc] in Hx. destruct (f c) eqn:Hc; [by apply IH|].
    destruct s as [|c' s'].
    { apply list_elem_of_singleton in Hx as ->. split; [done|]. simpl. by rewrite Hc. }
    destruct (f c') eqn:Hc'.
    { apply elem_of_cons in Hx as [->|Hx]; [|by apply IH].
      split; [done|]. simpl. by rewrite Hc. }
    destruct (GoStrings.FieldsFunc (String c' s') f) as [|h t] eqn:Hf.
    { apply list_elem_of_singleton in Hx as ->. split; [done|]. simpl. by rewrite Hc. }
    apply elem_of_cons in Hx as [->|Hx].
    + split; [done|]. simpl. rewrite Hc. simpl. apply IH. left.
    + apply IH. by right.
Qed.

Lemma splitProxyLoop_app l1 l2 :
  splitProxyLoop (l1 ++ l2) = splitProxyLoop l1 ++ splitProxyLoop l2.
Proof.
  induction l1 as [|p l1 IH]; [done|]. simpl.
  destruct (negb (isEmpty (GoStrings.TrimSpace p))); simpl; by rewrite IH.
Qed.

Lemma splitProxyLoop_elem parts t :
  t ∈ splitProxyLoop parts ->
  t <> EmptyString /\ exists part, part ∈ parts /\ t = GoStrings.TrimSpace part.
Proof.
  induction parts as [|p parts IH]; simpl; intros Ht; [by apply elem_of_nil in Ht|].
  destruct (isEmpty (GoStrings.TrimSpace p)) eqn:He; simpl in Ht.
  - destruct (IH Ht) as (? & part & ? & ?). split; [done|]. exists part. split; [by right|done].
  - apply elem_of_cons in Ht as [->|Ht].
    + split; [by apply isEmpty_false|]. exists p. split; [left|done].
    + destruct (IH Ht) as (? & part & ? & ?). split; [done|]. exists part.
      split; [by right|done].
Qed.

(** X1: every token [splitProxyList] returns is non-empty, has no white
    space at either end (trimming it again changes nothing) and contains
    neither [','] nor [';']. *)
Theorem splitProxyList_tokens raw t :
  t ∈ splitProxyList raw ->
  t <> EmptyString
  /\ GoStrings.TrimSpace t = t
  /\ allBytes (fun c => negb (isProxySeparator c)) t = true.
Proof.
  unfold splitProxyList. intros Ht.
  apply splitProxyLoop_elem in Ht as (Hne & part & Hpart & ->).
  split; [done|]. split; [apply TrimSpace_idem|].
  apply FieldsFunc_fields in Hpart as [_ Hall].
  destruct (TrimSpace_substring part) as (x & y & Hxy).
  rewrite Hxy, !allBytes_append in Hall.
  apply andb_true_iff in Hall as [_ Hall]. apply andb_true_iff in Hall as [Hall _].
  exact Hall.
Qed.

(** X2: joining two configuration strings with [','] or with [';'] gives
    the tokens of the first followed by the tokens of the second. *)
Theorem splitProxyList_join a b :
  splitProxyList (a +:+ "," +:+ b) = splitProxyList a ++ splitProxyList b
  /\ splitProxyList (a +:+ ";" +:+ b) = splitProxyList a ++ splitProxyList b.
Proof.
  unfold splitProxyList. split.
  - change ("," +:+ b) with (String "," b).
    rewrite FieldsFunc_append_sep by done. apply splitProxyLoop_app.
  - change (";" +:+ b) with (String ";" b).
    rewrite FieldsFunc_append_sep by done. apply splitProxyLoop_app.
Qed.

(** ** The trust set after the first load *)

Lemma parseProxyCIDRs_lengths tokens :
  (length (parseProxyCIDRs tokens).1 + length (parseProxyCIDRs tokens).2)%nat
  = length tokens.
Proof.
  induction tokens as [|t tokens IH]; [done|]. simpl.
  destruct (parseProxyCIDRs tokens) as [cidrs lg]. simpl in IH.
  destruct (parseProxy t); simpl; lia.
Qed.

Lemma parseProxyCIDRs_elem_inv tokens c :
  c ∈ (parseProxyCIDRs tokens).1 -> exists tok, tok ∈ tokens /\ parseProxy tok = inl c.
Proof.
  induction tokens as [|t tokens IH]; simpl; intros Hc; [by apply elem_of_nil in Hc|].
  destruct (parseProxyCIDRs tokens) as [cidrs lg]. simpl in IH.
  destruct (parseProxy t) as [c'|line] eqn:Ht; simpl in Hc.
  - apply elem_of_cons in Hc as [->|Hc].
    + exists t. split; [left|done].
    + destruct (IH Hc) as (tok & ? & ?). exists tok. split; [by right|done].
  - destruct (IH Hc) as (tok & ? & ?). exists tok. split; [by right|done].
Qed.

Lemma parseProxy_rejects t : parseableb t = false -> parseProxy t = inr (rejectLine t).
Proof.
  intros [Hip Hcidr]%parseableb_false. unfold parseProxy, rejectLine.
  destruct (GoStrings.Contains t "/"); simpl.
  - by rewrite Hcidr.
  - by rewrite Hip.
Qed.

Lemma parseProxyCIDRs_log tokens :
  (parseProxyCIDRs tokens).2
  = map rejectLine (List.filter (fun t => negb (parseableb t)) tokens).
Proof.
  induction tokens as [|t tokens IH]; [done|]. simpl.
  destruct (parseProxyCIDRs tokens) as [cidrs lg]. simpl in IH.
  destruct (parseableb t) eqn:Hp; simpl.
  - apply parseableb_true, parseProxy_accepts in Hp as [c ->]. done.
  - rewrite (parseProxy_rejects t Hp). simpl. by rewrite IH.
Qed.

Lemma loadTrustedProxies_log env p :
  trustedProxyOnce p = false ->
  sysLog (loadTrustedProxies env p) = sysLog p ++ (parseProxyCIDRs (configTokens env)).2.
Proof.
  intros Honce. unfold loadTrustedProxies, configTokens. rewrite Honce.
  set (tokens := splitProxyList _).
  pose proof (readSlice_alloc (heap p) tokens) as Hr1.
  destruct (allocSlice (heap p) tokens) as [l1 h1] eqn:E1. simpl in Hr1.
  assert (Hlen : sliceLen l1 = length tokens).
  { unfold allocSlice in E1. by injection E1 as <- _. }
  rewrite Hlen.
  destruct tokens as [|t tokens'] eqn:Et.
  - cbn [length Nat.eqb]. pose proof (readSlice_alloc h1 defaultProxies) as Hr2.
    destruct (allocSlice h1 defaultProxies) as [l2 h2] eqn:E2. cbn [fst snd] in Hr2.
    rewrite Hr2, defaultProxies_parsed. cbn. done.
  - cbn [length Nat.eqb]. rewrite Hr1.
    destruct (parseProxyCIDRs (t :: tokens')) as [c2 lg2] eqn:Ep.
    cbn [snd]. destruct (length c2 =? 0)%nat eqn:Ec.
    + pose proof (readSlice_alloc h1 defaultProxies) as Hr3.
      destruct (allocSlice h1 defaultProxies) as [l3 h3] eqn:E3. cbn [fst snd] in Hr3.
      rewrite Hr3, defaultProxies_parsed. cbn. by rewrite app_nil_r.
    + done.
Qed.

(** X3: whatever [TRUSTED_PROXIES] holds, the first load sets the once
    flag and leaves a parsed trust set and a raw list that are both
    non-empty; the parsed set has at most as many networks as the raw list
    has entries. *)
Theorem loaded_trust_set_nonempty env p :
  trustedProxyOnce p = false ->
  let p' := loadTrustedProxies env p in
  trustedProxyOnce p' = true
  /\ trustedProxyCIDRs p' <> []
  /\ readSlice (heap p') (trustedProxyList p') <> []
  /\ (length (trustedProxyCIDRs p')
      <= length (readSlice (heap p') (trustedProxyList p')))%nat.
Proof.
  intros Honce p'. split; [apply loadTrustedProxies_once|].
  destruct (loadTrustedProxies_first env p Honce) as (Hraw & Hcidrs & _).
  fold p' in Hraw, Hcidrs. rewrite Hraw, Hcidrs.
  destruct (length (parseProxyCIDRs (configTokens env)).1 =? 0)%nat eqn:E.
  - rewrite defaultProxies_parsed. simpl. split; [done|]. split; [done|]. lia.
  - apply Nat.eqb_neq in E.
    pose proof (parseProxyCIDRs_lengths (configTokens env)) as Hl.
    split; [by destruct (parseProxyCIDRs (configTokens env)).1|].
    split; [destruct (configTokens env); [simpl in E; lia|done]|]. lia.
Qed.

(** X4: the first load hands [SysLog] exactly one line for each configured
    token that parses neither as an IP nor as a CIDR, in the order of the
    tokens, and no other line: [invalid trusted proxy ip: <token>] for a
    token without ['/'], [invalid trusted proxy cidr: <token>, err: invalid
    CIDR address: <token>] otherwise. *)
Theorem rejected_tokens_are_logged env p :
  trustedProxyOnce p = false ->
  sysLog (loadTrustedProxies env p)
  = sysLog p ++ map rejectLine (List.filter (fun t => negb (parseableb t)) (configTokens env)).
Proof.
  intros Honce. rewrite loadTrustedProxies_log by done. by rewrite parseProxyCIDRs_log.
Qed.

(** X5: when at least one configured token parses, an address is reported
    trusted exactly when the network of some configured token contains
    it. *)
Theorem trusted_iff_some_token_contains env p ip :
  trustedProxyOnce p = false ->
  (exists t, t ∈ configTokens env /\ parseable t) ->
  (isTrustedProxyIP env ip p).1 = true
  <-> exists tok c, tok ∈ configTokens env /\ parseProxy tok = inl c
                    /\ GoNet.Contains c ip = true.
Proof.
  intros Honce (t & Ht & Hp).
  destruct (loadTrustedProxies_first env p Honce) as (_ & Hcidrs & _).
  rewrite (parseProxyCIDRs_nonempty _ t Ht Hp) in Hcidrs.
  unfold isTrustedProxyIP. cbn [fst]. rewrite Hcidrs, existsb_exists. split.
  - intros (c & Hc & Hin). apply list_elem_of_In, parseProxyCIDRs_elem_inv in Hc
      as (tok & Htok & Hc). by exists tok, c.
  - intros (tok & c & Htok & Hc & Hin). exists c. split; [|done].
    apply list_elem_of_In. by eapply parseProxyCIDRs_elem.
Qed.

(** X6: if every token of one configuration is a token of another, and the
    first has a token that parses, then every address trusted under the
    first is trusted under the second. *)
Theorem more_tokens_more_trust env1 env2 p q ip :
  trustedProxyOnce p = false -> trustedProxyOnce q = false ->
  (forall t, t ∈ configTokens env1 -> t ∈ configTokens env2) ->
  (exists t, t ∈ configTokens env1 /\ parseable t) ->
  (isTrustedProxyIP env1 ip p).1 = true -> (isTrustedProxyIP env2 ip q).1 = true.
Proof.
  intros Hp Hq Hsub (t & Ht & Hpars) Htrusted.
  destruct (loadTrustedProxies_first env1 p Hp) as (_ & Hc1 & _).
  destruct (loadTrustedProxies_first env2 q Hq) as (_ & Hc2 & _).
  rewrite (parseProxyCIDRs_nonempty _ t Ht Hpars) in Hc1.
  rewrite (parseProxyCIDRs_nonempty _ t (Hsub t Ht) Hpars) in Hc2.
  unfold isTrustedProxyIP in *. cbn [fst] in *. rewrite Hc1 in Htrusted. rewrite Hc2.
  apply existsb_exists in Htrusted as (c & Hc & Hin). apply existsb_exists.
  exists c. split; [|done].
  apply list_elem_of_In, parseProxyCIDRs_elem_inv in Hc as (tok & Htok & Hc).
  apply list_elem_of_In. eapply parseProxyCIDRs_elem; [by apply Hsub|done].
Qed.

(** ** A loaded process *)

Section LoadedProcess.

Variable IsPrivateIP : GoNet.IP -> bool.

(** X7: once the trust configuration is loaded, [RealClientIPFromRequest]
    and [isTrustedProxyIP] leave the process state as it is and do not look
    at the environment again, and what they return depends on the process
    through the parsed trust set only: two loaded processes with the same
    networks give the same results under any two environments. *)
Theorem loaded_process_is_read_only env env' req p q :
  trustedProxyOnce p = true -> trustedProxyOnce q = true ->
  trustedProxyCIDRs p = trustedProxyCIDRs q ->
  (RealClientIPFromRequest IsPrivateIP env req p).2 = p
  /\ (RealClientIPFromRequest IsPrivateIP env req p).1
     = (RealClientIPFromRequest IsPrivateIP env' req q).1
  /\ (forall ip, isTrustedProxyIP env ip p = ((isTrustedProxyIP env' ip q).1, p)).
Proof.
  intros Hp Hq Hpq.
  assert (Hl : forall e, loadTrustedProxies e p = p)
    by (intros e; unfold loadTrustedProxies; by rewrite Hp).
  assert (Hl' : forall e, loadTrustedProxies e q = q)
    by (intros e; unfold loadTrustedProxies; by rewrite Hq).
  assert (Ht : forall ip, isTrustedProxyIP env ip p = ((isTrustedProxyIP env' ip q).1, p)).
  { intros ip. unfold isTrustedProxyIP. rewrite Hl, Hl'. cbn [fst]. by rewrite Hpq. }
  split; [|split; [|exact Ht]].
  - unfold RealClientIPFromRequest. destruct req as [r|]; [|done].
    destruct (parseRemoteIP _) as [ip|]; [|done]. rewrite Ht.
    destruct (isTrustedProxyIP env' ip q).1; [|done].
    by destruct (headerLoop _ _ _).
  - unfold RealClientIPFromRequest. destruct req as [r|]; [|done].
    destruct (parseRemoteIP _) as [ip|]; [|done]. rewrite Ht.
    destruct (isTrustedProxyIP env' ip q) as [b q'] eqn:E. cbn [fst].
    destruct b; [|done]. by destruct (headerLoop _ _ _).
Qed.

End LoadedProcess.

(** ** What the resolver returns *)

Lemma append_nonempty_l (a b : string) : a <> EmptyString -> a +:+ b <> EmptyString.
Proof. destruct a; [done|]. intros _. by rewrite append_cons. Qed.

Lemma decByte_nonempty n : GoNet.decByte n <> EmptyString.
Proof. unfold GoNet.decByte, GoNet.str1. by repeat case_match. Qed.

Lemma appendHex_nonempty x : GoNet.appendHex x <> EmptyString.
Proof. unfold GoNet.appendHex, GoNet.str1. by repeat case_match. Qed.

(** The text of an address is never empty. *)
Lemma String_nonempty ip : GoNet.String ip <> EmptyString.
Proof.
  unfold GoNet.String. destruct (length ip =? 0)%nat; [done|].
  destruct (negb _ && negb _); [done|].
  destruct (GoNet.To4 ip) as [p4|].
  - unfold GoNet.string4. apply append_nonempty_l, decByte_nonempty.
  - unfold GoNet.string6. destruct (GoNet.longestZeroRun _ _ _) as [zs l].
    cbn [GoNet.appendGroups Nat.leb]. destruct (0 =? zs)%nat; [done|].
    cbn [Nat.ltb Nat.leb]. rewrite append_empty_l.
    apply append_nonempty_l, appendHex_nonempty.
Qed.

Lemma ParseIP_empty : GoNet.ParseIP EmptyString = None.
Proof. reflexivity. Qed.

Section ResolverResults.

Variable IsPrivateIP : GoNet.IP -> bool.
Variable ClientIP : Gin.Context -> string.

Lemma isPublicEntry_parses e : isPublicEntry IsPrivateIP e = true -> parsesAsIP e = true.
Proof. unfold isPublicEntry, parsesAsIP. by destruct (GoNet.ParseIP e). Qed.

(** Whatever the searches of [candidateSpec] find parses as an IP, and is
    not the empty string. *)
Lemma candidate_found f headerVal e :
  (forall x, f x = true -> parsesAsIP x = true) ->
  List.find f (entries headerVal) = Some e ->
  e <> EmptyString /\ e ∈ entries headerVal /\ GoNet.ParseIP e <> None.
Proof.
  intros Hf [Hin He%Hf]%find_some. unfold parsesAsIP in He.
  split; [|split].
  - intros ->. by rewrite ParseIP_empty in He.
  - by apply list_elem_of_In.
  - by destruct (GoNet.ParseIP e).
Qed.

Lemma pickForwardedIP_nonempty headerVal :
  pickForwardedIP IsPrivateIP headerVal <> EmptyString ->
  pickForwardedIP IsPrivateIP headerVal ∈ entries headerVal
  /\ GoNet.ParseIP (pickForwardedIP IsPrivateIP headerVal) <> None.
Proof.
  rewrite pickForwardedIP_candidateSpec. unfold candidateSpec.
  destruct (List.find (isPublicEntry IsPrivateIP) (entries headerVal)) as [e|] eqn:E1.
  { intros _. by eapply candidate_found; [apply isPublicEntry_parses|]. }
  destruct (List.find parsesAsIP (entries headerVal)) as [e|] eqn:E2; [|done].
  intros _. by eapply (candidate_found parsesAsIP).
Qed.

Lemma headerLoop_nonempty h names ip :
  headerLoop IsPrivateIP h names = Some ip ->
  ip <> EmptyString /\ exists name, name ∈ names
     /\ ip = pickForwardedIP IsPrivateIP (GoHttp.Get h name).
Proof.
  induction names as [|n names IH]; simpl; [done|].
  destruct (isEmpty (pickForwardedIP IsPrivateIP (GoHttp.Get h n))) eqn:E; simpl.
  - intros H. destruct (IH H) as (? & name & ? & ?). split; [done|].
    exists name. split; [by right|done].
  - intros [= <-]. split; [by apply isEmpty_false|]. exists n. split; [left|done].
Qed.

Lemma resolver_nonempty env r p ip :
  parseRemoteIP (GoHttp.RemoteAddr r) = Some ip ->
  (RealClientIPFromRequest IsPrivateIP env (Some r) p).1 <> EmptyString.
Proof.
  intros Hip. unfold RealClientIPFromRequest. rewrite Hip.
  destruct (isTrustedProxyIP env ip p) as [trusted p1].
  destruct trusted; [|apply String_nonempty].
  destruct (headerLoop _ _ _) as [x|] eqn:E; [|apply String_nonempty].
  by apply headerLoop_nonempty in E as [? _].
Qed.

(** X8: [RealClientIPFromRequest] returns the empty string exactly when
    the request is nil or its remote address does not parse. *)
Theorem resolver_result_empty_iff env req p :
  (RealClientIPFromRequest IsPrivateIP env req p).1 = EmptyString
  <-> match req with
      | None => True
      | Some r => parseRemoteIP (GoHttp.RemoteAddr r) = None
      end.
Proof.
  destruct req as [r|]; [|done].
  destruct (parseRemoteIP (GoHttp.RemoteAddr r)) as [ip|] eqn:Hip.
  - split; [|done]. intros H. by apply (resolver_nonempty env r p ip Hip) in H.
  - unfold RealClientIPFromRequest. by rewrite Hip.
Qed.

(** X9: for a request whose remote address parses, the result is the text
    of the remote IP or else a trimmed entry, itself parsing as an IP, of
    one of the headers X-Forwarded-For, X-Real-IP and CF-Connecting-IP. *)
Theorem trusted_result_is_header_entry_or_peer env r p ip :
  parseRemoteIP (GoHttp.RemoteAddr r) = Some ip ->
  let res := (RealClientIPFromRequest IsPrivateIP env (Some r) p).1 in
  res = GoNet.String ip
  \/ exists name, name ∈ forwardedHeaders
       /\ res ∈ entries (GoHttp.Get (GoHttp.Header r) name)
       /\ GoNet.ParseIP res <> None.
Proof.
  intros Hip res. unfold res, RealClientIPFromRequest. rewrite Hip.
  destruct (isTrustedProxyIP env ip p) as [trusted p1].
  destruct trusted; [|by left].
  destruct (headerLoop _ _ _) as [x|] eqn:E; [|by left].
  right. apply headerLoop_nonempty in E as (Hne & name & Hname & ->).
  exists name. split; [done|].
  by apply pickForwardedIP_nonempty.
Qed.

(** X10: [pickForwardedIP] returns the empty string exactly when no trimmed
    entry of the header value parses as an IP; any other result is one of
    the trimmed entries and parses as an IP. *)
Theorem pickForwardedIP_returns_a_valid_entry headerVal :
  let r := pickForwardedIP IsPrivateIP headerVal in
  (r = EmptyString <-> forall e, e ∈ entries headerVal -> GoNet.ParseIP e = None)
  /\ (r <> EmptyString -> r ∈ entries headerVal /\ GoNet.ParseIP r <> None).
Proof.
  intros r. split; [|apply pickForwardedIP_nonempty].
  split.
  - intros Hr e He. unfold r in Hr.
    rewrite pickForwardedIP_candidateSpec in Hr. unfold candidateSpec in Hr.
    destruct (List.find (isPublicEntry IsPrivateIP) (entries headerVal)) as [x|] eqn:E1.
    { subst x. by eapply candidate_found in E1 as [? _]; [|apply isPublicEntry_parses]. }
    destruct (List.find parsesAsIP (entries headerVal)) as [x|] eqn:E2.
    { subst x. by eapply (candidate_found parsesAsIP) in E2 as [? _]. }
    apply list_elem_of_In in He. pose proof (find_none _ _ E2 e He) as Hn.
    unfold parsesAsIP in Hn. by destruct (GoNet.ParseIP e).
  - intros Hall. destruct (decide (r = EmptyString)) as [|Hne]; [done|].
    destruct (pickForwardedIP_nonempty headerVal Hne) as [Hin Hok].
    by rewrite (Hall _ Hin) in Hok.
Qed.

Lemma fallback_not_cached : CallClientIP ∉ [CallGet].
Proof. intros H. apply list_elem_of_singleton in H. discriminate. Qed.

Lemma fallback_not_stored r :
  CallClientIP ∉ [CallGet; CallRealClientIPFromRequest; CallSet r].
Proof.
  intros H. repeat (apply elem_of_cons in H as [H|H]; [discriminate|]).
  by apply elem_of_nil in H.
Qed.

Lemma fallback_called : CallClientIP ∈ [CallGet; CallRealClientIPFromRequest; CallClientIP].
Proof. do 2 apply list_elem_of_further. apply list_elem_of_here. Qed.

(** The three ways [RealClientIP] returns. *)
Lemma RealClientIP_cases env c p :
  let o := RealClientIP IsPrivateIP ClientIP env c p in
  (exists ip, Gin.Get c realClientIPKey = Some (Gin.AnyString ip) /\ ip <> EmptyString
     /\ o = mkOutcome ip c p [CallGet])
  \/ ((forall ip, Gin.Get c realClientIPKey = Some (Gin.AnyString ip) -> ip = EmptyString)
      /\ exists r p1,
           RealClientIPFromRequest IsPrivateIP env (Gin.ctxRequest c) p = (r, p1)
           /\ ((r <> EmptyString
                /\ o = mkOutcome r (Gin.Set_ c realClientIPKey (Gin.AnyString r)) p1
                        [CallGet; CallRealClientIPFromRequest; CallSet r])
               \/ (r = EmptyString
                   /\ o = mkOutcome (ClientIP c) c p1
                           [CallGet; CallRealClientIPFromRequest; CallClientIP]))).
Proof.
  intros o. unfold o, RealClientIP.
  assert (Hres : forall r p1,
    RealClientIPFromRequest IsPrivateIP env (Gin.ctxRequest c) p = (r, p1) ->
    (r <> EmptyString
     /\ (if negb (isEmpty r)
         then mkOutcome r (Gin.Set_ c realClientIPKey (Gin.AnyString r)) p1
                [CallGet; CallRealClientIPFromRequest; CallSet r]
         else mkOutcome (ClientIP c) c p1
                [CallGet; CallRealClientIPFromRequest; CallClientIP])
        = mkOutcome r (Gin.Set_ c realClientIPKey (Gin.AnyString r)) p1
            [CallGet; CallRealClientIPFromRequest; CallSet r])
    \/ (r = EmptyString
        /\ (if negb (isEmpty r)
            then mkOutcome r (Gin.Set_ c realClientIPKey (Gin.AnyString r)) p1
                   [CallGet; CallRealClientIPFromRequest; CallSet r]
            else mkOutcome (ClientIP c) c p1
                   [CallGet; CallRealClientIPFromRequest; CallClientIP])
           = mkOutcome (ClientIP c) c p1
               [CallGet; CallRealClientIPFromRequest; CallClientIP])).
  { intros r p1 _. destruct (isEmpty r) eqn:Hr; cbn [negb].
    - right. split; [by apply isEmpty_true|done].
    - left. split; [by apply isEmpty_false|done]. }
  destruct (Gin.Get c realClientIPKey) as [[ip|tag]|] eqn:Hget.
  - destruct (isEmpty ip) eqn:Hip; cbn [negb].
    + right. split; [intros ip' [= <-]; by apply isEmpty_true|].
      destruct (RealClientIPFromRequest IsPrivateIP env (Gin.ctxRequest c) p)
        as [r p1] eqn:E.
      exists r, p1. split; [done|]. by apply Hres.
    + left. exists ip. split; [done|]. split; [by apply isEmpty_false|done].
  - right. split; [done|].
    destruct (RealClientIPFromRequest IsPrivateIP env (Gin.ctxRequest c) p)
      as [r p1] eqn:E.
    exists r, p1. split; [done|]. by apply Hres.
  - right. split; [done|].
    destruct (RealClientIPFromRequest IsPrivateIP env (Gin.ctxRequest c) p)
      as [r p1] eqn:E.
    exists r, p1. split; [done|]. by apply Hres.
Qed.

(** X11: [RealClientIP] leaves the request and every key of the context
    but [real_client_ip] as they are; unless it fell back on
    [c.ClientIP()], that key holds the returned string afterwards, which is
    not empty; when it fell back, the context is unchanged and the result
    is what [c.ClientIP()] gave. *)
Theorem RealClientIP_cache_discipline env c p :
  let o := RealClientIP IsPrivateIP ClientIP env c p in
  Gin.ctxRequest (outCtx o) = Gin.ctxRequest c
  /\ (forall k, k <> realClientIPKey -> Gin.Get (outCtx o) k = Gin.Get c k)
  /\ (CallClientIP ∉ outCalls o ->
      Gin.Get (outCtx o) realClientIPKey = Some (Gin.AnyString (outIP o))
      /\ outIP o <> EmptyString)
  /\ (CallClientIP ∈ outCalls o -> outCtx o = c /\ outIP o = ClientIP c).
Proof.
  intros o.
  destruct (RealClientIP_cases env c p)
    as [(ip & Hget & Hne & Ho)|[Hno (r & p1 & Hr & [[Hne Ho]|[He Ho]])]];
    fold o in Ho; rewrite Ho; cbn [outCtx outIP outCalls].
  - split; [done|]. split; [done|]. split; [done|]. intros Hin. by apply fallback_not_cached in Hin.
  - split; [done|]. split.
    { intros k Hk. unfold Gin.Get, Gin.Set_. cbn [Gin.Keys]. by rewrite lookup_insert_ne. }
    split.
    { intros _. split; [|done]. unfold Gin.Get, Gin.Set_. cbn [Gin.Keys].
      by rewrite lookup_insert_eq. }
    intros Hin. by apply fallback_not_stored in Hin.
  - split; [done|]. split; [done|]. split; [|done].
    intros Hn. exfalso. apply Hn, fallback_called.
Qed.

(** X12: [RealClientIP] calls [c.ClientIP()] exactly when the key holds no
    non-empty string and the request is nil or its remote address does not
    parse. *)
Theorem framework_fallback_iff env c p :
  CallClientIP ∈ outCalls (RealClientIP IsPrivateIP ClientIP env c p)
  <-> (forall ip, Gin.Get c realClientIPKey = Some (Gin.AnyString ip) -> ip = EmptyString)
      /\ match Gin.ctxRequest c with
         | None => True
         | Some r => parseRemoteIP (GoHttp.RemoteAddr r) = None
         end.
Proof.
  assert (Hiff : (RealClientIPFromRequest IsPrivateIP env (Gin.ctxRequest c) p).1
                 = EmptyString
                 <-> match Gin.ctxRequest c with
                     | None => True
                     | Some r => parseRemoteIP (GoHttp.RemoteAddr r) = None
                     end).
  { destruct (Gin.ctxRequest c) as [r|]; [|done].
    destruct (parseRemoteIP (GoHttp.RemoteAddr r)) as [ip|] eqn:Hip.
    - split; [|done]. intros H. by apply (resolver_nonempty env r p ip Hip) in H.
    - unfold RealClientIPFromRequest. by rewrite Hip. }
  destruct (RealClientIP_cases env c p)
    as [(ip & Hget & Hne & Ho)|[Hno (r & p1 & Hr & [[Hne Ho]|[He Ho]])]];
    rewrite Ho; cbn [outCalls].
  - split; [intros Hin; by apply fallback_not_cached in Hin|].
    intros [H _]. by apply H in Hget.
  - rewrite Hr in Hiff. cbn [fst] in Hiff.
    split; [intros Hin; by apply fallback_not_stored in Hin|].
    intros [_ H]. by apply Hiff in H.
  - rewrite Hr in Hiff. cbn [fst] in Hiff.
    split; [|intros _; apply fallback_called]. intros _. split; [done|]. by apply Hiff.
Qed.

End ResolverResults.

(** ** The port of the remote address *)

Lemma allBytes_impl (f g : ascii -> bool) s :
  (forall c, f c = true -> g c = true) -> allBytes f s = true -> allBytes g s = true.
Proof.
  intros Hfg. induction s as [|c s IH]; [done|]. simpl.
  intros [Hc Hs]%andb_true_iff. by rewrite (Hfg c Hc), IH.
Qed.

Lemma allBytes_IndexByte f s c :
  allBytes f s = true -> f c = false -> GoStrings.IndexByte s c = None.
Proof.
  intros Hs Hc. induction s as [|c' s IH]; [done|]. simpl in *.
  apply andb_true_iff in Hs as [Hc' Hs].
  destruct (Ascii.eqb_spec c' c) as [->|_]; [congruence|]. by rewrite IH.
Qed.

Lemma LastIndexByte_None s c :
  GoStrings.IndexByte s c = None -> GoStrings.LastIndexByte s c = None.
Proof.
  induction s as [|c' s IH]; [done|]. simpl.
  destruct (Ascii.eqb c' c); [done|].
  destruct (GoStrings.IndexByte s c); [done|]. intros _. by rewrite IH.
Qed.

Lemma LastIndexByte_append s t c :
  GoStrings.IndexByte t c = None ->
  GoStrings.LastIndexByte (s +:+ String c t) c = Some (String.length s).
Proof.
  intros Ht. induction s as [|c' s IH].
  - rewrite append_empty_l. simpl. rewrite (LastIndexByte_None t c Ht).
    by rewrite Ascii.eqb_refl.
  - rewrite append_cons. simpl. by rewrite IH.
Qed.

Lemma prefix_bracket s :
  GoStrings.IndexByte s "[" = None -> String.prefix "[" s = false.
Proof.
  destruct s as [|c s]; [done|]. cbn [GoStrings.IndexByte String.prefix].
  destruct (ascii_dec "[" c) as [<-|_]; [|done].
  by rewrite Ascii.eqb_refl.
Qed.

Lemma SplitHostPort_host_port host port :
  GoStrings.IndexByte host ":" = None -> GoStrings.IndexByte port ":" = None ->
  GoStrings.IndexByte (host +:+ ":" +:+ port) "[" = None ->
  GoStrings.IndexByte (host +:+ ":" +:+ port) "]" = None ->
  GoNet.SplitHostPort (host +:+ ":" +:+ port) = Some (host, port).
Proof.
  intros Hh Hp Hl Hr. unfold GoNet.SplitHostPort.
  change (":" +:+ port) with (String ":" port) in *.
  rewrite (LastIndexByte_append host port ":" Hp), (prefix_bracket _ Hl).
  destruct (IndexByte_append host port ":" Hh) as (_ & Htake & Hdrop).
  cbn zeta. rewrite Htake, Hdrop, Hh, Hl, Hr. done.
Qed.

Lemma SplitHostPort_no_colon s :
  GoStrings.IndexByte s ":" = None -> GoNet.SplitHostPort s = None.
Proof. intros H. unfold GoNet.SplitHostPort. by rewrite (LastIndexByte_None s ":" H). Qed.

Lemma parseIPv4Loop_bytes s : forall first prevDot val digLen fields r,
  GoNet.parseIPv4Loop s first prevDot val digLen fields = Some r ->
  allBytes (fun c => isDigit c || Ascii.eqb c ".") s = true.
Proof.
  induction s as [|c s IH]; intros first prevDot val digLen fields r H; [done|].
  cbn [GoNet.parseIPv4Loop] in H. cbn [allBytes].
  destruct (isDigit c) eqn:Hd.
  - repeat case_match; try discriminate. cbn [orb andb]. by eapply IH.
  - destruct (Ascii.eqb c ".") eqn:Hdot; [|discriminate].
    repeat case_match; try discriminate; cbn [orb andb]; by eapply IH.
Qed.

Lemma isDigit_plain c : isDigit c = true -> plainByte c = true.
Proof.
  unfold isDigit, plainByte, GoStrings.asciiSpace.
  intros [H1%Z.leb_le H2%Z.leb_le]%andb_true_iff.
  apply andb_true_iff. split; [apply Z.ltb_lt; lia|].
  apply negb_true_iff, orb_false_iff. split.
  - apply andb_false_iff. right. apply Z.leb_gt. lia.
  - apply Z.eqb_neq. lia.
Qed.

(** X13: for a dotted-quad host and a port of decimal digits,
    [parseRemoteIP] gives [host:port] the address it gives the bare host:
    the IPv4 address of the quad. *)
Theorem remote_port_is_ignored host port f :
  GoNet.parseIPv4Fields host = Some f -> allBytes isDigit port = true ->
  parseRemoteIP (host +:+ ":" +:+ port) = Some (GoNet.v4InV6Prefix ++ f)
  /\ parseRemoteIP host = Some (GoNet.v4InV6Prefix ++ f).
Proof.
  intros Hf Hport.
  pose proof (parseIPv4Loop_bytes _ _ _ _ _ _ _ Hf) as Hhost.
  destruct (dotted_quad_round_trip host f Hf) as [Hip _].
  assert (Hne : isEmpty host = false).
  { apply isEmpty_false. intros ->. discriminate. }
  assert (Hplain : forall c, isDigit c || Ascii.eqb c "." = true -> plainByte c = true).
  { intros c [Hc|Hc%Ascii.eqb_eq]%orb_true_iff; [by apply isDigit_plain|by subst]. }
  assert (Hcolon : GoStrings.IndexByte host ":" = None).
  { by apply (allBytes_IndexByte _ _ _ Hhost). }
  split.
  - assert (Hall : allBytes (fun c => isDigit c || Ascii.eqb c "." || Ascii.eqb c ":")
                     (host +:+ ":" +:+ port) = true).
    { rewrite !allBytes_append. apply andb_true_iff. split; [|apply andb_true_iff; split].
      - eapply allBytes_impl; [|exact Hhost]. intros c ->. done.
      - done.
      - eapply allBytes_impl; [|exact Hport]. intros c ->. done. }
    assert (Htrim : GoStrings.TrimSpace (host +:+ ":" +:+ port) = host +:+ ":" +:+ port).
    { apply TrimSpace_plain. eapply allBytes_impl; [|exact Hall].
      intros c [Hc|Hc%Ascii.eqb_eq]%orb_true_iff; [by apply Hplain|by subst]. }
    unfold parseRemoteIP. rewrite Htrim.
    rewrite SplitHostPort_host_port; [by rewrite Hne| done | | |].
    + by apply (allBytes_IndexByte _ _ _ Hport).
    + by apply (allBytes_IndexByte _ _ _ Hall).
    + by apply (allBytes_IndexByte _ _ _ Hall).
  - unfold parseRemoteIP.
    rewrite (TrimSpace_plain host) by (eapply allBytes_impl; [exact Hplain|exact Hhost]).
    rewrite (SplitHostPort_no_colon host Hcolon). by rewrite Hne.
Qed.

(** ** Bodies in log lines *)

Lemma takeS_length n s :
  String.length (GoStrings.takeS n s) = Nat.min n (String.length s).
Proof.
  revert s. induction n as [|n IH]; intros s; [done|].
  destruct s as [|c s]; [done|]. simpl. by rewrite IH.
Qed.

Lemma takeS_all n s : (String.length s <= n)%nat -> GoStrings.takeS n s = s.
Proof.
  revert s. induction n as [|n IH]; intros s Hn.
  - destruct s; [done|]. simpl in Hn. lia.
  - destruct s as [|c s]; [done|]. simpl in *. rewrite IH; [done|lia].
Qed.

Lemma takeS_append n a b :
  (n <= String.length a)%nat -> GoStrings.takeS n (a +:+ b) = GoStrings.takeS n a.
Proof.
  revert a. induction n as [|n IH]; intros a Hn; [done|].
  destruct a as [|c a]; [simpl in Hn; lia|].
  rewrite append_cons. simpl in *. rewrite IH; [done|lia].
Qed.

Lemma takeS_takeS n s : GoStrings.takeS n (GoStrings.takeS n s) = GoStrings.takeS n s.
Proof.
  revert s. induction n as [|n IH]; intros s; [done|].
  destruct s as [|c s]; [done|]. simpl. by rewrite IH.
Qed.

Lemma dropS_append a b : GoStrings.dropS (String.length a) (a +:+ b) = b.
Proof. induction a as [|c a IH]; [by destruct b|]. rewrite append_cons. simpl. exact IH. Qed.

(** What [truncateForLog] returns when the text is longer than [max]. *)
Lemma truncateForLog_long s max :
  0 < max < Z.of_nat (String.length s) ->
  Relay.truncateForLog s max = GoStrings.takeS (Z.to_nat max) s +:+ "...(truncated)"
  /\ String.length (GoStrings.takeS (Z.to_nat max) s) = Z.to_nat max.
Proof.
  intros [H0 Hlt]. unfold Relay.truncateForLog.
  destruct (Z.leb_spec max 0); [lia|].
  destruct (Z.leb_spec (Z.of_nat (String.length s)) max); [lia|].
  split; [done|]. rewrite takeS_length. lia.
Qed.

Lemma truncateForLog_short s max :
  0 < max -> Z.of_nat (String.length s) <= max -> Relay.truncateForLog s max = s.
Proof.
  intros H0 Hle. unfold Relay.truncateForLog.
  destruct (Z.leb_spec max 0); [lia|].
  by destruct (Z.leb_spec (Z.of_nat (String.length s)) max); [|lia].
Qed.

(** X14: [truncateForLog] returns the empty string when [max] is not
    positive; its result is never longer than [max] bytes plus the
    fourteen bytes of the marker, nor than the text plus the marker. *)
Theorem truncateForLog_bounded s max :
  (max <= 0 -> Relay.truncateForLog s max = EmptyString)
  /\ Z.of_nat (String.length (Relay.truncateForLog s max)) <= Z.max 0 max + 14
  /\ (String.length (Relay.truncateForLog s max) <= String.length s + 14)%nat.
Proof.
  destruct (Z.leb_spec max 0) as [Hm|Hm].
  { assert (H : Relay.truncateForLog s max = EmptyString).
    { unfold Relay.truncateForLog. by destruct (Z.leb_spec max 0); [|lia]. }
    rewrite H. simpl. split; [done|]. split; lia. }
  split; [lia|].
  destruct (Z.leb_spec (Z.of_nat (String.length s)) max) as [Hs|Hs].
  - rewrite truncateForLog_short by lia. lia.
  - destruct (truncateForLog_long s max) as [-> Hl]; [lia|].
    rewrite length_app_string, Hl. simpl. lia.
Qed.

(** X15: for a positive [max], the first [max] bytes of the result of
    [truncateForLog] are those of the text; a text of at most [max] bytes
    is returned as it is, and for a longer one what follows the first
    [max] bytes is the marker [...(truncated)]. *)
Theorem truncateForLog_keeps_the_first_bytes s max :
  0 < max ->
  GoStrings.takeS (Z.to_nat max) (Relay.truncateForLog s max)
  = GoStrings.takeS (Z.to_nat max) s
  /\ (Z.of_nat (String.length s) <= max -> Relay.truncateForLog s max = s)
  /\ (max < Z.of_nat (String.length s) ->
      GoStrings.dropS (Z.to_nat max) (Relay.truncateForLog s max) = "...(truncated)"%string).
Proof.
  intros H0.
  destruct (Z.leb_spec (Z.of_nat (String.length s)) max) as [Hs|Hs].
  - rewrite truncateForLog_short by lia. split; [done|]. split; [done|lia].
  - destruct (truncateForLog_long s max) as [-> Hl]; [lia|].
    split; [|split; [lia|]].
    + rewrite takeS_append by lia. apply takeS_takeS.
    + intros _. rewrite <- Hl at 1. apply dropS_append.
Qed.

(** X16: truncating a truncated text again, with the same [max], changes
    nothing. *)
Theorem truncateForLog_idempotent s max :
  Relay.truncateForLog (Relay.truncateForLog s max) max = Relay.truncateForLog s max.
Proof.
  destruct (Z.leb_spec max 0) as [Hm|Hm].
  { unfold Relay.truncateForLog. by destruct (Z.leb_spec max 0); [|lia]. }
  destruct (Z.leb_spec (Z.of_nat (String.length s)) max) as [Hs|Hs].
  - by rewrite !truncateForLog_short by (try rewrite truncateForLog_short by lia; lia).
  - destruct (truncateForLog_long s max) as [-> Hl]; [lia|].
    destruct (truncateForLog_long (GoStrings.takeS (Z.to_nat max) s +:+ "...(truncated)") max)
      as [-> _].
    { rewrite length_app_string, Hl. simpl. lia. }
    rewrite takeS_append by lia. by rewrite takeS_takeS.
Qed.

(** ** Remote addresses in brackets *)

Lemma trimRight_plain_last s c :
  plainByte c = true ->
  GoStrings.trimRight (s +:+ String c EmptyString) = s +:+ String c EmptyString.
Proof.
  intros Hc. unfold GoStrings.trimRight.
  rewrite revString_append. change (revString (String c EmptyString)) with (String c EmptyString).
  rewrite append_cons, append_empty_l, (trimLeftRev_plain c _ Hc).
  by rewrite revString_cons, revString_involutive.
Qed.

(** Only the first and the last byte decide whether [strings.TrimSpace]
    removes anything. *)
Lemma TrimSpace_plain_ends c s d :
  plainByte c = true -> plainByte d = true ->
  GoStrings.TrimSpace (String c (s +:+ String d EmptyString))
  = String c (s +:+ String d EmptyString).
Proof.
  intros Hc Hd. unfold GoStrings.TrimSpace. rewrite (trimLeft_plain c _ Hc).
  rewrite <- append_cons. by apply trimRight_plain_last.
Qed.

Lemma string_last_cases s :
  s = EmptyString \/ exists s' c, s = s' +:+ String c EmptyString.
Proof.
  induction s as [|a s IH]; [by left|]. right.
  destruct IH as [->|(s' & c & ->)].
  - by exists EmptyString, a.
  - exists (String a s'), c. by rewrite append_cons.
Qed.

Lemma IndexByte_append_absent s t c :
  GoStrings.IndexByte s c = None ->
  GoStrings.IndexByte (s +:+ t) c = option_map (Nat.add (String.length s)) (GoStrings.IndexByte t c).
Proof.
  intros Hs. induction s as [|a s IH]; [rewrite append_empty_l; by destruct (GoStrings.IndexByte t c)|].
  rewrite append_cons. simpl in *. destruct (Ascii.eqb a c); [done|].
  destruct (GoStrings.IndexByte s c) eqn:E; [done|]. rewrite IH by done.
  by destruct (GoStrings.IndexByte t c).
Qed.

Lemma takeS_length_append a b : GoStrings.takeS (String.length a) (a +:+ b) = a.
Proof. induction a as [|c a IH]; [by destruct b|]. rewrite append_cons. simpl. by rewrite IH. Qed.

Lemma dropS_S n c s : GoStrings.dropS (S n) (String c s) = GoStrings.dropS n s.
Proof. done. Qed.

Lemma SplitHostPort_bracketed h port :
  GoStrings.IndexByte h "[" = None -> GoStrings.IndexByte h "]" = None ->
  allBytes isDigit port = true ->
  GoNet.SplitHostPort ("[" +:+ h +:+ "]:" +:+ port) = Some (h, port).
Proof.
  intros Hl Hr Hport.
  assert (Hpc : forall c, isDigit c = false -> GoStrings.IndexByte port c = None)
    by (intros c Hc; by apply (allBytes_IndexByte _ _ _ Hport)).
  unfold GoNet.SplitHostPort.
  replace ("[" +:+ h +:+ "]:" +:+ port) with (("[" +:+ h +:+ "]") +:+ String ":" port)
    by (by rewrite !append_assoc).
  rewrite (LastIndexByte_append _ port ":" (Hpc ":"%char eq_refl)).
  assert (Hlen : String.length ("[" +:+ h +:+ "]") = S (S (String.length h))).
  { rewrite append_cons, append_empty_l. simpl. rewrite length_app_string. simpl. lia. }
  rewrite Hlen.
  set (hp := ("[" +:+ h +:+ "]") +:+ String ":" port).
  assert (Hhp : hp = String "[" (h +:+ String "]" (String ":" port))).
  { unfold hp. rewrite !append_cons, !append_empty_l, append_assoc. done. }
  assert (Hclose : GoStrings.IndexByte hp "]" = Some (S (String.length h))).
  { rewrite Hhp. cbn [GoStrings.IndexByte]. change (Ascii.eqb "[" "]") with false. cbn iota.
    rewrite (IndexByte_append_absent h _ "]" Hr). cbn [GoStrings.IndexByte].
    rewrite Ascii.eqb_refl. simpl. by rewrite Nat.add_0_r. }
  assert (Hpre : String.prefix "[" hp = true).
  { rewrite Hhp. cbn [String.prefix].
    destruct (ascii_dec "[" "[") as [_|Hn]; [|by destruct Hn].
    by destruct (h +:+ String "]" (String ":" port)). }
  rewrite Hpre, Hclose.
  assert (Hlenhp : String.length hp = S (S (S (String.length h + String.length port)))).
  { rewrite Hhp. simpl. rewrite length_app_string. simpl. lia. }
  rewrite Hlenhp.
  assert (Hne : (S (S (String.length h)) =? S (S (S (String.length h + String.length port))))%nat
                = false) by (apply Nat.eqb_neq; lia).
  rewrite Hne, Nat.eqb_refl.
  assert (Hdrop1 : GoStrings.dropS 1 hp = h +:+ String "]" (String ":" port))
    by (by rewrite Hhp).
  rewrite Hdrop1.
  assert (Hhost : GoStrings.takeS (S (String.length h) - 1) (h +:+ String "]" (String ":" port)) = h).
  { replace (S (String.length h) - 1)%nat with (String.length h) by lia.
    apply takeS_length_append. }
  cbn zeta. rewrite Hhost.
  assert (Hnol : GoStrings.IndexByte (h +:+ String "]" (String ":" port)) "[" = None).
  { rewrite (IndexByte_append_absent h _ "[" Hl). cbn [GoStrings.IndexByte].
    change (Ascii.eqb "]" "[") with false. change (Ascii.eqb ":" "[") with false. cbn iota.
    by rewrite (Hpc "["%char eq_refl). }
  rewrite Hnol.
  assert (Hrest : GoStrings.dropS (S (S (String.length h))) hp = String ":" port).
  { rewrite Hhp, dropS_S.
    change (String "]" (String ":" port)) with (String "]" EmptyString +:+ String ":" port).
    rewrite <- append_assoc.
    replace (S (String.length h)) with (String.length (h +:+ String "]" EmptyString))
      by (rewrite length_app_string; simpl; lia).
    apply dropS_append. }
  rewrite Hrest. cbn [GoStrings.IndexByte]. change (Ascii.eqb ":" "]") with false. cbn iota.
  rewrite (Hpc "]"%char eq_refl).
  assert (Hport' : GoStrings.dropS (S (S (S (String.length h)))) hp = port).
  { rewrite Hhp, dropS_S.
    change (String "]" (String ":" port)) with (String "]" (String ":" EmptyString) +:+ port).
    rewrite <- append_assoc.
    replace (S (S (String.length h)))
      with (String.length (h +:+ String "]" (String ":" EmptyString)))
      by (rewrite length_app_string; simpl; lia).
    apply dropS_append. }
  rewrite Hport'. done.
Qed.

(** X30: for a host without brackets and a port of decimal digits,
    [parseRemoteIP] gives [[host]:port], the form of an IPv6 remote
    address, what [net.ParseIP] gives the host: its address, or nil when
    the host is no IP or carries a zone. *)
Theorem bracketed_remote_port_is_ignored h port :
  GoStrings.IndexByte h "[" = None -> GoStrings.IndexByte h "]" = None ->
  allBytes isDigit port = true ->
  parseRemoteIP ("[" +:+ h +:+ "]:" +:+ port) = GoNet.ParseIP h.
Proof.
  intros Hl Hr Hport.
  assert (Htrim : GoStrings.TrimSpace ("[" +:+ h +:+ "]:" +:+ port)
                  = "[" +:+ h +:+ "]:" +:+ port).
  { rewrite append_cons, append_empty_l.
    destruct (string_last_cases port) as [->|(p' & d & ->)].
    - rewrite append_empty_r.
      change ("]:"%string) with ("]" +:+ String ":" EmptyString).
      rewrite <- append_assoc. by apply TrimSpace_plain_ends.
    - rewrite allBytes_append in Hport. apply andb_true_iff in Hport as [_ Hd].
      simpl in Hd. rewrite andb_true_r in Hd. rewrite <- !append_assoc.
      apply TrimSpace_plain_ends; [done|by apply isDigit_plain]. }
  unfold parseRemoteIP. rewrite Htrim, (SplitHostPort_bracketed h port Hl Hr Hport).
  destruct (isEmpty h) eqn:E; [|done]. apply isEmpty_true in E. by subst.
Qed.

(** ** Hexadecimal text *)

Lemma nibble_cases d : 0 <= d < 16 -> d ∈ seqZ 0 16.
Proof. intros H. apply elem_of_seqZ. lia. Qed.

Lemma hexDigit_lower d : 0 <= d < 16 -> lowerHexByte (GoHex.hexDigit d) = true.
Proof.
  intros H%nibble_cases.
  assert (Hall : forallb (fun d => lowerHexByte (GoHex.hexDigit d)) (seqZ 0 16) = true)
    by (vm_compute; reflexivity).
  rewrite forallb_forall in Hall. by apply Hall, list_elem_of_In.
Qed.

Lemma hexDigit_inj d e :
  0 <= d < 16 -> 0 <= e < 16 -> GoHex.hexDigit d = GoHex.hexDigit e -> d = e.
Proof.
  intros Hd%nibble_cases He%nibble_cases Heq.
  assert (Hall : forallb (fun d => forallb (fun e =>
            implb (Ascii.eqb (GoHex.hexDigit d) (GoHex.hexDigit e)) (d =? e))
            (seqZ 0 16)) (seqZ 0 16) = true) by (vm_compute; reflexivity).
  rewrite forallb_forall in Hall. apply list_elem_of_In, Hall in Hd.
  rewrite forallb_forall in Hd. apply list_elem_of_In, Hd in He.
  rewrite Heq, Ascii.eqb_refl in He. by apply Z.eqb_eq.
Qed.

Lemma nibbles v :
  byteRange v ->
  0 <= Z.shiftr v 4 < 16 /\ 0 <= Z.land v 15 < 16
  /\ v = 16 * Z.shiftr v 4 + Z.land v 15.
Proof.
  intros Hv. unfold byteRange in Hv.
  rewrite Z.shiftr_div_pow2 by lia. change 15 with (Z.ones 4).
  rewrite Z.land_ones by lia. change (2 ^ 4) with 16.
  pose proof (Z.div_mod v 16). pose proof (Z.mod_pos_bound v 16).
  assert (0 <= v / 16) by (apply Z.div_pos; lia).
  assert (v / 16 < 16) by (apply Z.div_lt_upper_bound; lia).
  lia.
Qed.

Lemma EncodeToString_length src :
  String.length (GoHex.EncodeToString src) = (2 * length src)%nat.
Proof. induction src as [|v src IH]; [done|]. simpl. rewrite IH. lia. Qed.

Lemma EncodeToString_lower src :
  Forall byteRange src -> allBytes lowerHexByte (GoHex.EncodeToString src) = true.
Proof.
  induction 1 as [|v src Hv _ IH]; [done|].
  destruct (nibbles v Hv) as (H1 & H2 & _).
  cbn [GoHex.EncodeToString allBytes]. by rewrite !hexDigit_lower, IH.
Qed.

Lemma EncodeToString_inj a b :
  Forall byteRange a -> Forall byteRange b ->
  GoHex.EncodeToString a = GoHex.EncodeToString b -> a = b.
Proof.
  intros Ha. revert b. induction Ha as [|v a Hv _ IH]; intros b Hb Heq.
  - by destruct b.
  - destruct Hb as [|u b Hu Hb]; [done|].
    cbn [GoHex.EncodeToString] in Heq. injection Heq as H1 H2 Hrest.
    destruct (nibbles v Hv) as (Hv1 & Hv2 & Hveq).
    destruct (nibbles u Hu) as (Hu1 & Hu2 & Hueq).
    apply hexDigit_inj in H1; [|done..]. apply hexDigit_inj in H2; [|done..].
    f_equal; [lia|by apply IH].
Qed.

Lemma lowerHex_plain c : lowerHexByte c = true -> plainByte c = true.
Proof.
  unfold lowerHexByte. intros [Hc|Hc]%orb_true_iff; [by apply isDigit_plain|].
  apply andb_true_iff in Hc as [H1%Z.leb_le H2%Z.leb_le].
  unfold plainByte, GoStrings.asciiSpace.
  apply andb_true_iff. split; [apply Z.ltb_lt; lia|].
  apply negb_true_iff, orb_false_iff. split.
  - apply andb_false_iff. right. apply Z.leb_gt. lia.
  - apply Z.eqb_neq. lia.
Qed.

(** Hexadecimal text has no white space to trim. *)
Lemma TrimSpace_hex src :
  Forall byteRange src ->
  GoStrings.TrimSpace (GoHex.EncodeToString src) = GoHex.EncodeToString src.
Proof.
  intros H. apply TrimSpace_plain.
  eapply allBytes_impl; [exact lowerHex_plain|by apply EncodeToString_lower].
Qed.

(** ** The secrets *)

Lemma nextRandom_bytes w n :
  length (Model.nextRandom w n) = n /\ Forall byteRange (Model.nextRandom w n).
Proof.
  unfold Model.nextRandom. split; [by rewrite length_map, length_seq|].
  apply Forall_forall. intros x (i & -> & _)%list_elem_of_fmap.
  unfold byteRange. pose proof (Z.mod_pos_bound (Model.random w i) 256). lia.
Qed.

(** X17: when the random source works, [generateSecretHex] returns a text
    of twice [byteLen] lower-case hexadecimal digits (the empty text when
    [byteLen] is not positive), takes [byteLen] bytes from the random
    source and leaves the table as it is. *)
Theorem generateSecretHex_shape byteLen w :
  Model.randErr w = None ->
  exists s w',
    Model.generateSecretHex byteLen w = (inl s, w')
    /\ Z.of_nat (String.length s) = 2 * Z.max 0 byteLen
    /\ allBytes lowerHexByte s = true
    /\ Model.options w' = Model.options w
    /\ Model.randomPos w' = (Model.randomPos w + Z.to_nat byteLen)%nat.
Proof.
  intros Hr. unfold Model.generateSecretHex.
  destruct (Z.leb_spec byteLen 0) as [Hn|Hn].
  - exists EmptyString, w. cbn. repeat split; try done; lia.
  - unfold Model.bind, Model.randRead. rewrite Hr. cbn.
    destruct (nextRandom_bytes w (Z.to_nat byteLen)) as [Hl Hb].
    eexists _, _. split; [reflexivity|]. cbn.
    rewrite EncodeToString_length, Hl. split; [lia|].
    split; [by apply EncodeToString_lower|done].
Qed.

(** X18: two calls of [generateSecretHex] that return the same secret
    were given the same random bytes: different bytes give different
    secrets. *)
Theorem generateSecretHex_injective byteLen w1 w2 s w1' w2' :
  0 < byteLen ->
  Model.generateSecretHex byteLen w1 = (inl s, w1') ->
  Model.generateSecretHex byteLen w2 = (inl s, w2') ->
  Model.nextRandom w1 (Z.to_nat byteLen) = Model.nextRandom w2 (Z.to_nat byteLen).
Proof.
  intros Hn. unfold Model.generateSecretHex, Model.bind, Model.randRead, Model.ret.
  destruct (Z.leb_spec byteLen 0) as [|_]; [lia|].
  destruct (Model.randErr w1); [discriminate|].
  destruct (Model.randErr w2); [discriminate|].
  intros [= <- _] [= Heq _].
  symmetry. apply EncodeToString_inj; [apply nextRandom_bytes..|done].
Qed.

(** *** A database that works undisturbed *)

Section SecretsQuiet.
Import Model.

Lemma quiet_run env w :
  quiet w ->
  let sS := envSecret env "SESSION_SECRET" in
  let cS := envSecret env "CRYPTO_SECRET" in
  let G := GoHex.EncodeToString (nextRandom w 32) in
  let fromDb := match options w !! optionKeySessionSecret with
                | Some v => negb (isEmpty (GoStrings.TrimSpace v))
                | None => false
                end in
  let sess := if negb (isEmpty sS) then sS
              else match options w !! optionKeySessionSecret with
                   | Some v => if negb (isEmpty (GoStrings.TrimSpace v))
                               then GoStrings.TrimSpace v else G
                   | None => G
                   end in
  let t1 := if negb (isEmpty sS) then <[optionKeySessionSecret := sS]> (options w)
            else match options w !! optionKeySessionSecret with
                 | Some v => options w
                 | None => <[optionKeySessionSecret := G]> (options w)
                 end in
  let crypto := if negb (isEmpty cS) then cS
                else match options w !! optionKeyCryptoSecret with
                     | Some v => if negb (isEmpty (GoStrings.TrimSpace v))
                                 then GoStrings.TrimSpace v else sess
                     | None => sess
                     end in
  let t2 := if negb (isEmpty cS) then <[optionKeyCryptoSecret := cS]> t1 else t1 in
  let pos1 := if negb (isEmpty sS) || fromDb then randomPos w
              else (randomPos w + 32)%nat in
  let line := if negb (isEmpty sS) then "SESSION_SECRET loaded from environment"
              else if fromDb then "SESSION_SECRET loaded from database options"
              else "SESSION_SECRET was not set; generated and stored in database options" in
  EnsurePersistentSecrets env w
  = (inl tt, mkWorld t2 [] (random w) pos1 None sess crypto (secretsLog w ++ [line%string])).
Proof.
  intros [Hsch Hr].
  destruct w as [opts sch rnd pos rerr S C lg]. cbn in Hsch, Hr. subst.
  unfold EnsurePersistentSecrets, envSecret.
  cbn [options randomPos random secretsLog].
  set (sS := GoStrings.TrimSpace (Getenv env "SESSION_SECRET")).
  set (cS := GoStrings.TrimSpace (Getenv env "CRYPTO_SECRET")).
  set (w := mkWorld opts [] rnd pos None S C lg).
  assert (HG : GoStrings.TrimSpace (GoHex.EncodeToString (nextRandom w 32))
               = GoHex.EncodeToString (nextRandom w 32)).
  { apply TrimSpace_hex, nextRandom_bytes. }
  assert (HGne : isEmpty (GoHex.EncodeToString (nextRandom w 32)) = false).
  { unfold isEmpty. rewrite EncodeToString_length.
    by rewrite (proj1 (nextRandom_bytes w 32)). }
  unfold resolveSessionSecret, resolveCryptoSecret.
  destruct (isEmpty sS) eqn:Hs; cbn [negb orb].
  all: destruct (isEmpty cS) eqn:Hc; cbn [negb].
  all: destruct (opts !! optionKeySessionSecret) as [v|] eqn:Hv.
  all: try destruct (isEmpty (GoStrings.TrimSpace v)) eqn:Hvb; cbn [negb].
  all: destruct (opts !! optionKeyCryptoSecret) as [u|] eqn:Hu.
  all: try destruct (isEmpty (GoStrings.TrimSpace u)) eqn:Hub; cbn [negb].
  all: unfold w in *.
  all: repeat first
         [ progress unfold bind, ret, getOptionValue, upsertOption,
             storeSessionSecretIfAbsent, dbStatement, readOptions, writeOptions,
             withOptions, setSessionSecret, setCryptoSecret, SysLog, generateSecretHex,
             randRead
         | progress cbn -[GoStrings.TrimSpace GoHex.EncodeToString nextRandom]
         | rewrite Hs | rewrite Hc | rewrite Hv | rewrite Hu | rewrite Hvb | rewrite Hub
         | progress change (Z.to_nat 32) with 32%nat
         | rewrite HG | rewrite HGne
         | rewrite lookup_insert_eq
         | rewrite lookup_insert_ne by done ].
  all: reflexivity.
Qed.

Lemma sessionKey_not_cryptoKey : optionKeySessionSecret <> optionKeyCryptoSecret.
Proof. done. Qed.

(** X19: with a [SESSION_SECRET] in the environment that is not blank, and
    a database that works undisturbed, [EnsurePersistentSecrets] sets
    [common.SessionSecret] to the trimmed value, stores that value in the
    row [SessionSecret] whatever the row held, and draws no random
    bytes. *)
Theorem session_secret_from_environment env w :
  envSecret env "SESSION_SECRET" <> EmptyString -> quiet w ->
  exists w',
    EnsurePersistentSecrets env w = (inl tt, w')
    /\ SessionSecret w' = envSecret env "SESSION_SECRET"
    /\ options w' !! optionKeySessionSecret = Some (envSecret env "SESSION_SECRET")
    /\ randomPos w' = randomPos w.
Proof.
  intros Hs%isEmpty_false Hq. eexists. split; [by apply quiet_run|].
  cbn [SessionSecret options randomPos]. rewrite !Hs. cbn [negb orb].
  split; [done|]. split; [|done].
  destruct (negb (isEmpty (envSecret env "CRYPTO_SECRET"))).
  - rewrite lookup_insert_ne by done. by rewrite lookup_insert_eq.
  - by rewrite lookup_insert_eq.
Qed.

(** X20: with no [SESSION_SECRET] in the environment and a stored value
    that is not blank, [common.SessionSecret] becomes the stored value
    trimmed; the row is left as it is and no random bytes are drawn. *)
Theorem session_secret_from_database env w v :
  envSecret env "SESSION_SECRET" = EmptyString -> quiet w ->
  options w !! optionKeySessionSecret = Some v -> GoStrings.TrimSpace v <> EmptyString ->
  exists w',
    EnsurePersistentSecrets env w = (inl tt, w')
    /\ SessionSecret w' = GoStrings.TrimSpace v
    /\ options w' !! optionKeySessionSecret = Some v
    /\ randomPos w' = randomPos w.
Proof.
  intros Hs%isEmpty_true Hq Hv Hvb%isEmpty_false. eexists. split; [by apply quiet_run|].
  cbn [SessionSecret options randomPos]. rewrite !Hs, !Hv, !Hvb. cbn [negb orb].
  split; [done|]. split; [|done].
  destruct (negb (isEmpty (envSecret env "CRYPTO_SECRET"))); [|done].
  by rewrite lookup_insert_ne by done.
Qed.

(** X21: with no [SESSION_SECRET] in the environment and no row in the
    table, [common.SessionSecret] becomes a new secret of 64 hexadecimal
    digits made of the next 32 random bytes, and the row holds it
    afterwards. *)
Theorem session_secret_generated_and_stored env w :
  envSecret env "SESSION_SECRET" = EmptyString -> quiet w ->
  options w !! optionKeySessionSecret = None ->
  exists w',
    EnsurePersistentSecrets env w = (inl tt, w')
    /\ SessionSecret w' = GoHex.EncodeToString (nextRandom w 32)
    /\ String.length (SessionSecret w') = 64%nat
    /\ options w' !! optionKeySessionSecret = Some (SessionSecret w')
    /\ randomPos w' = (randomPos w + 32)%nat.
Proof.
  intros Hs%isEmpty_true Hq Hv. eexists. split; [by apply quiet_run|].
  cbn [SessionSecret options randomPos]. rewrite !Hs, !Hv. cbn [negb orb].
  split; [done|]. split.
  { rewrite EncodeToString_length. by rewrite (proj1 (nextRandom_bytes w 32)). }
  split; [|done].
  destruct (negb (isEmpty (envSecret env "CRYPTO_SECRET"))).
  - rewrite lookup_insert_ne by done. by rewrite lookup_insert_eq.
  - by rewrite lookup_insert_eq.
Qed.

(** X22: with no [SESSION_SECRET] in the environment and a row that holds
    white space only, [common.SessionSecret] becomes a new secret and the
    row is left as it is; the line logged is [SESSION_SECRET was not set;
    generated and stored in database options]. *)
Theorem blank_row_keeps_generated_secret_out env w v :
  envSecret env "SESSION_SECRET" = EmptyString -> quiet w ->
  options w !! optionKeySessionSecret = Some v -> GoStrings.TrimSpace v = EmptyString ->
  exists w',
    EnsurePersistentSecrets env w = (inl tt, w')
    /\ SessionSecret w' = GoHex.EncodeToString (nextRandom w 32)
    /\ options w' !! optionKeySessionSecret = Some v
    /\ secretsLog w'
       = secretsLog w
         ++ ["SESSION_SECRET was not set; generated and stored in database options"%string].
Proof.
  intros Hs%isEmpty_true Hq Hv Hvb%isEmpty_true. eexists. split; [by apply quiet_run|].
  cbn [SessionSecret options secretsLog]. rewrite !Hs, !Hv, !Hvb. cbn [negb orb].
  split; [done|]. split; [|done].
  destruct (negb (isEmpty (envSecret env "CRYPTO_SECRET"))); [|done].
  by rewrite lookup_insert_ne by done.
Qed.

(** X23: with a database that works undisturbed, [common.CryptoSecret] is
    the trimmed [CRYPTO_SECRET] of the environment when that is not blank,
    and the row [CryptoSecret] is set to it; otherwise the row is left as
    it is, and [common.CryptoSecret] is the stored value trimmed when that
    is not blank, and [common.SessionSecret] when there is no row or a
    blank one. *)
Theorem crypto_secret_precedence env w :
  quiet w ->
  exists w',
    EnsurePersistentSecrets env w = (inl tt, w')
    /\ (envSecret env "CRYPTO_SECRET" <> EmptyString ->
        CryptoSecret w' = envSecret env "CRYPTO_SECRET"
        /\ options w' !! optionKeyCryptoSecret = Some (envSecret env "CRYPTO_SECRET"))
    /\ (envSecret env "CRYPTO_SECRET" = EmptyString ->
        options w' !! optionKeyCryptoSecret = options w !! optionKeyCryptoSecret
        /\ (forall v, options w !! optionKeyCryptoSecret = Some v ->
               GoStrings.TrimSpace v <> EmptyString -> CryptoSecret w' = GoStrings.TrimSpace v)
        /\ (blankRow (options w) optionKeyCryptoSecret ->
            CryptoSecret w' = SessionSecret w')).
Proof.
  intros Hq. eexists. split; [by apply quiet_run|].
  cbn [SessionSecret CryptoSecret options]. split.
  - intros Hc%isEmpty_false. rewrite !Hc. cbn [negb]. split; [done|].
    by rewrite lookup_insert_eq.
  - intros Hc%isEmpty_true. rewrite !Hc. cbn [negb]. split; [|split].
    + destruct (negb (isEmpty (envSecret env "SESSION_SECRET"))).
      * by rewrite lookup_insert_ne by done.
      * destruct (options w !! optionKeySessionSecret); [done|].
        by rewrite lookup_insert_ne by done.
    + intros v Hv Hvb%isEmpty_false. by rewrite Hv, Hvb.
    + unfold blankRow. destruct (options w !! optionKeyCryptoSecret) as [v|]; [|done].
      intros Hvb%isEmpty_true. by rewrite Hvb.
Qed.

End SecretsQuiet.

(** *** Starting again, and failures *)

Section SecretsRestart.
Import Model.

Lemma envSecret_trimmed env name :
  GoStrings.TrimSpace (envSecret env name) = envSecret env name.
Proof. apply TrimSpace_idem. Qed.

Lemma restart_quiet w s c : quiet w -> quiet (restart w s c).
Proof. by intros [? ?]. Qed.

(** X24: after a run with a database that works undisturbed, started with
    a [SESSION_SECRET] in the environment or with a table whose row
    [SessionSecret] is absent or not blank, a later start without either
    variable in the environment sets both secrets to the values of the
    first run. *)
Theorem secrets_survive_restart env env' w s0 c0 :
  quiet w ->
  (envSecret env "SESSION_SECRET" <> EmptyString
   \/ forall v, options w !! optionKeySessionSecret = Some v ->
                GoStrings.TrimSpace v <> EmptyString) ->
  envSecret env' "SESSION_SECRET" = EmptyString ->
  envSecret env' "CRYPTO_SECRET" = EmptyString ->
  exists w1 w2,
    EnsurePersistentSecrets env w = (inl tt, w1)
    /\ EnsurePersistentSecrets env' (restart w1 s0 c0) = (inl tt, w2)
    /\ SessionSecret w2 = SessionSecret w1
    /\ CryptoSecret w2 = CryptoSecret w1.
Proof.
  intros Hq Hrow Hs'%isEmpty_true Hc'%isEmpty_true.
  pose proof (quiet_run env w Hq) as Hrun1. cbv zeta in Hrun1.
  eexists. eexists. split; [exact Hrun1|].
  split; [apply quiet_run, restart_quiet; by split|].
  cbn [restart SessionSecret CryptoSecret options]. rewrite !Hs', !Hc'. cbn [negb].
  set (G := GoHex.EncodeToString (nextRandom w 32)).
  assert (HG : GoStrings.TrimSpace G = G) by (apply TrimSpace_hex, nextRandom_bytes).
  assert (HGne : isEmpty G = false).
  { unfold isEmpty, G. rewrite EncodeToString_length.
    by rewrite (proj1 (nextRandom_bytes w 32)). }
  pose proof (envSecret_trimmed env "SESSION_SECRET") as HtS.
  pose proof (envSecret_trimmed env "CRYPTO_SECRET") as HtC.
  destruct (isEmpty (envSecret env "SESSION_SECRET")) eqn:Hs; cbn [negb];
    destruct (isEmpty (envSecret env "CRYPTO_SECRET")) eqn:Hc; cbn [negb].
  - (* neither secret in the environment *)
    destruct Hrow as [Hrow|Hrow]; [by apply isEmpty_false in Hrow; congruence|].
    destruct (options w !! optionKeySessionSecret) as [v|] eqn:Hv.
    + pose proof (Hrow v eq_refl) as Hvb%isEmpty_false. rewrite Hv, !Hvb. cbn [negb].
      split; [done|]. by destruct (options w !! optionKeyCryptoSecret).
    + rewrite lookup_insert_eq, HG, HGne. cbn [negb].
      rewrite lookup_insert_ne by done. split; [done|].
      by destruct (options w !! optionKeyCryptoSecret).
  - destruct Hrow as [Hrow|Hrow]; [by apply isEmpty_false in Hrow; congruence|].
    rewrite lookup_insert_eq, HtC, Hc. cbn [negb].
    destruct (options w !! optionKeySessionSecret) as [v|] eqn:Hv.
    + pose proof (Hrow v eq_refl) as Hvb%isEmpty_false.
      rewrite lookup_insert_ne by done. by rewrite Hv, !Hvb.
    + rewrite lookup_insert_ne by done. by rewrite lookup_insert_eq, HG, HGne.
  - rewrite lookup_insert_eq, HtS, Hs. cbn [negb].
    rewrite lookup_insert_ne by done. split; [done|].
    by destruct (options w !! optionKeyCryptoSecret).
  - rewrite lookup_insert_eq, HtC, Hc. cbn [negb].
    rewrite lookup_insert_ne by done. by rewrite lookup_insert_eq, HtS, Hs.
Qed.

(** X25: while the row [SessionSecret] holds white space only and the
    environment gives no secret, each start makes its secret of the next
    32 random bytes: two successive starts have the same session secret
    only if the random source repeats its bytes. *)
Theorem blank_row_gives_a_new_secret_at_each_start env env' w v s0 c0 :
  quiet w ->
  envSecret env "SESSION_SECRET" = EmptyString ->
  envSecret env' "SESSION_SECRET" = EmptyString ->
  options w !! optionKeySessionSecret = Some v -> GoStrings.TrimSpace v = EmptyString ->
  exists w1 w2,
    EnsurePersistentSecrets env w = (inl tt, w1)
    /\ EnsurePersistentSecrets env' (restart w1 s0 c0) = (inl tt, w2)
    /\ SessionSecret w1 = GoHex.EncodeToString (nextRandom w 32)
    /\ SessionSecret w2 = GoHex.EncodeToString (nextRandom w1 32)
    /\ randomPos w1 = (randomPos w + 32)%nat
    /\ (SessionSecret w2 = SessionSecret w1 <-> nextRandom w1 32 = nextRandom w 32).
Proof.
  intros Hq Hs%isEmpty_true Hs'%isEmpty_true Hv Hvb%isEmpty_true.
  pose proof (quiet_run env w Hq) as Hrun1. cbv zeta in Hrun1.
  rewrite !Hs, !Hv, !Hvb in Hrun1. cbn [negb orb] in Hrun1.
  eexists. eexists. split; [exact Hrun1|].
  split; [apply quiet_run, restart_quiet; by split|].
  cbn [restart SessionSecret options randomPos]. rewrite !Hs'. cbn [negb orb].
  assert (Hrow : forall t, (if negb (isEmpty (envSecret env "CRYPTO_SECRET"))
                            then <[optionKeyCryptoSecret := t]> (options w) else options w)
                           !! optionKeySessionSecret = Some v).
  { intros t. destruct (negb _); [|done]. by rewrite lookup_insert_ne by done. }
  rewrite !Hrow, !Hvb. cbn [negb].
  split; [done|]. split; [done|]. split; [done|].
  split.
  - intros Heq. apply EncodeToString_inj in Heq; [exact Heq|apply nextRandom_bytes..].
  - intros Heq. f_equal. exact Heq.
Qed.


(** X27: every run sends at least one statement to the database; when the
    database reports an error for the first one,
    [EnsurePersistentSecrets] returns that error, has written nothing to
    the table and has logged nothing. *)
Theorem database_error_is_returned env w f e rest :
  schedule w = mkStep f (Some e) :: rest ->
  exists w',
    EnsurePersistentSecrets env w = (inr e, w')
    /\ options w' = f (options w)
    /\ schedule w' = rest
    /\ secretsLog w' = secretsLog w.
Proof.
  intros Hsch.
  destruct w as [opts sch rnd pos rerr S C lg]. cbn in Hsch. subst.
  unfold EnsurePersistentSecrets, resolveSessionSecret, resolveCryptoSecret.
  destruct (isEmpty (GoStrings.TrimSpace (Getenv env "SESSION_SECRET"))); cbn [negb];
    destruct (isEmpty (GoStrings.TrimSpace (Getenv env "CRYPTO_SECRET"))); cbn [negb].
  all: unfold bind, ret, getOptionValue, upsertOption, dbStatement, readOptions,
         setSessionSecret, setCryptoSecret.
  all: cbn -[GoStrings.TrimSpace].
  all: eexists; split; [reflexivity|]; done.
Qed.

End SecretsRestart.

(** *** Other clients of the database *)

Section SecretsScheduled.
Import Model.

Lemma faultFree_afterStatement w : faultFree w -> faultFree (afterStatement w).
Proof.
  unfold faultFree, afterStatement. cbn [schedule withOptions].
  destruct (schedule w); [done|]. by intros [_ ?]%Forall_cons.
Qed.

Lemma dbStatement_run w : faultFree w -> dbStatement w = (inl tt, afterStatement w).
Proof.
  unfold faultFree, dbStatement, afterStatement, tableAtNextStatement.
  destruct w as [opts sch rnd pos rerr S C lg]. cbn.
  destruct sch as [|st rest]; [done|]. intros [-> _]%Forall_cons. done.
Qed.

Lemma getOptionValue_run key w :
  faultFree w ->
  getOptionValue key w
  = (inl match options (afterStatement w) !! key with
         | Some v => (v, true)
         | None => (EmptyString, false)
         end, afterStatement w).
Proof.
  intros H. unfold getOptionValue, bind. rewrite (dbStatement_run w H).
  unfold readOptions, ret. by destruct (options (afterStatement w) !! key).
Qed.

Lemma upsertOption_run key value w :
  faultFree w ->
  upsertOption key value w
  = (inl tt, withOptions (<[key := value]> (options (afterStatement w)))
               (schedule (afterStatement w)) (afterStatement w)).
Proof.
  intros H. unfold upsertOption, bind. by rewrite (dbStatement_run w H).
Qed.

Lemma storeSessionSecretIfAbsent_run secret w :
  faultFree w ->
  storeSessionSecretIfAbsent secret w
  = (inl tt,
     withOptions
       (match options (afterStatement w) !! optionKeySessionSecret with
        | Some _ => options (afterStatement w)
        | None => <[optionKeySessionSecret := secret]> (options (afterStatement w))
        end) (schedule (afterStatement w)) (afterStatement w)).
Proof.
  intros H. unfold storeSessionSecretIfAbsent, bind. rewrite (dbStatement_run w H).
  unfold readOptions, writeOptions, ret.
  destruct (afterStatement w) as [opts sch rnd pos rerr S C lg] eqn:E. cbn.
  by destruct (opts !! optionKeySessionSecret).
Qed.

Lemma generated_secret_nonempty w :
  isEmpty (GoHex.EncodeToString (nextRandom w 32)) = false.
Proof.
  unfold isEmpty. rewrite EncodeToString_length.
  by rewrite (proj1 (nextRandom_bytes w 32)).
Qed.

Lemma bind_bind {A B C} (m : M A) (g : A -> M B) (f : B -> M C) w :
  bind (bind m g) f w = bind m (fun a => bind (g a) f) w.
Proof. unfold bind. destruct (m w) as [[a|e] w']; [|done]. done. Qed.

Lemma bind_ret {A B} (a : A) (f : A -> M B) w : bind (ret a) f w = f a w.
Proof. done. Qed.

Lemma bind_getOptionValue {B} key (f : string * bool -> M B) w :
  faultFree w ->
  bind (getOptionValue key) f w
  = f match options (afterStatement w) !! key with
      | Some v => (v, true)
      | None => (EmptyString, false)
      end (afterStatement w).
Proof. intros H. unfold bind. by rewrite (getOptionValue_run key w H). Qed.

Lemma bind_upsertOption {B} key value (f : unit -> M B) w :
  faultFree w ->
  bind (upsertOption key value) f w
  = f tt (withOptions (<[key := value]> (options (afterStatement w)))
            (schedule (afterStatement w)) (afterStatement w)).
Proof. intros H. unfold bind. by rewrite (upsertOption_run key value w H). Qed.

Lemma bind_storeSessionSecretIfAbsent {B} secret (f : unit -> M B) w :
  faultFree w ->
  bind (storeSessionSecretIfAbsent secret) f w
  = f tt (withOptions
            (match options (afterStatement w) !! optionKeySessionSecret with
             | Some _ => options (afterStatement w)
             | None => <[optionKeySessionSecret := secret]> (options (afterStatement w))
             end) (schedule (afterStatement w)) (afterStatement w)).
Proof. intros H. unfold bind. by rewrite (storeSessionSecretIfAbsent_run secret w H). Qed.

Lemma bind_generateSecretHex {B} (f : string -> M B) w :
  randErr w = None ->
  bind (generateSecretHex 32) f w
  = f (GoHex.EncodeToString (nextRandom w 32))
      (mkWorld (options w) (schedule w) (random w) (randomPos w + 32)%nat (randErr w)
         (SessionSecret w) (CryptoSecret w) (secretsLog w)).
Proof.
  intros H. unfold generateSecretHex, randRead, ret, bind. cbn [Z.leb Z.compare].
  rewrite H. reflexivity.
Qed.

Lemma bind_setSessionSecret {B} v (f : unit -> M B) w :
  bind (setSessionSecret v) f w
  = f tt (mkWorld (options w) (schedule w) (random w) (randomPos w) (randErr w)
            v (CryptoSecret w) (secretsLog w)).
Proof. done. Qed.

Lemma bind_setCryptoSecret {B} v (f : unit -> M B) w :
  bind (setCryptoSecret v) f w
  = f tt (mkWorld (options w) (schedule w) (random w) (randomPos w) (randErr w)
            (SessionSecret w) v (secretsLog w)).
Proof. done. Qed.

Lemma Forall_tail_of {A} (P : A -> Prop) l : Forall P l -> Forall P (tail l).
Proof. destruct l; [done|]. by intros [_ ?]%Forall_cons. Qed.

(** Each step of [EnsurePersistentSecrets] in a world where no statement
    fails and the random source works: it returns no error and leaves such
    a world, with the two variables as they were unless it sets one. *)
Lemma getOptionValue_ok {B} key (f : string * bool -> M B) w :
  faultFree w -> randErr w = None ->
  exists v found w',
    bind (getOptionValue key) f w = f (v, found) w'
    /\ faultFree w' /\ randErr w' = None
    /\ SessionSecret w' = SessionSecret w /\ CryptoSecret w' = CryptoSecret w.
Proof.
  intros Hff Hr. rewrite bind_getOptionValue by done.
  destruct (options (afterStatement w) !! key) as [v|].
  - exists v, true, (afterStatement w). split; [done|].
    split; [by apply faultFree_afterStatement|done].
  - exists EmptyString, false, (afterStatement w). split; [done|].
    split; [by apply faultFree_afterStatement|done].
Qed.

Lemma upsertOption_ok {B} key value (f : unit -> M B) w :
  faultFree w -> randErr w = None ->
  exists w',
    bind (upsertOption key value) f w = f tt w'
    /\ faultFree w' /\ randErr w' = None
    /\ SessionSecret w' = SessionSecret w /\ CryptoSecret w' = CryptoSecret w.
Proof.
  intros Hff Hr. rewrite bind_upsertOption by done. eexists. split; [done|].
  split; [|done]. unfold faultFree in *. cbn [schedule afterStatement withOptions].
  by apply Forall_tail_of.
Qed.

Lemma storeSessionSecretIfAbsent_ok {B} secret (f : unit -> M B) w :
  faultFree w -> randErr w = None ->
  exists w',
    bind (storeSessionSecretIfAbsent secret) f w = f tt w'
    /\ faultFree w' /\ randErr w' = None
    /\ SessionSecret w' = SessionSecret w /\ CryptoSecret w' = CryptoSecret w.
Proof.
  intros Hff Hr. rewrite bind_storeSessionSecretIfAbsent by done. eexists. split; [done|].
  split; [|done]. unfold faultFree in *. cbn [schedule afterStatement withOptions].
  by apply Forall_tail_of.
Qed.

Lemma generateSecretHex_ok {B} (f : string -> M B) w :
  faultFree w -> randErr w = None ->
  exists g w',
    bind (generateSecretHex 32) f w = f g w'
    /\ isEmpty g = false
    /\ faultFree w' /\ randErr w' = None
    /\ SessionSecret w' = SessionSecret w /\ CryptoSecret w' = CryptoSecret w.
Proof.
  intros Hff Hr. rewrite bind_generateSecretHex by done. eexists _, _. split; [done|].
  split; [apply generated_secret_nonempty|done].
Qed.

Lemma setSessionSecret_ok {B} v (f : unit -> M B) w :
  faultFree w -> randErr w = None ->
  exists w',
    bind (setSessionSecret v) f w = f tt w'
    /\ faultFree w' /\ randErr w' = None
    /\ SessionSecret w' = v /\ CryptoSecret w' = CryptoSecret w.
Proof. intros Hff Hr. eexists. split; [apply bind_setSessionSecret|done]. Qed.

Lemma setCryptoSecret_ok {B} v (f : unit -> M B) w :
  faultFree w -> randErr w = None ->
  exists w',
    bind (setCryptoSecret v) f w = f tt w'
    /\ faultFree w' /\ randErr w' = None
    /\ SessionSecret w' = SessionSecret w /\ CryptoSecret w' = v.
Proof. intros Hff Hr. eexists. split; [apply bind_setCryptoSecret|done]. Qed.

Lemma SysLog_ok line w :
  exists w',
    SysLog line w = (inl tt, w')
    /\ SessionSecret w' = SessionSecret w /\ CryptoSecret w' = CryptoSecret w
    /\ options w' = options w.
Proof. eexists. split; [reflexivity|done]. Qed.

Ltac secrets_step :=
  first
    [ rewrite bind_bind
    | rewrite bind_ret
    | progress cbn [andb negb fst snd String.eqb Ascii.eqb Bool.eqb]
    | progress cbv beta iota
    | match goal with
      | |- context [bind (getOptionValue ?k) ?f ?w] =>
          destruct (getOptionValue_ok k f w ltac:(assumption) ltac:(assumption))
            as (? & [] & ? & -> & ? & ? & ? & ?)
      | |- context [bind (upsertOption ?k ?v) ?f ?w] =>
          destruct (upsertOption_ok k v f w ltac:(assumption) ltac:(assumption))
            as (? & -> & ? & ? & ? & ?)
      | |- context [bind (storeSessionSecretIfAbsent ?v) ?f ?w] =>
          destruct (storeSessionSecretIfAbsent_ok v f w ltac:(assumption) ltac:(assumption))
            as (? & -> & ? & ? & ? & ?)
      | |- context [bind (generateSecretHex 32) ?f ?w] =>
          destruct (generateSecretHex_ok f w ltac:(assumption) ltac:(assumption))
            as (? & ? & -> & ? & ? & ? & ? & ?)
      | |- context [bind (setSessionSecret ?v) ?f ?w] =>
          destruct (setSessionSecret_ok v f w ltac:(assumption) ltac:(assumption))
            as (? & -> & ? & ? & ? & ?)
      | |- context [bind (setCryptoSecret ?v) ?f ?w] =>
          destruct (setCryptoSecret_ok v f w ltac:(assumption) ltac:(assumption))
            as (? & -> & ? & ? & ? & ?)
      | |- context [SysLog ?l ?w] =>
          destruct (SysLog_ok l w) as (? & -> & ? & ? & ?)
      | |- context [isEmpty ?x] => destruct (isEmpty x) eqn:?
      end ].

(** X28: when no statement meets an error of the database and the random
    source works, whatever other clients write in between,
    [EnsurePersistentSecrets] returns no error and leaves
    [common.SessionSecret] and [common.CryptoSecret] non-empty. *)
Theorem secrets_are_set_when_nothing_fails env w :
  faultFree w -> randErr w = None ->
  exists w',
    EnsurePersistentSecrets env w = (inl tt, w')
    /\ SessionSecret w' <> EmptyString /\ CryptoSecret w' <> EmptyString.
Proof.
  intros Hff Hr. unfold EnsurePersistentSecrets, resolveSessionSecret, resolveCryptoSecret.
  set (sS := GoStrings.TrimSpace (Getenv env "SESSION_SECRET")).
  set (cS := GoStrings.TrimSpace (Getenv env "CRYPTO_SECRET")).
  repeat secrets_step.
  all: eexists; split; [reflexivity|]; split; apply isEmpty_false; congruence.
Qed.

(** X29: with no [SESSION_SECRET] in the environment and no usable row at
    the first read, the process keeps the value the row holds when it is
    read back after the insert-if-absent, trimmed, whenever that is not
    blank: also a value another client of the database stored in between,
    in place of the secret the process generated. *)
Theorem stored_session_secret_is_adopted env w v :
  envSecret env "SESSION_SECRET" = EmptyString -> faultFree w -> randErr w = None ->
  let w1 := afterStatement w in
  let generated := GoHex.EncodeToString (nextRandom w 32) in
  let w2 := afterStatement w1 in
  let stored := match options w2 !! optionKeySessionSecret with
                | Some _ => options w2
                | None => <[optionKeySessionSecret := generated]> (options w2)
                end in
  let w3 := afterStatement (withOptions stored (schedule w2) w2) in
  blankRow (options w1) optionKeySessionSecret ->
  options w3 !! optionKeySessionSecret = Some v ->
  GoStrings.TrimSpace v <> EmptyString ->
  exists w',
    EnsurePersistentSecrets env w = (inl tt, w')
    /\ SessionSecret w' = GoStrings.TrimSpace v.
Proof.
  intros Hs%isEmpty_true Hff Hr. cbv zeta. intros Hblank Hv Hvb%isEmpty_false.
  unfold EnsurePersistentSecrets, resolveSessionSecret, resolveCryptoSecret, envSecret in *.
  rewrite Hs. cbn [negb].
  rewrite bind_bind, bind_getOptionValue by done.
  assert (Hff1 : faultFree (afterStatement w)) by (by apply faultFree_afterStatement).
  assert (Hff2 : faultFree (afterStatement (afterStatement w)))
    by (by apply faultFree_afterStatement).
  unfold blankRow in Hblank.
  match goal with
  | |- exists w', bind ?m ?f ?W = _ /\ _ =>
      assert (Hfirst : m = bind (generateSecretHex 32)
                             (fun generated => ret (generated, "generated"%string)))
  end.
  { destruct (options (afterStatement w) !! optionKeySessionSecret) as [u|];
      cbn [andb negb]; [|done]. apply isEmpty_true in Hblank. by rewrite Hblank. }
  rewrite Hfirst. clear Hfirst.
  rewrite bind_bind, bind_generateSecretHex by done.
  rewrite bind_ret. cbv beta iota. cbn [String.eqb Ascii.eqb Bool.eqb].
  rewrite bind_bind.
  rewrite bind_storeSessionSecretIfAbsent by done.
  rewrite bind_bind.
  rewrite bind_getOptionValue
    by (unfold faultFree in *; cbn [schedule afterStatement withOptions] in *;
        by apply Forall_tail_of).
  match goal with
  | |- context [options ?W !! optionKeySessionSecret] =>
      replace (options W !! optionKeySessionSecret) with (Some v)
        by (symmetry; exact Hv)
  end.
  cbv beta iota. cbn [andb]. rewrite Hvb. cbn [negb]. rewrite bind_ret. cbv beta iota.
  match goal with
  | |- context [bind (setSessionSecret ?x) ?f ?W] =>
      assert (HffW : faultFree W)
        by (unfold faultFree in *; cbn [schedule afterStatement withOptions] in *;
            by repeat apply Forall_tail_of);
      assert (HrW : randErr W = None) by exact Hr;
      set (W' := W) in *; clearbody W'
  end.
  repeat secrets_step.
  all: eexists; split; [reflexivity|]; congruence.
Qed.
End SecretsScheduled.

(** ** The further theorems at concrete inputs *)

Lemma splitProxyList_tokens_witness :
  "10.0.0.0/8"%string ∈ splitProxyList " 10.0.0.0/8 ;; ,192.168.1.1 "
  /\ "10.0.0.0/8"%string <> EmptyString
  /\ GoStrings.TrimSpace "10.0.0.0/8" = "10.0.0.0/8"%string
  /\ allBytes (fun c => negb (isProxySeparator c)) "10.0.0.0/8" = true.
Proof.
  assert (H : "10.0.0.0/8"%string ∈ splitProxyList " 10.0.0.0/8 ;; ,192.168.1.1 ")
    by (vm_compute; apply list_elem_of_here).
  split; [exact H|].
  exact (splitProxyList_tokens " 10.0.0.0/8 ;; ,192.168.1.1 " "10.0.0.0/8" H).
Defined.

Lemma loaded_trust_set_nonempty_witness :
  trustedProxyOnce initialProc = false
  /\ trustedProxyCIDRs (loadTrustedProxies (envOf "bogus, 300.1.1.1") initialProc) <> [].
Proof.
  assert (H : trustedProxyOnce initialProc = false) by reflexivity.
  split; [exact H|].
  exact (proj1 (proj2 (loaded_trust_set_nonempty (envOf "bogus, 300.1.1.1") initialProc H))).
Defined.

Lemma rejected_tokens_are_logged_witness :
  trustedProxyOnce initialProc = false
  /\ sysLog (loadTrustedProxies (envOf "10.0.0.0/8, bogus, 1.2.3/8") initialProc)
     = sysLog initialProc
       ++ map rejectLine (List.filter (fun t => negb (parseableb t))
                            (configTokens (envOf "10.0.0.0/8, bogus, 1.2.3/8"))).
Proof.
  assert (H : trustedProxyOnce initialProc = false) by reflexivity.
  split; [exact H|].
  exact (rejected_tokens_are_logged (envOf "10.0.0.0/8, bogus, 1.2.3/8") initialProc H).
Defined.

Lemma trusted_iff_some_token_contains_witness :
  trustedProxyOnce initialProc = false
  /\ (exists t, t ∈ configTokens (envOf "10.0.0.0/8") /\ parseable t)
  /\ ((isTrustedProxyIP (envOf "10.0.0.0/8") [10; 1; 2; 3] initialProc).1 = true
      <-> exists tok c, tok ∈ configTokens (envOf "10.0.0.0/8") /\ parseProxy tok = inl c
                        /\ GoNet.Contains c [10; 1; 2; 3] = true).
Proof.
  assert (H : trustedProxyOnce initialProc = false) by reflexivity.
  assert (Ht : exists t, t ∈ configTokens (envOf "10.0.0.0/8") /\ parseable t).
  { exists "10.0.0.0/8"%string. split; [vm_compute; apply list_elem_of_here|].
    right. vm_compute. discriminate. }
  split; [exact H|]. split; [exact Ht|].
  exact (trusted_iff_some_token_contains (envOf "10.0.0.0/8") initialProc [10; 1; 2; 3] H Ht).
Defined.

Lemma more_tokens_more_trust_witness :
  (isTrustedProxyIP (envOf "10.0.0.0/8") [10; 1; 2; 3] initialProc).1 = true
  /\ (isTrustedProxyIP (envOf "192.168.0.0/16; 10.0.0.0/8") [10; 1; 2; 3] initialProc).1 = true.
Proof.
  assert (H : trustedProxyOnce initialProc = false) by reflexivity.
  assert (E1 : configTokens (envOf "10.0.0.0/8") = ["10.0.0.0/8"%string])
    by (vm_compute; reflexivity).
  assert (E2 : configTokens (envOf "192.168.0.0/16; 10.0.0.0/8")
               = ["192.168.0.0/16"; "10.0.0.0/8"]%string) by (vm_compute; reflexivity).
  assert (Hsub : forall t, t ∈ configTokens (envOf "10.0.0.0/8") ->
                           t ∈ configTokens (envOf "192.168.0.0/16; 10.0.0.0/8")).
  { intros t Ht. rewrite E1 in Ht. apply list_elem_of_singleton in Ht. subst t.
    rewrite E2. apply list_elem_of_further, list_elem_of_here. }
  assert (Ht : exists t, t ∈ configTokens (envOf "10.0.0.0/8") /\ parseable t).
  { exists "10.0.0.0/8"%string. split; [rewrite E1; apply list_elem_of_here|].
    right. vm_compute. discriminate. }
  assert (H1 : (isTrustedProxyIP (envOf "10.0.0.0/8") [10; 1; 2; 3] initialProc).1 = true)
    by (vm_compute; reflexivity).
  split; [exact H1|].
  exact (more_tokens_more_trust (envOf "10.0.0.0/8") (envOf "192.168.0.0/16; 10.0.0.0/8")
           initialProc initialProc [10; 1; 2; 3] H H Hsub Ht H1).
Defined.

Lemma loaded_process_is_read_only_witness :
  (RealClientIPFromRequest IsPrivateIP_std (envOf "") (Some (exampleRequest "198.51.100.9"))
     (loadTrustedProxies (envOf "10.0.0.0/8") initialProc)).2
  = loadTrustedProxies (envOf "10.0.0.0/8") initialProc.
Proof.
  assert (H : trustedProxyOnce (loadTrustedProxies (envOf "10.0.0.0/8") initialProc) = true)
    by (vm_compute; reflexivity).
  exact (proj1 (loaded_process_is_read_only IsPrivateIP_std (envOf "") (envOf "0.0.0.0/0")
                  (Some (exampleRequest "198.51.100.9"))
                  (loadTrustedProxies (envOf "10.0.0.0/8") initialProc)
                  (loadTrustedProxies (envOf "10.0.0.0/8") initialProc) H H eq_refl)).
Defined.

Lemma pickForwardedIP_returns_a_valid_entry_witness :
  pickForwardedIP IsPrivateIP_std "junk, 10.0.0.5" <> EmptyString
  /\ pickForwardedIP IsPrivateIP_std "junk, 10.0.0.5" ∈ entries "junk, 10.0.0.5"
  /\ GoNet.ParseIP (pickForwardedIP IsPrivateIP_std "junk, 10.0.0.5") <> None.
Proof.
  assert (H : pickForwardedIP IsPrivateIP_std "junk, 10.0.0.5" <> EmptyString)
    by (vm_compute; discriminate).
  split; [exact H|].
  exact (proj2 (pickForwardedIP_returns_a_valid_entry IsPrivateIP_std "junk, 10.0.0.5") H).
Defined.

Lemma resolver_result_empty_iff_witness :
  (RealClientIPFromRequest IsPrivateIP_std (envOf "")
     (Some (GoHttp.mkRequest "not-an-address" (headersOf "203.0.113.7" "" ""))) initialProc).1
  = EmptyString.
Proof.
  assert (H : parseRemoteIP "not-an-address" = None) by (vm_compute; reflexivity).
  exact (proj2 (resolver_result_empty_iff IsPrivateIP_std (envOf "")
                  (Some (GoHttp.mkRequest "not-an-address" (headersOf "203.0.113.7" "" "")))
                  initialProc) H).
Defined.

Lemma trusted_result_is_header_entry_or_peer_witness :
  parseRemoteIP (GoHttp.RemoteAddr (exampleRequest "198.51.100.9, junk"))
  = Some (GoNet.v4InV6Prefix ++ [203; 0; 113; 7])
  /\ ((RealClientIPFromRequest IsPrivateIP_std (envOf "")
         (Some (exampleRequest "198.51.100.9, junk")) initialProc).1
      = GoNet.String (GoNet.v4InV6Prefix ++ [203; 0; 113; 7])
      \/ exists name, name ∈ forwardedHeaders
           /\ (RealClientIPFromRequest IsPrivateIP_std (envOf "")
                 (Some (exampleRequest "198.51.100.9, junk")) initialProc).1
              ∈ entries (GoHttp.Get (GoHttp.Header (exampleRequest "198.51.100.9, junk")) name)
           /\ GoNet.ParseIP
                (RealClientIPFromRequest IsPrivateIP_std (envOf "")
                   (Some (exampleRequest "198.51.100.9, junk")) initialProc).1 <> None).
Proof.
  assert (H : parseRemoteIP (GoHttp.RemoteAddr (exampleRequest "198.51.100.9, junk"))
              = Some (GoNet.v4InV6Prefix ++ [203; 0; 113; 7])) by (vm_compute; reflexivity).
  split; [exact H|].
  exact (trusted_result_is_header_entry_or_peer IsPrivateIP_std (envOf "")
           (exampleRequest "198.51.100.9, junk") initialProc _ H).
Defined.

Lemma RealClientIP_cache_discipline_witness :
  (CallClientIP ∉ outCalls (RealClientIP IsPrivateIP_std directClientIP (envOf "")
                              (exampleContext "198.51.100.9") initialProc))
  /\ Gin.Get (outCtx (RealClientIP IsPrivateIP_std directClientIP (envOf "")
                        (exampleContext "198.51.100.9") initialProc)) realClientIPKey
     = Some (Gin.AnyString
               (outIP (RealClientIP IsPrivateIP_std directClientIP (envOf "")
                         (exampleContext "198.51.100.9") initialProc))).
Proof.
  assert (H : CallClientIP ∉ outCalls (RealClientIP IsPrivateIP_std directClientIP (envOf "")
                                         (exampleContext "198.51.100.9") initialProc)).
  { vm_compute. intros Hin.
    repeat (apply elem_of_cons in Hin as [Hin|Hin]; [discriminate|]).
    by apply elem_of_nil in Hin. }
  split; [exact H|].
  exact (proj1 (proj1 (proj2 (proj2 (RealClientIP_cache_discipline IsPrivateIP_std
           directClientIP (envOf "") (exampleContext "198.51.100.9") initialProc))) H)).
Defined.

Lemma framework_fallback_iff_witness :
  CallClientIP ∈ outCalls (RealClientIP IsPrivateIP_std directClientIP (envOf "")
                             (Gin.mkContext None ∅) initialProc).
Proof.
  assert (H : forall ip, Gin.Get (Gin.mkContext None ∅) realClientIPKey
                         = Some (Gin.AnyString ip) -> ip = EmptyString).
  { intros ip Hget. unfold Gin.Get in Hget. simpl in Hget.
    rewrite lookup_empty in Hget. discriminate. }
  exact (proj2 (framework_fallback_iff IsPrivateIP_std directClientIP (envOf "")
                  (Gin.mkContext None ∅) initialProc) (conj H I)).
Defined.

Lemma remote_port_is_ignored_witness :
  GoNet.parseIPv4Fields "203.0.113.7" = Some [203; 0; 113; 7]
  /\ allBytes isDigit "4711" = true
  /\ parseRemoteIP "203.0.113.7:4711" = Some (GoNet.v4InV6Prefix ++ [203; 0; 113; 7])
  /\ parseRemoteIP "203.0.113.7" = Some (GoNet.v4InV6Prefix ++ [203; 0; 113; 7]).
Proof.
  assert (H1 : GoNet.parseIPv4Fields "203.0.113.7" = Some [203; 0; 113; 7])
    by (vm_compute; reflexivity).
  assert (H2 : allBytes isDigit "4711" = true) by (vm_compute; reflexivity).
  split; [exact H1|]. split; [exact H2|].
  exact (remote_port_is_ignored "203.0.113.7" "4711" [203; 0; 113; 7] H1 H2).
Defined.

Lemma truncateForLog_bounded_witness :
  Relay.truncateForLog "abcdef" 0 = EmptyString
  /\ Z.of_nat (String.length (Relay.truncateForLog "abcdef" 3)) <= Z.max 0 3 + 14.
Proof.
  split.
  - apply (proj1 (truncateForLog_bounded "abcdef" 0)). lia.
  - exact (proj1 (proj2 (truncateForLog_bounded "abcdef" 3))).
Defined.

Lemma truncateForLog_keeps_the_first_bytes_witness :
  0 < 3
  /\ GoStrings.takeS (Z.to_nat 3) (Relay.truncateForLog "abcdef" 3)
     = GoStrings.takeS (Z.to_nat 3) "abcdef"
  /\ (Z.of_nat (String.length "abcdef") <= 3 -> Relay.truncateForLog "abcdef" 3 = "abcdef"%string)
  /\ (3 < Z.of_nat (String.length "abcdef") ->
      GoStrings.dropS (Z.to_nat 3) (Relay.truncateForLog "abcdef" 3) = "...(truncated)"%string).
Proof.
  assert (H : 0 < 3) by lia.
  split; [exact H|].
  exact (truncateForLog_keeps_the_first_bytes "abcdef" 3 H).
Defined.

Lemma generateSecretHex_shape_witness :
  Model.randErr (exampleWorld ∅ []) = None
  /\ exists s w',
       Model.generateSecretHex 32 (exampleWorld ∅ []) = (inl s, w')
       /\ Z.of_nat (String.length s) = 2 * Z.max 0 32
       /\ allBytes lowerHexByte s = true
       /\ Model.options w' = Model.options (exampleWorld ∅ [])
       /\ Model.randomPos w' = (Model.randomPos (exampleWorld ∅ []) + Z.to_nat 32)%nat.
Proof.
  assert (H : Model.randErr (exampleWorld ∅ []) = None) by reflexivity.
  split; [exact H|].
  exact (generateSecretHex_shape 32 (exampleWorld ∅ []) H).
Defined.

Lemma generateSecretHex_injective_witness :
  0 < 2
  /\ Model.nextRandom (exampleWorld ∅ []) (Z.to_nat 2)
     = Model.nextRandom (exampleWorld {[ "SessionSecret"%string := "x"%string ]} [])
         (Z.to_nat 2).
Proof.
  assert (H : 0 < 2) by lia.
  assert (H1 : Model.generateSecretHex 2 (exampleWorld ∅ [])
               = (inl (GoHex.EncodeToString (Model.nextRandom (exampleWorld ∅ []) 2)),
                  (Model.generateSecretHex 2 (exampleWorld ∅ [])).2))
    by (vm_compute; reflexivity).
  assert (H2 : Model.generateSecretHex 2
                 (exampleWorld {[ "SessionSecret"%string := "x"%string ]} [])
               = (inl (GoHex.EncodeToString (Model.nextRandom (exampleWorld ∅ []) 2)),
                  (Model.generateSecretHex 2
                     (exampleWorld {[ "SessionSecret"%string := "x"%string ]} [])).2))
    by (vm_compute; reflexivity).
  split; [exact H|].
  exact (generateSecretHex_injective 2 (exampleWorld ∅ [])
           (exampleWorld {[ "SessionSecret"%string := "x"%string ]} []) _ _ _ H H1 H2).
Defined.

Lemma session_secret_from_environment_witness :
  Model.envSecret (secretsEnv " s3cret " "") "SESSION_SECRET" <> EmptyString
  /\ Model.quiet (exampleWorld ∅ [])
  /\ exists w',
       Model.EnsurePersistentSecrets (secretsEnv " s3cret " "") (exampleWorld ∅ [])
       = (inl tt, w')
       /\ Model.SessionSecret w' = Model.envSecret (secretsEnv " s3cret " "") "SESSION_SECRET"
       /\ Model.options w' !! Model.optionKeySessionSecret
          = Some (Model.envSecret (secretsEnv " s3cret " "") "SESSION_SECRET")
       /\ Model.randomPos w' = Model.randomPos (exampleWorld ∅ []).
Proof.
  assert (H1 : Model.envSecret (secretsEnv " s3cret " "") "SESSION_SECRET" <> EmptyString)
    by (vm_compute; discriminate).
  assert (H2 : Model.quiet (exampleWorld ∅ [])) by (split; reflexivity).
  split; [exact H1|]. split; [exact H2|].
  exact (session_secret_from_environment (secretsEnv " s3cret " "") (exampleWorld ∅ []) H1 H2).
Defined.

Lemma session_secret_from_database_witness :
  exists w',
    Model.EnsurePersistentSecrets (secretsEnv "" "")
      (exampleWorld {[ "SessionSecret"%string := " stored "%string ]} [])
    = (inl tt, w')
    /\ Model.SessionSecret w' = GoStrings.TrimSpace " stored "
    /\ Model.options w' !! Model.optionKeySessionSecret = Some " stored "%string
    /\ Model.randomPos w'
       = Model.randomPos (exampleWorld {[ "SessionSecret"%string := " stored "%string ]} []).
Proof.
  assert (H1 : Model.envSecret (secretsEnv "" "") "SESSION_SECRET" = EmptyString)
    by (vm_compute; reflexivity).
  assert (H2 : Model.quiet (exampleWorld {[ "SessionSecret"%string := " stored "%string ]} []))
    by (split; reflexivity).
  assert (H3 : Model.options (exampleWorld {[ "SessionSecret"%string := " stored "%string ]} [])
               !! Model.optionKeySessionSecret = Some " stored "%string)
    by (vm_compute; reflexivity).
  assert (H4 : GoStrings.TrimSpace " stored " <> EmptyString) by (vm_compute; discriminate).
  exact (session_secret_from_database (secretsEnv "" "")
           (exampleWorld {[ "SessionSecret"%string := " stored "%string ]} []) " stored "
           H1 H2 H3 H4).
Defined.

Lemma session_secret_generated_and_stored_witness :
  exists w',
    Model.EnsurePersistentSecrets (secretsEnv "" "") (exampleWorld ∅ []) = (inl tt, w')
    /\ Model.SessionSecret w'
       = GoHex.EncodeToString (Model.nextRandom (exampleWorld ∅ []) 32)
    /\ String.length (Model.SessionSecret w') = 64%nat
    /\ Model.options w' !! Model.optionKeySessionSecret = Some (Model.SessionSecret w')
    /\ Model.randomPos w' = (Model.randomPos (exampleWorld ∅ []) + 32)%nat.
Proof.
  assert (H1 : Model.envSecret (secretsEnv "" "") "SESSION_SECRET" = EmptyString)
    by (vm_compute; reflexivity).
  assert (H2 : Model.quiet (exampleWorld ∅ [])) by (split; reflexivity).
  assert (H3 : Model.options (exampleWorld ∅ []) !! Model.optionKeySessionSecret = None)
    by (vm_compute; reflexivity).
  exact (session_secret_generated_and_stored (secretsEnv "" "") (exampleWorld ∅ []) H1 H2 H3).
Defined.

Lemma blank_row_keeps_generated_secret_out_witness :
  exists w',
    Model.EnsurePersistentSecrets (secretsEnv "" "")
      (exampleWorld {[ "SessionSecret"%string := "  "%string ]} [])
    = (inl tt, w')
    /\ Model.SessionSecret w'
       = GoHex.EncodeToString
           (Model.nextRandom (exampleWorld {[ "SessionSecret"%string := "  "%string ]} []) 32)
    /\ Model.options w' !! Model.optionKeySessionSecret = Some "  "%string
    /\ Model.secretsLog w'
       = Model.secretsLog (exampleWorld {[ "SessionSecret"%string := "  "%string ]} [])
         ++ ["SESSION_SECRET was not set; generated and stored in database options"%string].
Proof.
  assert (H1 : Model.envSecret (secretsEnv "" "") "SESSION_SECRET" = EmptyString)
    by (vm_compute; reflexivity).
  assert (H2 : Model.quiet (exampleWorld {[ "SessionSecret"%string := "  "%string ]} []))
    by (split; reflexivity).
  assert (H3 : Model.options (exampleWorld {[ "SessionSecret"%string := "  "%string ]} [])
               !! Model.optionKeySessionSecret = Some "  "%string)
    by (vm_compute; reflexivity).
  assert (H4 : GoStrings.TrimSpace "  " = EmptyString) by (vm_compute; reflexivity).
  exact (blank_row_keeps_generated_secret_out (secretsEnv "" "")
           (exampleWorld {[ "SessionSecret"%string := "  "%string ]} []) "  " H1 H2 H3 H4).
Defined.

Lemma crypto_secret_precedence_witness :
  exists w',
    Model.EnsurePersistentSecrets (secretsEnv "s3cret" "") (exampleWorld ∅ []) = (inl tt, w')
    /\ Model.CryptoSecret w' = Model.SessionSecret w'.
Proof.
  assert (H1 : Model.quiet (exampleWorld ∅ [])) by (split; reflexivity).
  assert (H2 : Model.envSecret (secretsEnv "s3cret" "") "CRYPTO_SECRET" = EmptyString)
    by (vm_compute; reflexivity).
  assert (H3 : Model.blankRow (Model.options (exampleWorld ∅ [])) Model.optionKeyCryptoSecret)
    by (vm_compute; exact I).
  destruct (crypto_secret_precedence (secretsEnv "s3cret" "") (exampleWorld ∅ []) H1)
    as (w' & Hrun & _ & Hdef).
  exists w'. split; [exact Hrun|]. exact (proj2 (proj2 (Hdef H2)) H3).
Defined.

Lemma secrets_survive_restart_witness :
  exists w1 w2,
    Model.EnsurePersistentSecrets (secretsEnv " s3cret " "crypt0") (exampleWorld ∅ [])
    = (inl tt, w1)
    /\ Model.EnsurePersistentSecrets (secretsEnv "" "") (Model.restart w1 "a" "b")
       = (inl tt, w2)
    /\ Model.SessionSecret w2 = Model.SessionSecret w1
    /\ Model.CryptoSecret w2 = Model.CryptoSecret w1.
Proof.
  assert (H1 : Model.quiet (exampleWorld ∅ [])) by (split; reflexivity).
  assert (H2 : Model.envSecret (secretsEnv " s3cret " "crypt0") "SESSION_SECRET" <> EmptyString)
    by (vm_compute; discriminate).
  assert (H3 : Model.envSecret (secretsEnv "" "") "SESSION_SECRET" = EmptyString)
    by (vm_compute; reflexivity).
  assert (H4 : Model.envSecret (secretsEnv "" "") "CRYPTO_SECRET" = EmptyString)
    by (vm_compute; reflexivity).
  exact (secrets_survive_restart (secretsEnv " s3cret " "crypt0") (secretsEnv "" "")
           (exampleWorld ∅ []) "a" "b" H1 (or_introl H2) H3 H4).
Defined.

Lemma blank_row_gives_a_new_secret_at_each_start_witness :
  exists w1 w2,
    Model.EnsurePersistentSecrets (secretsEnv "" "")
      (exampleWorld {[ "SessionSecret"%string := "  "%string ]} [])
    = (inl tt, w1)
    /\ Model.EnsurePersistentSecrets (secretsEnv "" "") (Model.restart w1 "a" "b")
       = (inl tt, w2)
    /\ Model.SessionSecret w1
       = GoHex.EncodeToString
           (Model.nextRandom (exampleWorld {[ "SessionSecret"%string := "  "%string ]} []) 32)
    /\ Model.SessionSecret w2 = GoHex.EncodeToString (Model.nextRandom w1 32)
    /\ Model.randomPos w1
       = (Model.randomPos (exampleWorld {[ "SessionSecret"%string := "  "%string ]} []) + 32)%nat
    /\ (Model.SessionSecret w2 = Model.SessionSecret w1
        <-> Model.nextRandom w1 32
            = Model.nextRandom (exampleWorld {[ "SessionSecret"%string := "  "%string ]} []) 32).
Proof.
  assert (H1 : Model.quiet (exampleWorld {[ "SessionSecret"%string := "  "%string ]} []))
    by (split; reflexivity).
  assert (H2 : Model.envSecret (secretsEnv "" "") "SESSION_SECRET" = EmptyString)
    by (vm_compute; reflexivity).
  assert (H3 : Model.options (exampleWorld {[ "SessionSecret"%string := "  "%string ]} [])
               !! Model.optionKeySessionSecret = Some "  "%string)
    by (vm_compute; reflexivity).
  assert (H4 : GoStrings.TrimSpace "  " = EmptyString) by (vm_compute; reflexivity).
  exact (blank_row_gives_a_new_secret_at_each_start (secretsEnv "" "") (secretsEnv "" "")
           (exampleWorld {[ "SessionSecret"%string := "  "%string ]} []) "  " "a" "b"
           H1 H2 H2 H3 H4).
Defined.


Lemma database_error_is_returned_witness :
  exists w',
    Model.EnsurePersistentSecrets (secretsEnv "s3cret" "crypt0")
      (exampleWorld ∅ [Model.mkStep (fun t => t) (Some "database is locked"%string)])
    = (inr "database is locked"%string, w')
    /\ Model.options w' = ∅
    /\ Model.schedule w' = []
    /\ Model.secretsLog w' = [].
Proof.
  exact (database_error_is_returned (secretsEnv "s3cret" "crypt0")
           (exampleWorld ∅ [Model.mkStep (fun t => t) (Some "database is locked"%string)])
           (fun t => t) "database is locked" [] eq_refl).
Defined.

Lemma secrets_are_set_when_nothing_fails_witness :
  exists w',
    Model.EnsurePersistentSecrets (secretsEnv "" "")
      (exampleWorld ∅ [Model.mkStep (fun t => <[ "CryptoSecret"%string := "c"%string ]> t) None])
    = (inl tt, w')
    /\ Model.SessionSecret w' <> EmptyString /\ Model.CryptoSecret w' <> EmptyString.
Proof.
  assert (H1 : Model.faultFree
                 (exampleWorld ∅
                    [Model.mkStep (fun t => <[ "CryptoSecret"%string := "c"%string ]> t) None])).
  { apply Forall_cons_2; [reflexivity|apply Forall_nil_2]. }
  exact (secrets_are_set_when_nothing_fails (secretsEnv "" "") _ H1 eq_refl).
Defined.

Lemma stored_session_secret_is_adopted_witness :
  exists w',
    Model.EnsurePersistentSecrets (secretsEnv "" "")
      (exampleWorld ∅
         [Model.mkStep (fun t => t) None;
          Model.mkStep (fun t => <[ "SessionSecret"%string := " theirs "%string ]> t) None])
    = (inl tt, w')
    /\ Model.SessionSecret w' = GoStrings.TrimSpace " theirs ".
Proof.
  assert (H1 : Model.envSecret (secretsEnv "" "") "SESSION_SECRET" = EmptyString)
    by (vm_compute; reflexivity).
  assert (H2 : Model.faultFree
                 (exampleWorld ∅
                    [Model.mkStep (fun t => t) None;
                     Model.mkStep
                       (fun t => <[ "SessionSecret"%string := " theirs "%string ]> t) None])).
  { apply Forall_cons_2; [reflexivity|].
    apply Forall_cons_2; [reflexivity|apply Forall_nil_2]. }
  assert (H4 : GoStrings.TrimSpace " theirs " <> EmptyString) by (vm_compute; discriminate).
  refine (stored_session_secret_is_adopted (secretsEnv "" "") _ " theirs " H1 H2 eq_refl
            _ _ H4).
  - vm_compute. exact I.
  - vm_compute. reflexivity.
Defined.

Lemma bracketed_remote_port_is_ignored_witness :
  GoStrings.IndexByte "2001:db8::1" "[" = None
  /\ GoStrings.IndexByte "2001:db8::1" "]" = None
  /\ allBytes isDigit "8080" = true
  /\ parseRemoteIP ("[" +:+ "2001:db8::1" +:+ "]:" +:+ "8080") = GoNet.ParseIP "2001:db8::1".
Proof.
  assert (H1 : GoStrings.IndexByte "2001:db8::1" "[" = None) by (vm_compute; reflexivity).
  assert (H2 : GoStrings.IndexByte "2001:db8::1" "]" = None) by (vm_compute; reflexivity).
  assert (H3 : allBytes isDigit "8080" = true) by (vm_compute; reflexivity).
  split; [exact H1|]. split; [exact H2|]. split; [exact H3|].
  exact (bracketed_remote_port_is_ignored "2001:db8::1" "8080" H1 H2 H3).
Defined.
